(** * CustomCrosshair: a shallow embedding of [customcrosshair.py]

    The program is a PyQt6 overlay ([CrosshairOverlay]) driven by a settings
    panel ([SettingsWindow]).  The embedding keeps the program's own shape:
    Python values are a tagged union, the two objects' attributes are finite
    maps from attribute names to values, every method is a computation in a
    state-and-exception monad over the whole program state, and the widgets
    carry the part of Qt's behaviour the methods depend on (range clamping and
    change signals). *)

From Stdlib Require Import ZArith String Ascii List Bool Lia SpecFloat.
Import ListNotations.
Local Open Scope Z_scope.
Set Warnings "-register-all".

(** ** Python strings

    A [str] is a sequence of code points.  The model covers the code points
    0..255; there the only characters [\d] and [int()] read as decimal digits
    are ['0'..'9']. *)

Abbreviation str := (list ascii) (only parsing).

Definition lit (s : string) : str := list_ascii_of_string s.
Arguments lit s%_string.

Definition newline : ascii := ascii_of_nat 10.

Definition is_digit (c : ascii) : bool :=
  let n := Z.of_nat (nat_of_ascii c) in (48 <=? n) && (n <=? 57).

Definition digit_value (c : ascii) : Z := Z.of_nat (nat_of_ascii c) - 48.

(** Value of a run of decimal digits, most significant first. *)
Definition digits_value (s : str) : Z :=
  fold_left (fun acc c => 10 * acc + digit_value c) s 0.

(** ** Regular expressions: the fragment of [re] used by the decoder *)

Module Re.

Inductive regex :=
| Lit (s : str)          (* literal text *)
| Dot                    (* [.]: any character but a line feed *)
| Digit                  (* [\d] *)
| Seq (r1 r2 : regex)
| LazyStar (r : regex)   (* [r*?] *)
| Plus (r : regex)       (* [r+] *)
| Group (r : regex).     (* [(r)] *)

(** The language of a pattern: which strings it matches as a whole.
    Greedy and lazy repetition differ in the match they prefer, not in the
    set of strings they match. *)
Fixpoint matches (r : regex) (s : str) : Prop :=
  match r with
  | Lit l => s = l
  | Dot => exists c, s = [c] /\ c <> newline
  | Digit => exists c, s = [c] /\ is_digit c = true
  | Seq r1 r2 => exists s1 s2, s = s1 ++ s2 /\ matches r1 s1 /\ matches r2 s2
  | LazyStar r0 => exists ss, s = concat ss /\ Forall (matches r0) ss
  | Plus r0 => exists ss, ss <> [] /\ s = concat ss /\ Forall (matches r0) ss
  | Group r0 => matches r0 s
  end.

Fixpoint seqs (rs : list regex) : regex :=
  match rs with
  | [] => Lit []
  | [r] => r
  | r :: rs' => Seq r (seqs rs')
  end.

(** [re.search]: some substring of the subject is in the language. *)
Definition found (r : regex) (s : str) : Prop :=
  exists pre m post, s = pre ++ m ++ post /\ matches r m.

End Re.

(** [r'0;P;.*?0t;(\d+);0l;(\d+);0o;(\d+);0a;(\d+);0f;(\d+);1t;(\d+);1o;(\d+);1a;(\d+)'] *)
Definition num : Re.regex := Re.Group (Re.Plus Re.Digit).

Definition valorant_pattern : Re.regex :=
  Re.seqs
    [ Re.Lit (lit "0;P;"); Re.LazyStar Re.Dot;
      Re.Lit (lit "0t;"); num; Re.Lit (lit ";0l;"); num;
      Re.Lit (lit ";0o;"); num; Re.Lit (lit ";0a;"); num;
      Re.Lit (lit ";0f;"); num; Re.Lit (lit ";1t;"); num;
      Re.Lit (lit ";1o;"); num; Re.Lit (lit ";1a;"); num ].

(** *** The backtracking search, specialised to [valorant_pattern]

    [re.search] tries every start position from the left; at each one it
    matches the literal head, then lets [.*?] skip as few characters as
    possible, then matches the eight key/number fields.  A [(\d+)] takes the
    longest run of digits; giving digits back never helps, because what
    follows a number in the pattern is a [';'] or the end of the pattern. *)

Fixpoint match_lit (l s : str) : option str :=
  match l, s with
  | [], _ => Some s
  | a :: l', b :: s' => if Ascii.eqb a b then match_lit l' s' else None
  | _ :: _, [] => None
  end.

Fixpoint span_digits (s : str) : str * str :=
  match s with
  | c :: s' =>
      if is_digit c then let (d, r) := span_digits s' in (c :: d, r)
      else ([], s)
  | [] => ([], [])
  end.

Definition match_num (s : str) : option (str * str) :=
  match span_digits s with
  | ([], _) => None
  | (d, r) => Some (d, r)
  end.

(** Each key followed by a captured number; the captured groups in order. *)
Fixpoint match_fields (keys : list str) (s : str) : option (list str * str) :=
  match keys with
  | [] => Some ([], s)
  | k :: ks =>
      match match_lit k s with
      | None => None
      | Some s1 =>
          match match_num s1 with
          | None => None
          | Some (d, s2) =>
              match match_fields ks s2 with
              | None => None
              | Some (ds, r) => Some (d :: ds, r)
              end
          end
      end
  end.

Definition field_keys : list str :=
  [ lit "0t;"; lit ";0l;"; lit ";0o;"; lit ";0a;";
    lit ";0f;"; lit ";1t;"; lit ";1o;"; lit ";1a;" ].

(** [.*?] followed by the fields: the shortest skip that lets the rest match. *)
Fixpoint match_lazy_dot (s : str) : option (list str * str) :=
  match match_fields field_keys s with
  | Some g => Some g
  | None =>
      match s with
      | c :: s' => if Ascii.eqb c newline then None else match_lazy_dot s'
      | [] => None
      end
  end.

Definition match_at (s : str) : option (list str * str) :=
  match match_lit (lit "0;P;") s with
  | Some s1 => match_lazy_dot s1
  | None => None
  end.

(** [re.search(pattern, code)]: the groups of the leftmost match, if any. *)
Fixpoint re_search (s : str) : option (list str) :=
  match match_at s with
  | Some (g, _) => Some g
  | None =>
      match s with
      | _ :: s' => re_search s'
      | [] => None
      end
  end.

Definition sample_code : str :=
  lit "0;P;x;0t;1;0l;4;0o;2;0a;75;0f;0;1t;3;1o;50;1a;2".

(** ** Python floats: IEEE 754 binary64

    The Standard Library's [SpecFloat] gives the operations as functions on
    integers (mantissa and exponent), rounding to nearest, ties to even. *)

Module B64.

Definition prec : Z := 53.
Definition emax : Z := 1024.

Definition float := spec_float.

(** An integer as the exact ratio [z * 2^0]; not yet rounded. *)
Definition exact (z : Z) : float :=
  match z with
  | Z0 => S754_zero false
  | Zpos p => S754_finite false p 0
  | Zneg p => S754_finite true p 0
  end.

(** [float(z)], rounded to nearest. *)
Definition of_Z (z : Z) : float := binary_normalize prec emax z 0 false.

Definition add : float -> float -> float := SFadd prec emax.
Definition mul : float -> float -> float := SFmul prec emax.

(** The correctly rounded quotient of two integers, as [int.__truediv__]
    computes it; an infinity stands for a quotient too large for a float. *)
Definition div_Z (a b : Z) : float := SFdiv prec emax (exact a) (exact b).

Definition leb : float -> float -> bool := SFleb.
Definition ltb : float -> float -> bool := SFltb.

Definition is_finite (f : float) : bool :=
  match f with
  | S754_zero _ | S754_finite _ _ _ => true
  | _ => false
  end.

(** [int(f)] on a finite float: truncation toward zero. *)
Definition trunc (f : float) : Z :=
  match f with
  | S754_finite s m e =>
      let a := match e with
               | Zneg k => Zpos m / 2 ^ Zpos k
               | _ => Zpos m * 2 ^ e
               end in
      if s then - a else a
  | _ => 0
  end.

(** Exact comparison of an integer with a float, as Python compares
    an [int] with a [float]; [None] when the float is a NaN. *)
Definition compare_Z (z : Z) (f : float) : option comparison :=
  match f with
  | S754_nan => None
  | S754_infinity s => Some (if s then Gt else Lt)
  | S754_zero _ => Some (z ?= 0)
  | S754_finite s m e =>
      let v := if s then Zneg m else Zpos m in
      Some match e with
           | Zneg k => (z * 2 ^ Zpos k ?= v)
           | _ => (z ?= v * 2 ^ e)
           end
  end.

Definition zero : float := S754_zero false.
Definition one : float := of_Z 1.

(** [0.0 <= f <= 1.0] *)
Definition in_unit (f : float) : bool := leb zero f && leb f one.

End B64.

(** ** Python values and exceptions *)

Inductive exn :=
| TypeError | ValueError | OverflowError | AttributeError | IndexError
| JSONDecodeError | cv2_error | MemoryError.

Inductive result (A : Type) :=
| Ok (a : A)
| Raise (e : exn).
Arguments Ok {A} a.
Arguments Raise {A} e.

Inductive pyval :=
| PNone
| PBool (b : bool)
| PInt (z : Z)
| PFloat (f : B64.float)
| PStr (s : str)
| PList (l : list pyval)
| PTuple (l : list pyval)
| PDict (d : list (str * pyval)).

(** [sys.int_info.default_max_str_digits]: converting between [int] and a
    decimal [str] of more digits raises [ValueError]. *)
Definition int_max_str_digits : nat := 4300.

(** [int(s)] on a run of decimal digits, as the decoder calls it on a group. *)
Definition py_int_of_digits (s : str) : result Z :=
  if (int_max_str_digits <? List.length s)%nat then Raise ValueError
  else Ok (digits_value s).

Definition is_space (c : ascii) : bool :=
  let n := nat_of_ascii c in
  ((9 <=? n) && (n <=? 13) || (28 <=? n) && (n <=? 32)
   || (n =? 133) || (n =? 160))%nat.

Fixpoint lstrip (s : str) : str :=
  match s with
  | c :: s' => if is_space c then lstrip s' else s
  | [] => []
  end.

Definition strip (s : str) : str := rev (lstrip (rev (lstrip s))).

(** Digits with single underscores between them; [after_digit] tells whether
    the previous character was a digit.  Returns the digits read. *)
Fixpoint int_body (after_digit : bool) (s : str) : option str :=
  match s with
  | [] => if after_digit then Some [] else None
  | c :: s' =>
      if is_digit c then
        match int_body true s' with Some d => Some (c :: d) | None => None end
      else if Ascii.eqb c "_"%char then
        if after_digit then int_body false s' else None
      else None
  end.

(** [int(s)] on an arbitrary string, base 10. *)
Definition py_int_of_str (s : str) : result Z :=
  let t := strip s in
  let '(neg, body) :=
    match t with
    | c :: t' =>
        if Ascii.eqb c "-"%char then (true, t')
        else if Ascii.eqb c "+"%char then (false, t')
        else (false, t)
    | [] => (false, t)
    end in
  match int_body false body with
  | Some d =>
      if (int_max_str_digits <? List.length d)%nat then Raise ValueError
      else Ok (if neg then - digits_value d else digits_value d)
  | None => Raise ValueError
  end.

(** [a / b] on two [int]s with [b] positive. *)
Definition py_truediv (a b : Z) : result B64.float :=
  let q := B64.div_Z a b in
  if B64.is_finite q then Ok q else Raise OverflowError.

(** [int(f)] on a float. *)
Definition py_int_of_float (f : B64.float) : result Z :=
  match f with
  | S754_nan => Raise ValueError
  | S754_infinity _ => Raise OverflowError
  | _ => Ok (B64.trunc f)
  end.

(** [tuple(v)] *)
Definition py_tuple (v : pyval) : result pyval :=
  match v with
  | PList l | PTuple l => Ok (PTuple l)
  | PStr s => Ok (PTuple (map (fun c => PStr [c]) s))
  | PDict d => Ok (PTuple (map (fun kv => PStr (fst kv)) d))
  | PNone | PBool _ | PInt _ | PFloat _ => Raise TypeError
  end.

Definition str_eqb (a b : str) : bool :=
  if list_eq_dec ascii_dec a b then true else false.

(** A [dict] built from a JSON object keeps the last of repeated keys. *)
Fixpoint dict_lookup (k : str) (d : list (str * pyval)) : option pyval :=
  match d with
  | [] => None
  | (k', v) :: d' =>
      match dict_lookup k d' with
      | Some v' => Some v'
      | None => if str_eqb k k' then Some v else None
      end
  end.

(** [settings.get(key, default)] *)
Definition py_get (settings : pyval) (key : str) (default : pyval) : result pyval :=
  match settings with
  | PDict d =>
      Ok match dict_lookup key d with Some v => v | None => default end
  | _ => Raise AttributeError
  end.

(** What [json.load] reads back from what [json.dump] wrote: tuples come back
    as lists; numbers, booleans, strings and [None] come back as they were. *)
Fixpoint json_image (v : pyval) : pyval :=
  match v with
  | PList l | PTuple l => PList (map json_image l)
  | PDict d => PDict (map (fun kv : str * pyval => let (k, x) := kv in (k, json_image x)) d)
  | _ => v
  end.

(** [json.dump] writes an [int] through [str()], which refuses more than
    [int_max_str_digits] digits. *)
Definition int_printable (z : Z) : bool :=
  Z.abs z <? 10 ^ Z.of_nat int_max_str_digits.

(** An f-string formats an [int] through the same conversion. *)
Definition py_format (v : pyval) : result unit :=
  match v with
  | PInt z => if int_printable z then Ok tt else Raise ValueError
  | _ => Ok tt
  end.

Fixpoint json_dumpable (v : pyval) : bool :=
  match v with
  | PInt z => int_printable z
  | PList l | PTuple l => forallb json_dumpable l
  | PDict d => forallb (fun kv : str * pyval => let (_, x) := kv in json_dumpable x) d
  | _ => true
  end.

(** ** Images: numpy arrays

    A two-dimensional array (one grey plane) or a three-dimensional one (rows
    of pixels of channels). *)

Inductive ndarray :=
| Arr2 (px : list (list Z))
| Arr3 (px : list (list (list Z))).

(** The element type of an array read from a file.  [cv2.imread] with
    [IMREAD_UNCHANGED] returns a 16-bit array for a 16-bit PNG file and an
    8-bit array for the other files the dialog's filter lists.  Every array
    the program makes or stores is 8-bit: [np.zeros] is called with
    [dtype=np.uint8], and the normalizer returns what [cv2.merge] makes of
    planes that went through [cv2.convertScaleAbs]. *)
Inductive dtype := uint8 | uint16.

(** An array as read from a file, with its element type. *)
Record picture := Picture { dtype_of : dtype; array_of : ndarray }.

Coercion array_of : picture >-> ndarray.

Definition rows (a : ndarray) : nat :=
  match a with Arr2 p => List.length p | Arr3 p => List.length p end.

Definition cols (a : ndarray) : nat :=
  match a with
  | Arr2 p => List.length (hd [] p)
  | Arr3 p => List.length (hd [] p)
  end.

Definition chans (a : ndarray) : nat :=
  match a with
  | Arr2 _ => 1
  | Arr3 p => List.length (hd [] (hd [] p))
  end.

(** [a.shape] *)
Definition shape (a : ndarray) : list nat :=
  match a with
  | Arr2 _ => [rows a; cols a]
  | Arr3 _ => [rows a; cols a; chans a]
  end.

(** Every row has the same number of columns, every pixel the same number of
    channels. *)
Definition rectangular (a : ndarray) : Prop :=
  match a with
  | Arr2 p => Forall (fun r => List.length r = cols a) p
  | Arr3 p =>
      Forall (fun r => List.length r = cols a
                       /\ Forall (fun x => List.length x = chans a) r) p
  end.

Definition is_empty (a : ndarray) : bool :=
  ((rows a =? 0) || (cols a =? 0) || (chans a =? 0))%nat.

Inductive interpolation := INTER_LINEAR | INTER_AREA.

(** The shape [cv2.resize] gives its result: the requested height and width,
    the channels of the source; a single channel comes back two-dimensional. *)
Definition resized_shape (a : ndarray) (w h : nat) : list nat :=
  match a with
  | Arr2 _ => [h; w]
  | Arr3 _ => if (chans a =? 1)%nat then [h; w] else [h; w; chans a]
  end.

(** ** Standard output *)

Inductive line :=
| Text (s : string)
| Fmt (s : string) (args : list pyval)    (* an f-string with its values *)
| Err (s : string) (e : exn)              (* an f-string ending in [{e}] *)
| Traceback.                              (* [traceback.print_exc()] *)

(** ** The program state *)

(** Attributes of the [CrosshairOverlay] that hold settings. *)
Inductive attr :=
| size | color | outline_color | thickness | outline_thickness | show_outline
| inner_length | inner_opacity | show_inner
| outer_length | outer_opacity | show_outer
| show_dot | dot_opacity | dot_size.

Definition attr_eq_dec (a b : attr) : {a = b} + {a <> b}.
Proof. decide equality. Defined.

(** The sliders and check boxes of the [SettingsWindow]. *)
Inductive slider :=
| size_slider | thickness_slider
| inner_opacity_slider | outer_opacity_slider | dot_opacity_slider.

Inductive check := outline_check | inner_check | outer_check | dot_check.

Definition slider_eq_dec (a b : slider) : {a = b} + {a <> b}.
Proof. decide equality. Defined.

Definition check_eq_dec (a b : check) : {a = b} + {a <> b}.
Proof. decide equality. Defined.

(** [setMinimum] / [setMaximum] in [init_ui]. *)
Definition slider_min (s : slider) : Z :=
  match s with
  | size_slider => 50
  | thickness_slider => 1
  | inner_opacity_slider | outer_opacity_slider | dot_opacity_slider => 0
  end.

Definition slider_max (s : slider) : Z :=
  match s with
  | size_slider => 200
  | thickness_slider => 10
  | inner_opacity_slider | outer_opacity_slider | dot_opacity_slider => 100
  end.

(** The settings file [crosshair_settings.json]: a document that [json.load]
    reads as the given value, or content on which opening or parsing raises. *)
Inductive file :=
| Json (v : pyval)
| Garbage.

Record World := mkWorld {
  attrs : attr -> pyval;              (* [self.crosshair.<attr>] *)
  crosshair_image : option ndarray;   (* [self.crosshair.crosshair_image] *)
  pixmap : option ndarray;            (* what [self.label] displays *)
  geometry : option (Z * Z);          (* the overlay's size once [resize]d *)
  slider_value : slider -> Z;
  checked : check -> bool;
  code_input : str;                   (* [self.code_input.text()] *)
  settings_file : option file;
  stdout : list line
}.

Definition upd {K V : Type} (eq_dec : forall a b : K, {a = b} + {a <> b})
    (k : K) (v : V) (f : K -> V) : K -> V :=
  fun k' => if eq_dec k' k then v else f k'.

(** ** Computations: state and exceptions

    A raised exception leaves the state as the statements before it made it. *)

Definition M (A : Type) : Type := World -> result A * World.

Definition ret {A} (a : A) : M A := fun w => (Ok a, w).

Definition bind {A B} (m : M A) (k : A -> M B) : M B :=
  fun w =>
    match m w with
    | (Ok a, w') => k a w'
    | (Raise e, w') => (Raise e, w')
    end.

Definition raise {A} (e : exn) : M A := fun w => (Raise e, w).

Definition lift {A} (r : result A) : M A := fun w => (r, w).

(** [try: body  except Exception as e: handler(e)] *)
Definition try_except {A} (body : M A) (handler : exn -> M A) : M A :=
  fun w =>
    match body w with
    | (Ok a, w') => (Ok a, w')
    | (Raise e, w') => handler e w'
    end.

Notation "x <- m ;; k" := (bind m (fun x => k))
  (at level 61, m at next level, right associativity).
Notation "m ;;; k" := (bind m (fun _ => k))
  (at level 61, right associativity).

Definition gets {A} (f : World -> A) : M A := fun w => (Ok (f w), w).

Definition modify (f : World -> World) : M unit := fun w => (Ok tt, f w).

Definition print (l : line) : M unit :=
  modify (fun w => mkWorld (attrs w) (crosshair_image w) (pixmap w) (geometry w)
                     (slider_value w) (checked w) (code_input w)
                     (settings_file w) (stdout w ++ [l])).

Definition get_attr (a : attr) : M pyval := gets (fun w => attrs w a).

Definition set_attr (a : attr) (v : pyval) : M unit :=
  modify (fun w => mkWorld (upd attr_eq_dec a v (attrs w)) (crosshair_image w)
                     (pixmap w) (geometry w) (slider_value w) (checked w)
                     (code_input w) (settings_file w) (stdout w)).

Definition set_crosshair_image (i : option ndarray) : M unit :=
  modify (fun w => mkWorld (attrs w) i (pixmap w) (geometry w)
                     (slider_value w) (checked w) (code_input w)
                     (settings_file w) (stdout w)).

(** [self.label.setPixmap(pixmap)] *)
Definition setPixmap (p : ndarray) : M unit :=
  modify (fun w => mkWorld (attrs w) (crosshair_image w) (Some p) (geometry w)
                     (slider_value w) (checked w) (code_input w)
                     (settings_file w) (stdout w)).

(** [self.resize(w, h)] *)
Definition resize_window (wd ht : Z) : M unit :=
  modify (fun w => mkWorld (attrs w) (crosshair_image w) (pixmap w)
                     (Some (wd, ht)) (slider_value w) (checked w)
                     (code_input w) (settings_file w) (stdout w)).

Definition set_slider (s : slider) (z : Z) : M unit :=
  modify (fun w => mkWorld (attrs w) (crosshair_image w) (pixmap w) (geometry w)
                     (upd slider_eq_dec s z (slider_value w)) (checked w)
                     (code_input w) (settings_file w) (stdout w)).

Definition set_check (c : check) (b : bool) : M unit :=
  modify (fun w => mkWorld (attrs w) (crosshair_image w) (pixmap w) (geometry w)
                     (slider_value w) (upd check_eq_dec c b (checked w))
                     (code_input w) (settings_file w) (stdout w)).

Definition set_code_input (s : str) : M unit :=
  modify (fun w => mkWorld (attrs w) (crosshair_image w) (pixmap w) (geometry w)
                     (slider_value w) (checked w) s (settings_file w) (stdout w)).

Definition set_settings_file (f : option file) : M unit :=
  modify (fun w => mkWorld (attrs w) (crosshair_image w) (pixmap w) (geometry w)
                     (slider_value w) (checked w) (code_input w) f (stdout w)).

(** ** Numeric helpers of the compositing procedure *)

(** [self.size + padding]: the attribute holds whatever was last assigned. *)
Definition py_add_int (v : pyval) (k : Z) : result pyval :=
  match v with
  | PInt z => Ok (PInt (z + k))
  | PBool b => Ok (PInt (Z.b2z b + k))
  | PFloat f => Ok (PFloat (B64.add f (B64.of_Z k)))
  | _ => Raise TypeError
  end.

(** [max(a, b)] with [b] an [int]: [b] when [b > a], otherwise [a]. *)
Definition py_max (a : pyval) (b : Z) : pyval :=
  match a with
  | PInt z => PInt (Z.max z b)
  | PFloat f =>
      match B64.compare_Z b f with
      | Some Gt => PInt b
      | _ => a
      end
  | _ => a
  end.

(** [if img_size % 2 == 0: img_size += 1] *)
Definition odd_up (n : Z) : Z := if n mod 2 =? 0 then n + 1 else n.

Definition float_is_even (f : B64.float) : bool :=
  match f with
  | S754_zero _ => true
  | S754_finite _ m e =>
      let k := 1 - e in
      if k <=? 0 then true else Zpos m mod 2 ^ k =? 0
  | _ => false
  end.

Definition py_odd_up (v : pyval) : pyval :=
  match v with
  | PInt n => PInt (odd_up n)
  | PFloat f => if float_is_even f then PFloat (B64.add f B64.one) else v
  | _ => v
  end.

Definition padding : Z := 32.

(** The canvas dimension for an integer size [S] and an image of height [H]
    (lines 71-74). *)
Definition canvas_size (S H : Z) : Z := odd_up (Z.max (S + padding) (H + padding)).

(** [(img_size - dim) // 2] *)
Definition paste_offset (img_size dim : Z) : Z := (img_size - dim) / 2.

(** A slice bound on an axis of length [n]: negative bounds count from the
    end, and all bounds are clipped to the axis. *)
Definition slice_bound (n i : Z) : Z :=
  if i <? 0 then Z.max 0 (i + n) else Z.min i n.

(** Start and length of [start:stop] on an axis of length [n]. *)
Definition slice_range (n start stop : Z) : Z * Z :=
  let a := slice_bound n start in
  let b := slice_bound n stop in
  (a, Z.max 0 (b - a)).

Definition overwrite {A} (dst : list A) (pos : nat) (src : list A) : list A :=
  firstn pos dst ++ src ++ skipn (pos + List.length src) dst.

Definition paste (dst : list (list (list Z))) (y x : nat)
    (src : list (list (list Z))) : list (list (list Z)) :=
  firstn y dst
  ++ map (fun ds : list (list Z) * list (list Z) => overwrite (fst ds) x (snd ds))
         (combine (firstn (List.length src) (skipn y dst)) src)
  ++ skipn (y + List.length src) dst.

(** [img[y0:y1, x0:x1] = scaled] on a square four-channel canvas.  The value
    must have the shape of the sliced region; a value of which no axis has
    length one is never stretched to fit (the stored image is always three-
    dimensional with four channels, see [convert_to_recommended_resolution]). *)
Definition assign_slice (img : list (list (list Z))) (y0 y1 x0 x1 : Z)
    (scaled : ndarray) : result (list (list (list Z))) :=
  let n := Z.of_nat (List.length img) in
  let '(ys, ylen) := slice_range n y0 y1 in
  let '(xs, xlen) := slice_range n x0 x1 in
  match scaled with
  | Arr3 px =>
      if (ylen =? Z.of_nat (rows scaled)) && (xlen =? Z.of_nat (cols scaled))
         && (chans scaled =? 4)%nat
      then Ok (paste img (Z.to_nat ys) (Z.to_nat xs) px)
      else Raise ValueError
  | Arr2 _ => Raise ValueError
  end.

(** ** The parts of OpenCV the program calls *)

(** [cv2.cvtColor(image, cv2.COLOR_GRAY2BGRA)] *)
Definition cvtColor_GRAY2BGRA (a : ndarray) : result ndarray :=
  match a with
  | Arr2 p =>
      if is_empty a then Raise cv2_error
      else Ok (Arr3 (map (map (fun g => [g; g; g; 255])) p))
  | Arr3 _ => Raise cv2_error
  end.

(** [cv2.cvtColor(image, cv2.COLOR_BGR2BGRA)] *)
Definition cvtColor_BGR2BGRA (a : ndarray) : result ndarray :=
  match a with
  | Arr3 p =>
      if is_empty a || negb (chans a =? 3)%nat then Raise cv2_error
      else Ok (Arr3 (map (map (fun x => x ++ [255])) p))
  | Arr2 _ => Raise cv2_error
  end.

(** One byte through [cv2.convertScaleAbs(_, alpha=1.5, beta=30)]:
    [|1.5 x + 30|] rounded to nearest, ties to even, saturated at 255. *)
Definition convertScaleAbs_byte (x : Z) : Z :=
  let t := Z.abs (3 * x + 60) in
  let q := t / 2 in
  let r := if (t mod 2 =? 0) || Z.even q then q else q + 1 in
  Z.min 255 r.

Definition convertScaleAbs (a : ndarray) : result ndarray :=
  if is_empty a then Raise cv2_error
  else Ok match a with
          | Arr2 p => Arr2 (map (map convertScaleAbs_byte) p)
          | Arr3 p => Arr3 (map (map (map convertScaleAbs_byte)) p)
          end.

(** [a[:, :, :k]] *)
Definition take_channels (k : nat) (a : ndarray) : result ndarray :=
  match a with
  | Arr3 p => Ok (Arr3 (map (map (firstn k)) p))
  | Arr2 _ => Raise IndexError
  end.

(** [a[:, :, k]] *)
Definition channel (k : nat) (a : ndarray) : result ndarray :=
  match a with
  | Arr3 p =>
      if (k <? chans a)%nat then Ok (Arr2 (map (map (fun x => nth k x 0)) p))
      else Raise IndexError
  | Arr2 _ => Raise IndexError
  end.

Definition zip4 {A B} (f : A -> A -> A -> A -> B) (a b c d : list A) : list B :=
  map (fun t : A * A * A * A => let '(x, y, z, u) := t in f x y z u)
      (combine (combine (combine a b) c) d).

Definition shape_eqb (s t : list nat) : bool :=
  if list_eq_dec Nat.eq_dec s t then true else false.

(** [cv2.merge([b, g, r, a])] on three 8-bit planes and a fourth plane with
    its element type: the planes must have one size and one element type. *)
Definition merge4 (b g r : ndarray) (a : picture) : result ndarray :=
  match dtype_of a with
  | uint16 => Raise cv2_error
  | uint8 =>
      match b, g, r, array_of a with
      | Arr2 pb, Arr2 pg, Arr2 pr, Arr2 pa =>
          if is_empty b
             || negb (shape_eqb (shape g) (shape b)
                      && shape_eqb (shape r) (shape b)
                      && shape_eqb (shape a) (shape b))
          then Raise cv2_error
          else Ok (Arr3 (zip4 (zip4 (fun x y z u => [x; y; z; u])) pb pg pr pa))
      | _, _, _, _ => Raise cv2_error
      end
  end.

Definition target_size : nat := 64.

(** What the embedding takes from outside the program.

    [cv2.resize]: the interpolated pixel values are OpenCV's own; the program
    depends on the shape of the result only, so the function is an interface
    of which the embedding takes an implementation.

    [np_allocates bytes]: whether the machine has the memory when [np.zeros]
    asks for an array of that many bytes. *)
Class OpenCV := {
  cv2_resize : ndarray -> nat -> nat -> interpolation -> ndarray;
  np_allocates : Z -> bool
}.

(** An array of at most this many bytes is taken to be allocated on every
    machine; the canvases for the sizes of the slider's range take at most
    [4 * 233 * 233 = 217156]. *)
Definition small_alloc : Z := 2 ^ 20.

Section Program.

Context {cv : OpenCV}.

(** [np.zeros((n, n, 4), dtype=np.uint8)]: numpy refuses a byte count of
    [2^63] or more with [ValueError]; below that [np.zeros] raises
    [MemoryError] when the machine has no memory for the array. *)
Definition np_zeros (v : pyval) : result (list (list (list Z))) :=
  match v with
  | PInt n =>
      if (n <? 0) || (2 ^ 63 <=? 4 * n * n) then Raise ValueError
      else if (4 * n * n <=? small_alloc) || np_allocates (4 * n * n)
           then Ok (repeat (repeat [0; 0; 0; 0] (Z.to_nat n)) (Z.to_nat n))
           else Raise MemoryError
  | _ => Raise TypeError
  end.

(** [cv2.resize(a, (w, h), interpolation=i)] *)
Definition resize (a : ndarray) (w h : nat) (i : interpolation) : result ndarray :=
  if is_empty a || (w =? 0)%nat || (h =? 0)%nat then Raise cv2_error
  else Ok (cv2_resize a w h i).

(** *** [CrosshairOverlay] *)

Definition shape_val (a : ndarray) : pyval :=
  PTuple (map (fun n => PInt (Z.of_nat n)) (shape a)).

Definition update_crosshair : M unit :=
  try_except
    (print (Text "Starting update_crosshair") ;;;
     image <- gets crosshair_image ;;
     match image with
     | Some image =>
         print (Fmt "Crosshair image shape: " [shape_val image]) ;;;
         sz <- get_attr size ;;
         a <- lift (py_add_int sz padding) ;;
         let img_size :=
           py_odd_up (py_max a (Z.of_nat (rows image) + padding)) in
         lift (py_format img_size) ;;;
         print (Fmt "Creating image of size: " [img_size; img_size]) ;;;
         img <- lift (np_zeros img_size) ;;
         let n := Z.of_nat (List.length img) in
         let y_offset := paste_offset n (Z.of_nat (rows image)) in
         let x_offset := paste_offset n (Z.of_nat (cols image)) in
         print (Fmt "Offsets: " [PInt x_offset; PInt y_offset]) ;;;
         let scale_factor := 2%nat in
         scaled_image <- lift (resize image (cols image * scale_factor)
                                 (rows image * scale_factor) INTER_LINEAR) ;;
         let y_offset := paste_offset n (Z.of_nat (rows scaled_image)) in
         let x_offset := paste_offset n (Z.of_nat (cols scaled_image)) in
         img <- lift (assign_slice img
                        y_offset (y_offset + Z.of_nat (rows scaled_image))
                        x_offset (x_offset + Z.of_nat (cols scaled_image))
                        scaled_image) ;;
         print (Text "Created QPixmap") ;;;
         setPixmap (Arr3 img) ;;;
         resize_window n n ;;;
         print (Text "Crosshair updated successfully")
     | None => print (Text "No crosshair image loaded")
     end)
    (fun e =>
       print (Err "Error in update_crosshair: " e) ;;;
       print Traceback).

(** [center_on_screen] moves the window and restarts the re-centering
    timer; the window position and the timer are outside the modelled
    state, which it leaves as it is. *)
Definition center_on_screen : M unit := ret tt.

Definition convert_to_recommended_resolution (image : picture)
    : M (option ndarray) :=
  (* the element type stays what it is through [cvtColor], [resize] and
     slicing; [convertScaleAbs] returns 8-bit planes *)
  let element_type := dtype_of image in
  let image := array_of image in
  try_except
    (print (Text "Starting image conversion") ;;;
     image <-
       match image with
       | Arr2 _ =>
           print (Text "Converting grayscale to BGRA") ;;;
           lift (cvtColor_GRAY2BGRA image)
       | Arr3 _ =>
           if (chans image =? 3)%nat then
             print (Text "Converting BGR to BGRA") ;;;
             lift (cvtColor_BGR2BGRA image)
           else ret image
       end ;;
     print (Fmt "Image shape before resize: " [shape_val image]) ;;;
     image <- lift (resize image target_size target_size INTER_AREA) ;;
     color_channels <- lift (take_channels 3 image) ;;
     alpha_channel <- lift (channel 3 image) ;;
     color_channels <- lift (convertScaleAbs color_channels) ;;
     c0 <- lift (channel 0 color_channels) ;;
     c1 <- lift (channel 1 color_channels) ;;
     c2 <- lift (channel 2 color_channels) ;;
     image <- lift (merge4 c0 c1 c2 (Picture element_type alpha_channel)) ;;
     print (Fmt "Image shape after resize: " [shape_val image]) ;;;
     ret (Some image))
    (fun e =>
       print (Err "Error in convert_to_recommended_resolution: " e) ;;;
       print Traceback ;;;
       ret None).

(** *** Qt widgets

    PyQt6 converts an [int] argument through a range-checked C [int] and a
    [bool] argument through the same conversion, an overflow counting as
    true.  [QAbstractSlider.setValue] bounds the value to the slider's
    range and emits [valueChanged] when the bounded value differs from the
    current one; [QCheckBox.setChecked] emits [stateChanged] when the state
    changes.  Connected slots run synchronously, in connection order. *)

Definition to_c_int (v : pyval) : result Z :=
  match v with
  | PInt z =>
      if (- 2 ^ 31 <=? z) && (z <? 2 ^ 31) then Ok z else Raise OverflowError
  | PBool b => Ok (Z.b2z b)
  | _ => Raise TypeError
  end.

Definition to_c_bool (v : pyval) : result bool :=
  match v with
  | PBool b => Ok b
  | PInt z => Ok (negb (z =? 0))
  | _ => Raise TypeError
  end.

Definition bound (s : slider) (z : Z) : Z :=
  Z.max (slider_min s) (Z.min (slider_max s) z).

(** *** [SettingsWindow]: the slots

    The value labels ([size_value] and the like) only display text; no
    method reads them back, and they are left out of the state. *)

Definition update_size (value : Z) : M unit :=
  set_attr size (PInt value) ;;;
  update_crosshair ;;;
  center_on_screen.

Definition update_thickness (value : Z) : M unit :=
  set_attr thickness (PInt value) ;;;
  update_crosshair.

(** [bool(state)] of a check state (0 unchecked, 2 checked). *)
Definition update_outline (state : Z) : M unit :=
  set_attr show_outline (PBool (negb (state =? 0))) ;;;
  update_crosshair.

Definition update_inner_visibility (state : Z) : M unit :=
  set_attr show_inner (PBool (negb (state =? 0))) ;;;
  update_crosshair.

Definition update_outer_visibility (state : Z) : M unit :=
  set_attr show_outer (PBool (negb (state =? 0))) ;;;
  update_crosshair.

Definition update_dot_visibility (state : Z) : M unit :=
  set_attr show_dot (PBool (negb (state =? 0))) ;;;
  update_crosshair.

Definition update_opacity (element : str) (value : B64.float) : M unit :=
  (if str_eqb element (lit "inner") then set_attr inner_opacity (PFloat value)
   else if str_eqb element (lit "outer") then set_attr outer_opacity (PFloat value)
   else if str_eqb element (lit "dot") then set_attr dot_opacity (PFloat value)
   else ret tt) ;;;
  update_crosshair.

(** [lambda v: self.update_opacity(element, v/100)] *)
Definition opacity_slot (element : str) (v : Z) : M unit :=
  f <- lift (py_truediv v 100) ;;
  update_opacity element f.

(** Every slot is connected twice in [init_ui], so it runs twice. *)
Definition valueChanged (s : slider) (v : Z) : M unit :=
  let slot :=
    match s with
    | size_slider => update_size v
    | thickness_slider => update_thickness v
    | inner_opacity_slider => opacity_slot (lit "inner") v
    | outer_opacity_slider => opacity_slot (lit "outer") v
    | dot_opacity_slider => opacity_slot (lit "dot") v
    end in
  slot ;;; slot.

Definition stateChanged (c : check) (state : Z) : M unit :=
  let slot :=
    match c with
    | outline_check => update_outline state
    | inner_check => update_inner_visibility state
    | outer_check => update_outer_visibility state
    | dot_check => update_dot_visibility state
    end in
  slot ;;; slot.

Definition setValue (s : slider) (v : pyval) : M unit :=
  z <- lift (to_c_int v) ;;
  let z := bound s z in
  cur <- gets (fun w => slider_value w s) ;;
  if z =? cur then ret tt
  else set_slider s z ;;; valueChanged s z.

Definition setChecked (c : check) (v : pyval) : M unit :=
  b <- lift (to_c_bool v) ;;
  cur <- gets (fun w => checked w c) ;;
  if Bool.eqb b cur then ret tt
  else set_check c b ;;; stateChanged c (if b then 2 else 0).

Definition choose_color (picked : option (Z * Z * Z)) : M unit :=
  match picked with
  | Some (r, g, b) =>
      set_attr color (PTuple [PInt r; PInt g; PInt b]) ;;;
      update_crosshair
  | None => ret tt
  end.

Definition choose_outline_color (picked : option (Z * Z * Z)) : M unit :=
  match picked with
  | Some (r, g, b) =>
      set_attr outline_color (PTuple [PInt r; PInt g; PInt b]) ;;;
      update_crosshair
  | None => ret tt
  end.

(** *** The crosshair-code decoder *)

(** [match.group(k)] *)
Definition group (g : list str) (k : nat) : str := nth (k - 1) g [].

Definition parse_valorant_code : M unit :=
  code <- gets code_input ;;
  match code with
  | [] => ret tt
  | _ :: _ =>
      try_except
        (match re_search code with
         | Some g =>
             outline_enabled <- lift (py_int_of_digits (group g 1)) ;;
             inner_length_ <- lift (py_int_of_digits (group g 2)) ;;
             outer_length_ <- lift (py_int_of_digits (group g 3)) ;;
             inner_opacity_ <- lift (py_int_of_digits (group g 4)) ;;
             inner_offset <- lift (py_int_of_digits (group g 5)) ;;
             outline_thickness_ <- lift (py_int_of_digits (group g 6)) ;;
             outer_opacity_ <- lift (py_int_of_digits (group g 7)) ;;
             outer_opacity_mult <- lift (py_int_of_digits (group g 8)) ;;
             set_attr show_outline (PBool (negb (outline_enabled =? 0))) ;;;
             set_attr inner_length (PInt (inner_length_ * 2)) ;;;
             set_attr outer_length (PInt (outer_length_ * 2)) ;;;
             f <- lift (py_truediv inner_opacity_ 100) ;;
             set_attr inner_opacity (PFloat f) ;;;
             set_attr outline_thickness (PInt outline_thickness_) ;;;
             f <- lift (py_truediv (outer_opacity_ * outer_opacity_mult) 100) ;;
             set_attr outer_opacity (PFloat f) ;;;
             v <- get_attr show_outline ;;
             setChecked outline_check v ;;;
             setValue inner_opacity_slider (PInt inner_opacity_) ;;;
             setValue outer_opacity_slider
               (PInt (outer_opacity_ * outer_opacity_mult)) ;;;
             update_crosshair ;;;
             print (Text "Valorant crosshair code applied successfully!")
         | None => print (Text "Invalid Valorant crosshair code format")
         end)
        (fun e => print (Err "Error parsing crosshair code: " e))
  end.

(** [picked]: [None] when the file dialog is cancelled, [Some None] when
    [cv2.imread] returns [None], otherwise the image read. *)
Definition load_crosshair_image (picked : option (option picture)) : M unit :=
  match picked with
  | None => ret tt
  | Some read =>
      try_except
        (print (Text "Loading image from: ") ;;;
         match read with
         | None => print (Text "Failed to load image")
         | Some image =>
             print (Fmt "Original image shape: " [shape_val image]) ;;;
             converted_image <- convert_to_recommended_resolution image ;;
             match converted_image with
             | None => print (Text "Failed to convert image")
             | Some converted =>
                 print (Fmt "Converted image shape: " [shape_val converted]) ;;;
                 set_crosshair_image (Some converted) ;;;
                 print (Text "Image stored in crosshair object") ;;;
                 update_crosshair ;;;
                 print (Text "Update crosshair called") ;;;
                 center_on_screen ;;;
                 print (Text "Centered on screen")
             end
         end)
        (fun e =>
           print (Err "Error in load_crosshair_image: " e) ;;;
           print Traceback)
  end.

(** *** Saving and loading *)

Definition settings_of (w : World) : pyval :=
  PDict
    [ (lit "size", attrs w size);
      (lit "color", attrs w color);
      (lit "outline_color", attrs w outline_color);
      (lit "thickness", attrs w thickness);
      (lit "outline_thickness", attrs w outline_thickness);
      (lit "show_outline", attrs w show_outline);
      (lit "inner_length", attrs w inner_length);
      (lit "inner_opacity", attrs w inner_opacity);
      (lit "show_inner", attrs w show_inner);
      (lit "outer_length", attrs w outer_length);
      (lit "outer_opacity", attrs w outer_opacity);
      (lit "show_outer", attrs w show_outer);
      (lit "show_dot", attrs w show_dot);
      (lit "dot_opacity", attrs w dot_opacity);
      (lit "dot_size", attrs w dot_size) ].

(** Opening the file for writing is taken to succeed.  A value [json.dump]
    cannot print leaves a truncated document behind. *)
Definition save_settings : M unit :=
  settings <- gets settings_of ;;
  try_except
    (if json_dumpable settings then
       set_settings_file (Some (Json (json_image settings))) ;;;
       print (Text "Settings saved successfully!")
     else
       set_settings_file (Some Garbage) ;;;
       raise ValueError)
    (fun e => print (Err "Error saving settings: " e)).

(** [int(v * 100)] *)
Definition py_int_times_100 (v : pyval) : result Z :=
  match v with
  | PFloat f => py_int_of_float (B64.mul f (B64.of_Z 100))
  | PInt z => Ok (z * 100)
  | PBool b => Ok (Z.b2z b * 100)
  | PStr s => py_int_of_str (List.concat (repeat s 100))
  | PNone | PList _ | PTuple _ | PDict _ => Raise TypeError
  end.

(** [self.crosshair.<a> = settings.get(key, default)] *)
Definition load_attr (settings : pyval) (a : attr) (key : string)
    (default : pyval) : M unit :=
  v <- lift (py_get settings (lit key) default) ;;
  set_attr a v.

Definition load_settings : M unit :=
  f <- gets settings_file ;;
  match f with
  | None => ret tt
  | Some f =>
      try_except
        (settings <- lift match f with
                          | Json v => Ok v
                          | Garbage => Raise JSONDecodeError
                          end ;;
         load_attr settings size "size" (PInt 100) ;;;
         v <- lift (py_get settings (lit "color")
                      (PTuple [PInt 0; PInt 255; PInt 0])) ;;
         t <- lift (py_tuple v) ;;
         set_attr color t ;;;
         load_attr settings thickness "thickness" (PInt 2) ;;;
         load_attr settings outline_thickness "outline_thickness" (PInt 1) ;;;
         load_attr settings show_outline "show_outline" (PBool false) ;;;
         load_attr settings inner_length "inner_length" (PInt 4) ;;;
         load_attr settings inner_opacity "inner_opacity" (PFloat B64.one) ;;;
         load_attr settings show_inner "show_inner" (PBool true) ;;;
         load_attr settings outer_length "outer_length" (PInt 0) ;;;
         load_attr settings outer_opacity "outer_opacity" (PFloat B64.one) ;;;
         load_attr settings show_outer "show_outer" (PBool true) ;;;
         load_attr settings show_dot "show_dot" (PBool false) ;;;
         load_attr settings dot_opacity "dot_opacity" (PFloat B64.one) ;;;
         load_attr settings dot_size "dot_size" (PInt 2) ;;;
         v <- get_attr size ;;
         setValue size_slider v ;;;
         v <- get_attr thickness ;;
         setValue thickness_slider v ;;;
         v <- get_attr inner_opacity ;;
         n <- lift (py_int_times_100 v) ;;
         setValue inner_opacity_slider (PInt n) ;;;
         v <- get_attr outer_opacity ;;
         n <- lift (py_int_times_100 v) ;;
         setValue outer_opacity_slider (PInt n) ;;;
         v <- get_attr show_outline ;;
         setChecked outline_check v ;;;
         v <- get_attr show_inner ;;
         setChecked inner_check v ;;;
         v <- get_attr show_outer ;;
         setChecked outer_check v ;;;
         v <- get_attr show_dot ;;
         setChecked dot_check v ;;;
         update_crosshair ;;;
         print (Text "Settings loaded successfully!"))
        (fun e => print (Err "Error loading settings: " e))
  end.

(** *** Construction and the event loop *)

Definition default_attrs (a : attr) : pyval :=
  match a with
  | size => PInt 100
  | color => PTuple [PInt 0; PInt 255; PInt 0]
  | outline_color => PTuple [PInt 0; PInt 0; PInt 0]
  | thickness => PInt 2
  | outline_thickness => PInt 1
  | show_outline => PBool false
  | inner_length => PInt 4
  | inner_opacity => PFloat B64.one
  | show_inner => PBool true
  | outer_length => PInt 0
  | outer_opacity => PFloat B64.one
  | show_outer => PBool true
  | show_dot => PBool false
  | dot_opacity => PFloat B64.one
  | dot_size => PInt 2
  end.

Definition initial_slider (s : slider) : Z :=
  match s with
  | size_slider => 100
  | thickness_slider => 2
  | inner_opacity_slider | outer_opacity_slider | dot_opacity_slider => 100
  end.

Definition initial_check (c : check) : bool :=
  match c with
  | outline_check | dot_check => false
  | inner_check | outer_check => true
  end.

(** The state once [init_ui] has built the widgets and the overlay's
    attributes have their defaults; [f] is the settings file found. *)
Definition init_world (f : option file) : World :=
  mkWorld default_attrs None None None initial_slider initial_check [] f [].

(** The rest of [CrosshairOverlay.__init__] and [SettingsWindow.__init__]. *)
Definition startup : M unit :=
  update_crosshair ;;;
  center_on_screen ;;;
  load_settings.

(** What the user and the environment can do between two returns to the
    event loop. *)
Inductive event :=
| MoveSlider (s : slider) (v : Z)
| Click (c : check)
| EnterCode (text : str)
| ChooseColor (picked : option (Z * Z * Z))
| ChooseOutlineColor (picked : option (Z * Z * Z))
| LoadImage (picked : option (option picture))
| SaveCrosshair
| LoadCrosshair
| ReplaceFile (f : option file).

Definition byte (z : Z) : Z := Z.max 0 (Z.min 255 z).

Definition byte3 (p : option (Z * Z * Z)) : option (Z * Z * Z) :=
  match p with
  | Some (r, g, b) => Some (byte r, byte g, byte b)
  | None => None
  end.

Definition handle (e : event) : M unit :=
  match e with
  | MoveSlider s v => setValue s (PInt (bound s v))
  | Click c =>
      cur <- gets (fun w => checked w c) ;;
      setChecked c (PBool (negb cur))
  | EnterCode text => set_code_input text ;;; parse_valorant_code
  | ChooseColor p => choose_color (byte3 p)
  | ChooseOutlineColor p => choose_outline_color (byte3 p)
  | LoadImage p => load_crosshair_image p
  | SaveCrosshair => save_settings
  | LoadCrosshair => load_settings
  | ReplaceFile f => set_settings_file f
  end.

Definition exec (m : M unit) (w : World) : World := snd (m w).

Fixpoint run (es : list event) (w : World) : World :=
  match es with
  | [] => w
  | e :: es' => run es' (exec (handle e) w)
  end.

(** The states the program can be in when it waits for an event. *)
Definition reachable (w : World) : Prop :=
  exists f es, w = run es (exec startup (init_world f)).

End Program.

(** A resize by nearest-neighbour sampling: an instance of the contract
    [cv2_resize_shape], on which the program can be run. *)
Definition sample {A} (d : A) (l : list A) (k : nat) : list A :=
  map (fun i => nth (i * List.length l / k) l d) (seq 0 k).

Definition nearest (a : ndarray) (w h : nat) (_ : interpolation) : ndarray :=
  match a with
  | Arr2 p => Arr2 (map (fun r => sample 0 r w) (sample [] p h))
  | Arr3 p =>
      if (chans a =? 1)%nat
      then Arr2 (map (fun r => map (fun x => nth 0 x 0) (sample [] r w))
                     (sample [] p h))
      else Arr3 (map (fun r => sample [] r w) (sample [] p h))
  end.

(** The sampling resize on a machine with memory for every array numpy
    accepts. *)
Definition nearest_cv : OpenCV :=
  {| cv2_resize := nearest; np_allocates := fun _ => true |}.

(** ** Runs of the program on the sampling instance *)

(** The program once started, with no settings file. *)
Definition started : World := exec (@startup nearest_cv) (init_world None).

Definition run_from_start (es : list event) : World := @run nearest_cv es started.

(** The fragment of the specification's example. *)
Definition w_sample : World := exec (set_code_input sample_code) started.

(** An inner opacity percentage above 100, entered with the inner opacity
    slider at 50. *)
Definition code_150 : str :=
  lit "0;P;0t;1;0l;4;0o;2;0a;150;0f;0;1t;3;1o;50;1a;2".

Definition w_150 : World :=
  run_from_start [MoveSlider inner_opacity_slider 50; EnterCode code_150].



(** A text the pattern does not match. *)
Definition w_hello : World := exec (set_code_input (lit "hello")) started.

(** The inner opacity slider moved to 29, then save and load. *)
Definition w_29 : World := run_from_start [MoveSlider inner_opacity_slider 29].

Definition w_29_reloaded : World :=
  @run nearest_cv [SaveCrosshair; LoadCrosshair] w_29.

(** An outline colour chosen and saved, then the program started again on
    the file written. *)
Definition w_red : World :=
  run_from_start [ChooseOutlineColor (Some (255, 0, 0)); SaveCrosshair].

Definition w_red_restarted : World :=
  exec (@startup nearest_cv) (init_world (settings_file w_red)).

(** A settings file whose [color] is a number. *)
Definition bad_color : file :=
  Json (PDict [(lit "size", PInt 150); (lit "color", PInt 7)]).

Definition w_bad_color : World := run_from_start [ReplaceFile (Some bad_color)].

(** A 64x64 four-channel image, opaque green, as the stored image, with the
    size slider's minimum as the size. *)
Definition solid : ndarray := Arr3 (repeat (repeat [0; 255; 0; 255] 64) 64).

Definition w_small : World :=
  mkWorld (upd attr_eq_dec size (PInt 50) default_attrs) (Some solid) None None
    (upd slider_eq_dec size_slider 50 initial_slider) initial_check [] None [].

(** A 7x5 three-channel image and what the normalizer makes of it. *)
Definition img_7x5 : ndarray := Arr3 (repeat (repeat [10; 20; 31] 5) 7).

Definition normalized_7x5 : ndarray :=
  match fst (@convert_to_recommended_resolution nearest_cv (Picture uint8 img_7x5) started) with
  | Ok (Some out) => out
  | _ => Arr2 []
  end.

(** The pattern as the head, the lazy skip and a chain of key/number fields. *)
Fixpoint fields_re (k : str) (ks : list str) : Re.regex :=
  match ks with
  | [] => Re.Seq (Re.Lit k) num
  | k' :: ks' => Re.Seq (Re.Lit k) (Re.Seq num (fields_re k' ks'))
  end.

(** What the program depends on in [cv2.resize]: on a non-empty array and a
    positive size it returns an array of the requested size. *)
Definition resize_contract (cv : OpenCV) : Prop :=
  forall a w h i,
    rectangular a -> is_empty a = false -> (0 < w)%nat -> (0 < h)%nat ->
    rectangular (cv2_resize a w h i)
    /\ shape (cv2_resize a w h i) = resized_shape a w h.

(** ** Notions used in the statements and proofs *)

Definition all_digits (d : str) : Prop := Forall (fun c => is_digit c = true) d.

(** A string that does not start with a digit. *)
Definition no_digit_first (s : str) : Prop :=
  match s with
  | [] => True
  | c :: _ => is_digit c = false
  end.

Definition sep_first (k : str) : Prop :=
  exists c rest, k = c :: rest /\ is_digit c = false.

Definition no_newline (s : str) : Prop := Forall (fun c => c <> newline) s.

(** [wp m Q w]: running [m] from [w] ends in a result and a state that
    satisfy [Q]. *)
Definition wp {A} (m : M A) (Q : result A -> World -> Prop) (w : World) : Prop :=
  Q (fst (m w)) (snd (m w)).

(** The two states differ at most in the displayed pixmap, the window size
    and the printed lines. *)
Definition same_but_display (w w' : World) : Prop :=
  attrs w' = attrs w
  /\ crosshair_image w' = crosshair_image w
  /\ slider_value w' = slider_value w
  /\ checked w' = checked w
  /\ code_input w' = code_input w
  /\ settings_file w' = settings_file w.

(** [w] with one more line printed. *)
Definition printed (l : line) (w : World) : World :=
  mkWorld (attrs w) (crosshair_image w) (pixmap w) (geometry w)
    (slider_value w) (checked w) (code_input w) (settings_file w)
    (stdout w ++ [l]).

(** The attribute a slider's slot assigns, and the value it assigns for
    the slider value [z]. *)
Definition slider_attr (s : slider) : attr :=
  match s with
  | size_slider => size
  | thickness_slider => thickness
  | inner_opacity_slider => inner_opacity
  | outer_opacity_slider => outer_opacity
  | dot_opacity_slider => dot_opacity
  end.

Definition slider_store (s : slider) (z : Z) : pyval :=
  match s with
  | size_slider | thickness_slider => PInt z
  | _ => PFloat (B64.div_Z z 100)
  end.

Definition check_attr (c : check) : attr :=
  match c with
  | outline_check => show_outline
  | inner_check => show_inner
  | outer_check => show_outer
  | dot_check => show_dot
  end.

Definition percent_ok (n : nat) : bool :=
  B64.is_finite (B64.div_Z (Z.of_nat n) 100)
  && B64.in_unit (B64.div_Z (Z.of_nat n) 100).

(** A state reached from [w] by assignments to the attribute [a] only,
    each of the value [v], and by changes to widgets and display. *)
Definition assigned (a : attr) (v : pyval) (w w' : World) : Prop :=
  (forall a', attrs w' a' = attrs w a')
  \/ (forall a', attrs w' a' = upd attr_eq_dec a v (attrs w) a').

(** The number captured by group [k]. *)
Definition number (g : list str) (k : nat) : Z := digits_value (group g k).

(** The six assignments of lines 493-498 to the captured groups [g]. *)
Definition decoded (g : list str) (f : attr -> pyval) : attr -> pyval :=
  upd attr_eq_dec outer_opacity (PFloat (B64.div_Z (number g 7 * number g 8) 100))
    (upd attr_eq_dec outline_thickness (PInt (number g 6))
       (upd attr_eq_dec inner_opacity (PFloat (B64.div_Z (number g 4) 100))
          (upd attr_eq_dec outer_length (PInt (number g 3 * 2))
             (upd attr_eq_dec inner_length (PInt (number g 2 * 2))
                (upd attr_eq_dec show_outline
                   (PBool (negb (number g 1 =? 0))) f))))).

(** No group is longer than [int()] accepts. *)
Definition all_short (g : list str) : bool :=
  forallb (fun d => negb (int_max_str_digits <? List.length d)%nat) g.



(** Channel [k] of every pixel; a two-dimensional array is its one plane. *)
Definition plane (k : nat) (a : ndarray) : list (list Z) :=
  match a with
  | Arr2 p => p
  | Arr3 p => map (map (fun x => nth k x 0)) p
  end.

(** The array the normalizer resizes: the input with an opaque alpha channel
    added when it is grey or has three channels (lines 149-154). *)
Definition to_bgra (image : ndarray) : ndarray :=
  match image with
  | Arr2 p => Arr3 (map (map (fun g => [g; g; g; 255])) p)
  | Arr3 p =>
      if (chans image =? 3)%nat then Arr3 (map (map (fun x => x ++ [255])) p)
      else image
  end.

(** The pixel the normalizer builds from a resized pixel (lines 163-173). *)
Definition boosted_pixel (x : list Z) : list Z :=
  [ nth 0 (map convertScaleAbs_byte (firstn 3 x)) 0;
    nth 1 (map convertScaleAbs_byte (firstn 3 x)) 0;
    nth 2 (map convertScaleAbs_byte (firstn 3 x)) 0;
    nth 3 x 0 ].

(** [out] is a 64x64 four-channel bitmap whose alpha plane is that of
    [resized] and whose colour planes are those of [resized], boosted. *)
Definition normalized (resized out : ndarray) : Prop :=
  shape out = [64; 64; 4]%nat
  /\ rectangular out
  /\ plane 3 out = plane 3 resized
  /\ forall k, (k < 3)%nat ->
       plane k out = map (map convertScaleAbs_byte) (plane k resized).

(** The two states differ at most in the printed lines. *)
Definition only_printed (w w' : World) : Prop :=
  same_but_display w w' /\ pixmap w' = pixmap w /\ geometry w' = geometry w.

Definition last_printed (w : World) : line := last (stdout w) Traceback.

(** ** Notions for the rest of the program *)

(** What lines 71-99 of [update_crosshair] make of [size] and the stored
    image: the canvas dimension and the canvas with the scaled image
    pasted in, or the exception of the step that raises. *)
Definition composed {cv : OpenCV} (sz : pyval) (image : ndarray)
    : result (Z * list (list (list Z))) :=
  match py_add_int sz padding with
  | Raise e => Raise e
  | Ok a =>
      let img_size := py_odd_up (py_max a (Z.of_nat (rows image) + padding)) in
      match py_format img_size with
      | Raise e => Raise e
      | Ok _ =>
          match np_zeros img_size with
          | Raise e => Raise e
          | Ok img =>
              let n := Z.of_nat (List.length img) in
              match resize image (cols image * 2) (rows image * 2)
                      INTER_LINEAR with
              | Raise e => Raise e
              | Ok scaled =>
                  let y := paste_offset n (Z.of_nat (rows scaled)) in
                  let x := paste_offset n (Z.of_nat (cols scaled)) in
                  match assign_slice img y (y + Z.of_nat (rows scaled))
                          x (x + Z.of_nat (cols scaled)) scaled with
                  | Raise e => Raise e
                  | Ok img' => Ok (n, img')
                  end
              end
          end
      end
  end.

(** What the overlay shows: the pixmap and the window size. *)
Definition displayed (w : World) : option ndarray * option (Z * Z) :=
  (pixmap w, geometry w).

(** What the overlay shows after [update_crosshair]. *)
Definition rendering {cv : OpenCV} (w : World) : option ndarray * option (Z * Z) :=
  match crosshair_image w with
  | Some image =>
      match composed (attrs w size) image with
      | Ok (n, img) => (Some (Arr3 img), Some (n, n))
      | Raise _ => displayed w
      end
  | None => displayed w
  end.

(** [keeps R m]: running [m] takes every state to one related to it by [R]. *)
Definition keeps (R : World -> World -> Prop) {A} (m : M A) : Prop :=
  forall w, R w (snd (m w)).

Definition in_range (s : slider) (z : Z) : Prop :=
  slider_min s <= z <= slider_max s.

(** [w'] differs from [w] at most in the attributes [As], the sliders [Ss]
    (each left alone or set within its range), the check boxes [Cs], the
    display and the printed lines. *)
Definition touches (As : list attr) (Ss : list slider) (Cs : list check)
    (w w' : World) : Prop :=
  (forall a, ~ In a As -> attrs w' a = attrs w a)
  /\ (forall s, ~ In s Ss -> slider_value w' s = slider_value w s)
  /\ (forall s, slider_value w' s = slider_value w s
                \/ in_range s (slider_value w' s))
  /\ (forall c, ~ In c Cs -> checked w' c = checked w c)
  /\ crosshair_image w' = crosshair_image w
  /\ code_input w' = code_input w
  /\ settings_file w' = settings_file w.

(** A relation between states that the program's steps compose: printing
    and rendering keep it, and so do assignments to the attributes [As],
    to the sliders [Ss] within their ranges and to the check boxes [Cs]. *)
Record respects {cv : OpenCV} (R : World -> World -> Prop)
    (As : attr -> Prop) (Ss : slider -> Prop) (Cs : check -> Prop) : Prop := {
  r_refl : forall w, R w w;
  r_trans : forall w1 w2 w3, R w1 w2 -> R w2 w3 -> R w1 w3;
  r_print : forall l, keeps R (print l);
  r_render : keeps R update_crosshair;
  r_attr : forall a v, As a -> keeps R (set_attr a v);
  r_slider : forall s z, Ss s -> in_range s z -> keeps R (set_slider s z);
  r_check : forall c b, Cs c -> keeps R (set_check c b)
}.

Definition sliders_in_range (w : World) : Prop :=
  forall s, in_range s (slider_value w s).

(** The pixel in row [i], column [j]. *)
Definition pixel (a : ndarray) (i j : nat) : list Z :=
  match a with
  | Arr2 p => [nth j (nth i p []) 0]
  | Arr3 p => nth j (nth i p []) []
  end.

(** [h] rows of [w] pixels of [c] channels. *)
Definition grid (h w c : nat) (p : list (list (list Z))) : Prop :=
  List.length p = h
  /\ Forall (fun r => List.length r = w
                      /\ Forall (fun x => List.length x = c) r) p.

(** The stored image, when there is one, is a 64x64 bitmap of four
    channels. *)
Definition image_ok (w : World) : Prop :=
  match crosshair_image w with
  | None => True
  | Some a => rectangular a /\ shape a = [64; 64; 4]%nat
  end.

(** Nothing is displayed and the window was never resized, or the pixmap is
    a square canvas of odd side, at least 129, with four channels, and the
    window has its size. *)
Definition display_ok (w : World) : Prop :=
  match pixmap w, geometry w with
  | None, None => True
  | Some a, Some (wd, ht) =>
      ht = wd /\ Z.odd wd = true /\ 129 <= wd /\ rectangular a
      /\ shape a = [Z.to_nat wd; Z.to_nat wd; 4%nat]
  | _, _ => False
  end.

(** The arrays [cv2.imread] hands over are rectangular. *)
Definition event_ok (e : event) : Prop :=
  match e with
  | LoadImage (Some (Some a)) => rectangular a
  | _ => True
  end.

(** The stored image and the display are as [image_ok] and [display_ok]
    say. *)
Definition sound (w : World) : Prop := image_ok w /\ display_ok w.

(** [I] holds after whenever it holds before. *)
Definition preserves (I : World -> Prop) (w w' : World) : Prop := I w -> I w'.

(** The slot [init_ui] connects to a slider's [valueChanged] (twice). *)
Definition slider_slot {cv : OpenCV} (s : slider) (v : Z) : M unit :=
  match s with
  | size_slider => update_size v
  | thickness_slider => update_thickness v
  | inner_opacity_slider => opacity_slot (lit "inner") v
  | outer_opacity_slider => opacity_slot (lit "outer") v
  | dot_opacity_slider => opacity_slot (lit "dot") v
  end.

(** The slot connected to a check box's [stateChanged] (twice). *)
Definition check_slot {cv : OpenCV} (c : check) (state : Z) : M unit :=
  match c with
  | outline_check => update_outline state
  | inner_check => update_inner_visibility state
  | outer_check => update_outer_visibility state
  | dot_check => update_dot_visibility state
  end.

(** Two states that differ at most in the printed lines. *)
Definition agree (w1 w2 : World) : Prop :=
  (forall a, attrs w1 a = attrs w2 a)
  /\ crosshair_image w1 = crosshair_image w2
  /\ pixmap w1 = pixmap w2
  /\ geometry w1 = geometry w2
  /\ (forall s, slider_value w1 s = slider_value w2 s)
  /\ (forall c, checked w1 c = checked w2 c)
  /\ code_input w1 = code_input w2
  /\ settings_file w1 = settings_file w2.

(** [w'] is [w] but for the printed lines and the display, with attributes
    [f], slider values [sv] and check states [ck]. *)
Definition widgets_are (f : attr -> pyval) (sv : slider -> Z)
    (ck : check -> bool) (w w' : World) : Prop :=
  (forall a, attrs w' a = f a)
  /\ (forall s, slider_value w' s = sv s)
  /\ (forall c, checked w' c = ck c)
  /\ crosshair_image w' = crosshair_image w
  /\ code_input w' = code_input w
  /\ settings_file w' = settings_file w.

(** The widgets show what the attributes hold: size, thickness and the
    inner and outer opacity are what their sliders store, the percentage
    read back from each of the two opacities is its slider's value, the
    four flags are the check boxes' states, and the remaining saved
    attributes are values that [json.load] reads back as they were
    written (the colour up to its being a tuple). *)
Definition in_sync (w : World) : Prop :=
  (forall s, s <> dot_opacity_slider ->
             in_range s (slider_value w s)
             /\ attrs w (slider_attr s) = slider_store s (slider_value w s))
  /\ py_int_times_100 (attrs w inner_opacity)
     = Ok (slider_value w inner_opacity_slider)
  /\ py_int_times_100 (attrs w outer_opacity)
     = Ok (slider_value w outer_opacity_slider)
  /\ (forall c, attrs w (check_attr c) = PBool (checked w c))
  /\ (exists l, attrs w color = PTuple l /\ map json_image l = l)
  /\ (forall a, In a [outline_thickness; inner_length; outer_length;
                      dot_opacity; dot_size] ->
                json_image (attrs w a) = attrs w a).

(** What [load_settings] reads from the decoded document [S] for each
    saved attribute: [settings.get(key, default)] with the key and the
    default of lines 593-606, made a tuple for the colour. *)
Definition reads (S : pyval) (f : attr -> pyval) : Prop :=
  py_get S (lit "size") (PInt 100) = Ok (f size)
  /\ (exists v, py_get S (lit "color") (PTuple [PInt 0; PInt 255; PInt 0])
                = Ok v
                /\ py_tuple v = Ok (f color))
  /\ py_get S (lit "thickness") (PInt 2) = Ok (f thickness)
  /\ py_get S (lit "outline_thickness") (PInt 1) = Ok (f outline_thickness)
  /\ py_get S (lit "show_outline") (PBool false) = Ok (f show_outline)
  /\ py_get S (lit "inner_length") (PInt 4) = Ok (f inner_length)
  /\ py_get S (lit "inner_opacity") (PFloat B64.one) = Ok (f inner_opacity)
  /\ py_get S (lit "show_inner") (PBool true) = Ok (f show_inner)
  /\ py_get S (lit "outer_length") (PInt 0) = Ok (f outer_length)
  /\ py_get S (lit "outer_opacity") (PFloat B64.one) = Ok (f outer_opacity)
  /\ py_get S (lit "show_outer") (PBool true) = Ok (f show_outer)
  /\ py_get S (lit "show_dot") (PBool false) = Ok (f show_dot)
  /\ py_get S (lit "dot_opacity") (PFloat B64.one) = Ok (f dot_opacity)
  /\ py_get S (lit "dot_size") (PInt 2) = Ok (f dot_size).

(** The keys of the settings document that [load_settings] looks up. *)
Definition loaded_keys : list str :=
  map lit
    [ "size"; "color"; "thickness"; "outline_thickness"; "show_outline";
      "inner_length"; "inner_opacity"; "show_inner"; "outer_length";
      "outer_opacity"; "show_outer"; "show_dot"; "dot_opacity";
      "dot_size" ]%string.

(** The slider positions from which [int((v / 100) * 100)] comes back one
    less than [v]. *)
Definition drifts (v : Z) : bool := (v =? 29) || (v =? 57) || (v =? 58).

(** The arrays the normalizer converts: 8-bit, not empty, and
    two-dimensional or of at least three channels. *)
Definition accepted (image : picture) : bool :=
  match dtype_of image with uint8 => true | uint16 => false end
  && negb (is_empty image)
  && match array_of image with
     | Arr2 _ => true
     | Arr3 _ => (3 <=? chans image)%nat
     end.

(** The keys, each followed by its number. *)
Fixpoint fields_text (ks ds : list str) : str :=
  match ks, ds with
  | k :: ks', d :: ds' => k ++ d ++ fields_text ks' ds'
  | _, _ => []
  end.

(** A code in the pattern's own order: the marker, text holding neither a
    ['0'] nor a line feed, and the eight keys with their numbers. *)
Definition code_text (mid : str) (ds : list str) : str :=
  lit "0;P;" ++ mid ++ fields_text field_keys ds.

(** ** The overlay's place on the screen

    [center_on_screen] and [closeEvent] act on the window's position and on
    the re-centering timers only.  The screen's and the window's sizes are
    what Qt reports when the method runs. *)

Module Placement.

(** A [QTimer] whose timeout is connected to [lambda: self.move(x, y)]. *)
Record timer := mkTimer {
  active : bool;
  target : Z * Z
}.

(** The window's position and the timers created so far, the newest first:
    the head is [self.center_timer]. *)
Record overlay := mkOverlay {
  position : Z * Z;
  timers : list timer
}.

Definition stop (t : timer) : timer := mkTimer false (target t).

(** [self.center_timer.stop()], when the attribute exists. *)
Definition stop_center_timer (ts : list timer) : list timer :=
  match ts with
  | t :: rest => stop t :: rest
  | [] => []
  end.

Definition center_on_screen (screen window : Z * Z) (o : overlay) : overlay :=
  let x := (fst screen - fst window) / 2 - 1 in
  let y := (snd screen - snd window) / 2 - 1 in
  mkOverlay (x, y) (mkTimer true (x, y) :: stop_center_timer (timers o)).

(** The timeout of the timer [t]: a stopped timer does not fire. *)
Definition timeout (t : timer) (o : overlay) : overlay :=
  if active t then mkOverlay (target t) (timers o) else o.

Definition closeEvent (o : overlay) : overlay :=
  mkOverlay (position o) (stop_center_timer (timers o)).

(** The overlay as constructed: no [center_timer] yet. *)
Definition created (p : Z * Z) : overlay := mkOverlay p [].

Fixpoint centered (calls : list ((Z * Z) * (Z * Z))) (o : overlay) : overlay :=
  match calls with
  | [] => o
  | (screen, window) :: calls' =>
      centered calls' (center_on_screen screen window o)
  end.

End Placement.

(** No image is stored and nothing is displayed. *)
Definition blank (w : World) : Prop :=
  crosshair_image w = None /\ pixmap w = None /\ geometry w = None.

(** The events that read no image: every event but a file dialog that
    ends with an array read. *)
Definition reads_no_image (e : event) : Prop :=
  match e with
  | LoadImage (Some (Some _)) => False
  | _ => True
  end.


(** The started program with the 64x64 image [solid] stored, at the default
    size 100. *)
Definition w_large : World :=
  mkWorld default_attrs (Some solid) None None initial_slider initial_check
    [] None [].

(** The same with another colour. *)
Definition w_large_red : World :=
  exec (set_attr color (PTuple [PInt 255; PInt 0; PInt 0])) w_large.

(** A code whose first number has 4301 digits. *)
Definition code_long : str :=
  lit "0;P;0t;" ++ repeat "1"%char 4301
  ++ lit ";0l;4;0o;2;0a;75;0f;0;1t;3;1o;50;1a;2".

Definition groups_long : list str :=
  [repeat "1"%char 4301; lit "4"; lit "2"; lit "75"; lit "0"; lit "3";
   lit "50"; lit "2"].

(** A code whose inner opacity percentage is 10^311. *)
Definition code_huge : str :=
  lit "0;P;0t;1;0l;4;0o;2;0a;1" ++ repeat "0"%char 311
  ++ lit ";0f;0;1t;3;1o;50;1a;2".

Definition groups_huge : list str :=
  [lit "1"; lit "4"; lit "2"; "1"%char :: repeat "0"%char 311; lit "0";
   lit "3"; lit "50"; lit "2"].



Definition entered (code : str) : World := exec (set_code_input code) started.

(** [code_150] typed in with the inner opacity slider at 50. *)
Definition w_150_typed : World :=
  exec (set_code_input code_150)
    (run_from_start [MoveSlider inner_opacity_slider 50]).

(** A session in which sliders, check boxes and both colours were used. *)
Definition w_tuned : World :=
  run_from_start
    [ MoveSlider size_slider 150; MoveSlider inner_opacity_slider 50;
      Click outline_check; ChooseColor (Some (255, 0, 0));
      ChooseOutlineColor (Some (0, 0, 255)) ].

(** A settings document whose size is a string. *)
Definition doc_bad_size : pyval := PDict [(lit "size", PStr (lit "big"))].

Definition read_bad_size (a : attr) : pyval :=
  match a with
  | size => PStr (lit "big")
  | _ => default_attrs a
  end.

(** The size set to 150 beside an empty settings document. *)
Definition w_empty_doc : World :=
  exec (set_attr size (PInt 150)) (init_world (Some (Json (PDict [])))).

(** * Facts about the decoder's pattern *)

Lemma match_lit_app (l s : str) : match_lit l (l ++ s) = Some s.
Proof.
  induction l as [|a l IH]; simpl; [reflexivity|].
  now rewrite Ascii.eqb_refl.
Qed.

Lemma match_lit_inv (l s r : str) : match_lit l s = Some r -> s = l ++ r.
Proof.
  revert s; induction l as [|a l IH]; intros s H; simpl in *.
  - now inversion H.
  - destruct s as [|b s]; [discriminate|].
    destruct (Ascii.eqb a b) eqn:E; [|discriminate].
    apply Ascii.eqb_eq in E; subst b. now rewrite (IH _ H).
Qed.

Lemma span_digits_inv (s d r : str) :
  span_digits s = (d, r) -> s = d ++ r /\ all_digits d /\ no_digit_first r.
Proof.
  revert d r; induction s as [|c s IH]; intros d r H; simpl in H.
  - inversion H; subst. repeat split; constructor.
  - destruct (is_digit c) eqn:E.
    + destruct (span_digits s) as [d' r'] eqn:E'. inversion H; subst.
      destruct (IH _ _ eq_refl) as (-> & Hd & Hr).
      repeat split; [constructor|]; assumption.
    + inversion H; subst. repeat split; [constructor | exact E].
Qed.

Lemma span_digits_app (d s : str) :
  all_digits d ->
  span_digits (d ++ s) = (d ++ fst (span_digits s), snd (span_digits s)).
Proof.
  induction 1 as [|c d Hc Hd IH]; simpl.
  - now destruct (span_digits s).
  - rewrite Hc, IH. reflexivity.
Qed.

Lemma span_digits_stop (s : str) : no_digit_first s -> span_digits s = ([], s).
Proof.
  destruct s as [|c s]; simpl; [reflexivity|]. now intros ->.
Qed.

Lemma matches_num (d : str) : Re.matches num d <-> d <> [] /\ all_digits d.
Proof.
  unfold num; simpl. split.
  - intros (ss & Hne & -> & Hall). split.
    + destruct ss as [|x ss]; [contradiction|].
      inversion Hall as [|? ? (c & -> & _) _]; subst. discriminate.
    + clear Hne. induction Hall as [|x ss (c & -> & Hc) _ IH]; simpl.
      * constructor.
      * constructor; assumption.
  - intros (Hne & Hall). exists (map (fun c => [c]) d). repeat split.
    + destruct d; [contradiction | discriminate].
    + clear Hne Hall. induction d as [|c d IH]; simpl; [reflexivity|].
      now rewrite <- IH.
    + clear Hne. induction Hall as [|c d Hc _ IH]; simpl; constructor.
      * exists c. now split.
      * exact IH.
Qed.



Lemma match_fields_sound (ks : list str) :
  forall k s g r,
    match_fields (k :: ks) s = Some (g, r) ->
    exists t, s = t ++ r /\ Re.matches (fields_re k ks) t
              /\ List.length g = S (List.length ks)
              /\ Forall (fun d => d <> [] /\ all_digits d) g.
Proof.
  induction ks as [|k' ks IH]; intros k s g r H.
  - cbn [match_fields] in H.
    destruct (match_lit k s) as [s1|] eqn:E1; [|discriminate].
    unfold match_num in H. destruct (span_digits s1) as [d r'] eqn:E2.
    destruct d as [|c d]; [discriminate|]. inversion H; subst; clear H.
    apply match_lit_inv in E1. apply span_digits_inv in E2.
    destruct E2 as (-> & Hd & _). subst s.
    exists (k ++ c :: d). rewrite <- app_assoc. repeat split.
    + simpl. exists k, (c :: d). repeat split.
      apply matches_num. split; [discriminate | exact Hd].
    + constructor; [|constructor]. split; [discriminate | exact Hd].
  - change (match_fields (k :: k' :: ks) s)
      with (match match_lit k s with
            | None => None
            | Some s1 =>
                match match_num s1 with
                | None => None
                | Some (d, s2) =>
                    match match_fields (k' :: ks) s2 with
                    | None => None
                    | Some (ds, r) => Some (d :: ds, r)
                    end
                end
            end) in H.
    destruct (match_lit k s) as [s1|] eqn:E1; [|discriminate].
    unfold match_num in H. destruct (span_digits s1) as [d r'] eqn:E2.
    destruct d as [|c d]; [discriminate|].
    destruct (match_fields (k' :: ks) r') as [[ds r0]|] eqn:E3; [|discriminate].
    inversion H; subst; clear H.
    apply match_lit_inv in E1. apply span_digits_inv in E2.
    destruct E2 as (-> & Hd & _). subst s.
    destruct (IH _ _ _ _ E3) as (t & -> & Ht & Hlen & Hall).
    exists (k ++ (c :: d) ++ t). rewrite <- !app_assoc. repeat split.
    + simpl. exists k, ((c :: d) ++ t). repeat split.
      exists (c :: d), t. repeat split; [|exact Ht].
      apply matches_num. split; [discriminate | exact Hd].
    + simpl. now rewrite Hlen.
    + constructor; [|exact Hall]. split; [discriminate | exact Hd].
Qed.

Lemma matches_lazy_dot (s : str) :
  Re.matches (Re.LazyStar Re.Dot) s <-> no_newline s.
Proof.
  simpl. split.
  - intros (ss & -> & Hall).
    induction Hall as [|x ss (c & -> & Hc) _ IH]; simpl; constructor; assumption.
  - intros H. exists (map (fun c => [c]) s). split.
    + clear H. induction s as [|c s IH]; simpl; [reflexivity|]. now rewrite <- IH.
    + induction H as [|c s Hc _ IH]; simpl; constructor; [|exact IH].
      exists c. now split.
Qed.

Lemma valorant_pattern_eq :
  valorant_pattern =
  Re.Seq (Re.Lit (lit "0;P;"))
    (Re.Seq (Re.LazyStar Re.Dot) (fields_re (hd [] field_keys) (tl field_keys))).
Proof. reflexivity. Qed.

Lemma field_keys_sep : Forall sep_first (tl field_keys).
Proof.
  repeat constructor; eexists _, _; split; reflexivity.
Qed.

Lemma match_lazy_dot_eq (s : str) :
  match_lazy_dot s =
  match match_fields field_keys s with
  | Some g => Some g
  | None =>
      match s with
      | c :: s' => if Ascii.eqb c newline then None else match_lazy_dot s'
      | [] => None
      end
  end.
Proof. destruct s; reflexivity. Qed.

Lemma re_search_eq (s : str) :
  re_search s =
  match match_at s with
  | Some (g, _) => Some g
  | None =>
      match s with
      | _ :: s' => re_search s'
      | [] => None
      end
  end.
Proof. destruct s; reflexivity. Qed.


Lemma match_lazy_dot_sound (s : str) :
  forall g r,
    match_lazy_dot s = Some (g, r) ->
    exists skip t,
      s = skip ++ t ++ r /\ no_newline skip
      /\ Re.matches (fields_re (hd [] field_keys) (tl field_keys)) t
      /\ List.length g = 8%nat
      /\ Forall (fun d => d <> [] /\ all_digits d) g.
Proof.
  induction s as [|c s IH]; intros g r H; rewrite match_lazy_dot_eq in H.
  - destruct (match_fields field_keys []) as [p|] eqn:E; [|discriminate].
    inversion H; subst; clear H.
    change field_keys with (hd [] field_keys :: tl field_keys) in E.
    destruct (match_fields_sound _ _ _ _ _ E) as (t & Hs & Ht & Hl & Ha).
    exists [], t. repeat split; [exact Hs | constructor | exact Ht | exact Hl | exact Ha].
  - destruct (match_fields field_keys (c :: s)) as [p|] eqn:E.
    + inversion H; subst; clear H.
      change field_keys with (hd [] field_keys :: tl field_keys) in E.
      destruct (match_fields_sound _ _ _ _ _ E) as (t & Hs & Ht & Hl & Ha).
      exists [], t. repeat split; [exact Hs | constructor | exact Ht | exact Hl | exact Ha].
    + destruct (Ascii.eqb c newline) eqn:En; [discriminate|].
      destruct (IH _ _ H) as (skip & t & -> & Hn & Ht & Hl & Ha).
      exists (c :: skip), t. repeat split; try assumption.
      constructor; [|exact Hn]. intros ->. now rewrite Ascii.eqb_refl in En.
Qed.


Lemma match_at_sound (s : str) (g : list str) (r : str) :
  match_at s = Some (g, r) ->
  exists m, s = m ++ r /\ Re.matches valorant_pattern m
            /\ List.length g = 8%nat
            /\ Forall (fun d => d <> [] /\ all_digits d) g.
Proof.
  unfold match_at. destruct (match_lit (lit "0;P;") s) as [s1|] eqn:E; [|discriminate].
  intros H. apply match_lit_inv in E.
  destruct (match_lazy_dot_sound _ _ _ H) as (skip & t & -> & Hn & Ht & Hl & Ha).
  subst s. exists (lit "0;P;" ++ skip ++ t). repeat split; try assumption.
  - now rewrite <- !app_assoc.
  - rewrite valorant_pattern_eq. exists (lit "0;P;"), (skip ++ t).
    repeat split. exists skip, t. repeat split; [|exact Ht].
    now apply matches_lazy_dot.
Qed.


Lemma re_search_sound (s : str) :
  forall g,
    re_search s = Some g ->
    Re.found valorant_pattern s
    /\ List.length g = 8%nat
    /\ Forall (fun d => d <> [] /\ all_digits d) g.
Proof.
  induction s as [|c s IH]; intros g H; rewrite re_search_eq in H.
  - destruct (match_at []) as [[g' r]|] eqn:E; [|discriminate].
    inversion H; subst; clear H.
    destruct (match_at_sound _ _ _ E) as (m & Hs & Hm & Hl & Ha).
    repeat split; try assumption. exists [], m, r. now split.
  - destruct (match_at (c :: s)) as [[g' r]|] eqn:E.
    + inversion H; subst; clear H.
      destruct (match_at_sound _ _ _ E) as (m & Hs & Hm & Hl & Ha).
      repeat split; try assumption. exists [], m, r. now split.
    + destruct (IH _ H) as ((pre & m & post & -> & Hm) & Hl & Ha).
      repeat split; try assumption. exists (c :: pre), m, post. now split.
Qed.


(** * Reasoning about computations *)

Lemma wp_bind {A B} (m : M A) (k : A -> M B) Q w :
  wp m (fun r w' => match r with
                    | Ok a => wp (k a) Q w'
                    | Raise e => Q (Raise e) w'
                    end) w ->
  wp (bind m k) Q w.
Proof.
  unfold wp, bind. destruct (m w) as [[a|e] w']; simpl; auto.
Qed.

Lemma wp_try {A} (body : M A) (handler : exn -> M A) Q w :
  wp body (fun r w' => match r with
                       | Ok a => Q (Ok a) w'
                       | Raise e => wp (handler e) Q w'
                       end) w ->
  wp (try_except body handler) Q w.
Proof.
  unfold wp, try_except. destruct (body w) as [[a|e] w']; simpl; auto.
Qed.

Lemma wp_mono {A} (m : M A) (Q Q' : result A -> World -> Prop) w :
  (forall r w', Q r w' -> Q' r w') -> wp m Q w -> wp m Q' w.
Proof. unfold wp; auto. Qed.

Lemma wp_ret {A} (a : A) (Q : result A -> World -> Prop) w :
  Q (Ok a) w -> wp (ret a) Q w.
Proof. exact (fun H => H). Qed.

Lemma wp_lift {A} (r : result A) (Q : result A -> World -> Prop) w :
  Q r w -> wp (lift r) Q w.
Proof. exact (fun H => H). Qed.

Lemma wp_gets {A} (f : World -> A) (Q : result A -> World -> Prop) w :
  Q (Ok (f w)) w -> wp (gets f) Q w.
Proof. exact (fun H => H). Qed.

Lemma wp_modify (f : World -> World) (Q : result unit -> World -> Prop) w :
  Q (Ok tt) (f w) -> wp (modify f) Q w.
Proof. exact (fun H => H). Qed.

Lemma same_but_display_refl w : same_but_display w w.
Proof. repeat split. Qed.

Lemma same_but_display_trans w1 w2 w3 :
  same_but_display w1 w2 -> same_but_display w2 w3 -> same_but_display w1 w3.
Proof.
  unfold same_but_display. intros (a1 & b1 & c1 & d1 & e1 & f1) (a2 & b2 & c2 & d2 & e2 & f2).
  repeat split; congruence.
Qed.

Lemma wp_eq {A} (m : M A) (x : result A * World) w :
  wp m (fun r w' => (r, w') = x) w -> m w = x.
Proof. unfold wp. now destruct (m w). Qed.

Ltac wp_norm :=
  cbn [attrs crosshair_image pixmap geometry slider_value checked code_input
       settings_file stdout].

(** One step through a computation, by the shape of its head. *)
Ltac wp_step :=
  lazymatch goal with
  | |- wp (bind ?m _) _ _ =>
      lazymatch m with
      | setChecked _ _ => fail
      | setValue _ _ => fail
      | _ => apply wp_bind
      end
  | |- wp (ret _) _ _ => apply wp_ret
  | |- wp center_on_screen _ _ => apply wp_ret
  | |- wp (lift _) _ _ => apply wp_lift
  | |- wp (gets _) _ _ => apply wp_gets
  | |- wp (get_attr _) _ _ => apply wp_gets
  | |- wp (modify _) _ _ => apply wp_modify
  | |- wp (print _) _ _ => apply wp_modify
  | |- wp (set_attr _ _) _ _ => apply wp_modify
  | |- wp (set_slider _ _) _ _ => apply wp_modify
  | |- wp (set_check _ _) _ _ => apply wp_modify
  | |- wp (setPixmap _) _ _ => apply wp_modify
  | |- wp (resize_window _ _) _ _ => apply wp_modify
  | |- wp (set_crosshair_image _) _ _ => apply wp_modify
  | |- wp (set_code_input _) _ _ => apply wp_modify
  | |- wp (set_settings_file _) _ _ => apply wp_modify
  end;
  wp_norm.

Ltac wp_go := cbv beta iota; wp_norm; repeat wp_step.

Ltac frame_done :=
  split;
  [ reflexivity
  | unfold same_but_display; wp_norm; repeat split; congruence ].

Ltac wp_norm_in H :=
  cbn [attrs crosshair_image pixmap geometry slider_value checked code_input
       settings_file stdout] in H.

Section Facts.

Context {cv : OpenCV}.

(** An integer of machine size is formatted. *)
Lemma py_format_small (z : Z) :
  Z.abs z < 2 ^ 63 -> py_format (PInt z) = Ok tt.
Proof.
  intros H. unfold py_format, int_printable.
  assert (L : 2 ^ 63 <= 10 ^ Z.of_nat int_max_str_digits)
    by (vm_compute; discriminate).
  replace (Z.abs z <? 10 ^ Z.of_nat int_max_str_digits) with true
    by (symmetry; apply Z.ltb_lt; lia).
  reflexivity.
Qed.

(** A canvas of at most [small_alloc] bytes is allocated. *)
Lemma np_zeros_small (n : Z) :
  0 <= n -> 4 * n * n <= small_alloc ->
  np_zeros (PInt n)
  = Ok (repeat (repeat [0; 0; 0; 0] (Z.to_nat n)) (Z.to_nat n)).
Proof.
  intros H0 Hs. unfold np_zeros.
  replace (n <? 0) with false by (symmetry; apply Z.ltb_ge; lia).
  replace (2 ^ 63 <=? 4 * n * n) with false
    by (symmetry; apply Z.leb_gt; unfold small_alloc in Hs; lia).
  replace (4 * n * n <=? small_alloc) with true
    by (symmetry; apply Z.leb_le; exact Hs).
  reflexivity.
Qed.

Lemma update_crosshair_display w :
  wp update_crosshair (fun r w' => r = Ok tt /\ same_but_display w w') w.
Proof.
  unfold update_crosshair.
  apply wp_try. wp_go.
  destruct (crosshair_image w) as [image|] eqn:E; wp_go.
  2: frame_done.
  destruct (py_add_int _ _) as [a|e]; wp_go.
  2: frame_done.
  destruct (py_format _) as [[]|e]; wp_go.
  2: frame_done.
  destruct (np_zeros _) as [img|e]; wp_go.
  2: frame_done.
  destruct (resize _ _ _ _) as [scaled|e]; wp_go.
  2: frame_done.
  destruct (assign_slice _ _ _ _ _ _) as [img'|e]; wp_go.
  all: frame_done.
Qed.

Lemma wp_update_crosshair (Q : result unit -> World -> Prop) w :
  (forall w', same_but_display w w' -> Q (Ok tt) w') ->
  wp update_crosshair Q w.
Proof.
  intros H. pose proof (update_crosshair_display w) as D.
  unfold wp in *. destruct D as (E & Hd). rewrite E. auto.
Qed.

(** ** The overlay without an image *)

(** C9. When no custom image is loaded ([crosshair_image] is [None]),
    [update_crosshair] returns normally and renders nothing: the displayed
    pixmap, the window size and every configuration attribute are what
    they were; all it does is print its two progress lines. *)
Theorem update_crosshair_without_image (w : World) :
  crosshair_image w = None ->
  fst (update_crosshair w) = Ok tt
  /\ pixmap (snd (update_crosshair w)) = pixmap w
  /\ geometry (snd (update_crosshair w)) = geometry w
  /\ attrs (snd (update_crosshair w)) = attrs w
  /\ same_but_display w (snd (update_crosshair w))
  /\ stdout (snd (update_crosshair w))
     = stdout w ++ [Text "Starting update_crosshair";
                    Text "No crosshair image loaded"].
Proof.
  intros H.
  assert (E : update_crosshair w
              = (Ok tt, printed (Text "No crosshair image loaded")
                          (printed (Text "Starting update_crosshair") w))).
  { apply wp_eq. unfold update_crosshair. apply wp_try. wp_go.
    rewrite H. wp_go. unfold printed. wp_norm. now rewrite H. }
  rewrite E. unfold printed, same_but_display. wp_norm. cbn [fst snd]. wp_norm.
  repeat split. now rewrite <- app_assoc.
Qed.

(** ** The canvas *)

Lemma odd_up_odd (n : Z) : Z.odd (odd_up n) = true.
Proof.
  apply Z.odd_spec. exists (n / 2). unfold odd_up.
  pose proof (Z.div_mod n 2 ltac:(lia)) as D.
  pose proof (Z.mod_pos_bound n 2 ltac:(lia)) as B.
  destruct (n mod 2 =? 0) eqn:E.
  - apply Z.eqb_eq in E. lia.
  - apply Z.eqb_neq in E. lia.
Qed.

Lemma odd_up_even (n : Z) : odd_up n = if Z.even n then n + 1 else n.
Proof.
  unfold odd_up. rewrite Zeven_mod. reflexivity.
Qed.

(** The canvas dimension is [max (S + 32) (H + 32)], plus one when that is
    even; so it is odd and at least [max S H + 32]. *)
Lemma canvas_size_odd (S H : Z) :
  canvas_size S H
  = (let m := Z.max (S + 32) (H + 32) in if Z.even m then m + 1 else m)
  /\ Z.odd (canvas_size S H) = true
  /\ Z.max S H + 32 <= canvas_size S H.
Proof.
  unfold canvas_size, padding. repeat split.
  - apply odd_up_even.
  - apply odd_up_odd.
  - rewrite odd_up_even. destruct (Z.even _); lia.
Qed.

(** The dimension [update_crosshair] computes from an integer [size] is
    [canvas_size]. *)
Lemma img_size_is_canvas_size (S H : Z) :
  (a <- lift (py_add_int (PInt S) padding) ;;
   ret (py_odd_up (py_max a (H + padding))))
  = ret (PInt (canvas_size S H)).
Proof. reflexivity. Qed.

(** ** The decoder: inputs that are not applied *)

Lemma parse_empty (w : World) :
  code_input w = [] -> parse_valorant_code w = (Ok tt, w).
Proof.
  intros H. unfold parse_valorant_code, bind, gets. now rewrite H.
Qed.

Lemma parse_no_match (w : World) :
  code_input w <> [] ->
  re_search (code_input w) = None ->
  parse_valorant_code w
  = (Ok tt, printed (Text "Invalid Valorant crosshair code format") w).
Proof.
  intros Hne H. unfold parse_valorant_code, bind, gets.
  destruct (code_input w) as [|c s] eqn:E; [contradiction|].
  unfold try_except. rewrite H. reflexivity.
Qed.

(** C6, as amended. For every non-empty input on which the pattern finds no
    match, [parse_valorant_code] returns normally, changes nothing but the
    output, and prints the diagnostic; on the empty input it changes
    nothing and prints nothing. *)
Theorem parse_rejects (w : World) :
  re_search (code_input w) = None ->
  let w' := snd (parse_valorant_code w) in
  fst (parse_valorant_code w) = Ok tt
  /\ (forall a, attrs w' a = attrs w a)
  /\ same_but_display w w'
  /\ pixmap w' = pixmap w
  /\ geometry w' = geometry w
  /\ stdout w'
     = stdout w
       ++ match code_input w with
          | [] => []
          | _ :: _ => [Text "Invalid Valorant crosshair code format"]
          end.
Proof.
  intros H. destruct (code_input w) as [|c s] eqn:E.
  - rewrite (parse_empty w E). simpl. rewrite app_nil_r.
    repeat split; reflexivity.
  - rewrite (parse_no_match w); [|congruence|congruence].
    simpl. repeat split; reflexivity.
Qed.



(** ** Loading: failures before the first assignment *)

(** C4, as amended. When the settings file is missing, cannot be opened or
    parsed, or holds a document that is not a JSON object, [load_settings]
    returns normally and leaves every attribute, widget and the display as
    they were; in the last two cases it prints the error.  When the document
    is an object whose [color] cannot be made a tuple, [size] has been
    assigned from the document (or its default) by then, and stays so. *)
Theorem load_settings_early_failure (w : World) :
  match settings_file w with
  | None => load_settings w = (Ok tt, w)
  | Some Garbage =>
      load_settings w
      = (Ok tt, printed (Err "Error loading settings: " JSONDecodeError) w)
  | Some (Json (PDict d)) =>
      forall e,
        py_tuple match dict_lookup (lit "color") d with
                 | Some v => v
                 | None => PTuple [PInt 0; PInt 255; PInt 0]
                 end = Raise e ->
        load_settings w
        = (Ok tt,
           printed (Err "Error loading settings: " e)
             (exec (set_attr size match dict_lookup (lit "size") d with
                                  | Some v => v
                                  | None => PInt 100
                                  end) w))
  | Some (Json _) =>
      load_settings w
      = (Ok tt, printed (Err "Error loading settings: " AttributeError) w)
  end.
Proof.
  destruct (settings_file w) as [[v|]|] eqn:E.
  - destruct v;
      try (apply wp_eq; unfold load_settings; apply wp_bind, wp_gets;
           rewrite E; apply wp_try; unfold load_attr; wp_go;
           cbn [py_get]; wp_go; reflexivity).
    intros e He.
    apply wp_eq. unfold load_settings. apply wp_bind, wp_gets.
    rewrite E. apply wp_try. unfold load_attr. wp_go.
    cbn [py_get]. wp_go. rewrite He. wp_go. reflexivity.
  - apply wp_eq. unfold load_settings. apply wp_bind, wp_gets.
    rewrite E. apply wp_try. wp_go. reflexivity.
  - apply wp_eq. unfold load_settings. apply wp_bind, wp_gets.
    rewrite E. wp_go. reflexivity.
Qed.

(** ** Widgets and slots *)

Ltac use_display :=
  repeat match goal with
         | H : same_but_display _ _ |- _ =>
             let Ha := fresh "Ha" in
             destruct H as (Ha & _ & _ & _ & _ & _); wp_norm_in Ha
         end.

Ltac wp_run :=
  repeat first
    [ wp_step
    | apply wp_update_crosshair;
      let w := fresh "w" in let H := fresh "Hd" in intros w H ].

Lemma percent_table : forallb percent_ok (seq 0 101) = true.
Proof. vm_compute. reflexivity. Qed.

Lemma percent_in_unit (z : Z) :
  0 <= z <= 100 ->
  B64.is_finite (B64.div_Z z 100) = true
  /\ B64.in_unit (B64.div_Z z 100) = true.
Proof.
  intros H. pose proof percent_table as T.
  rewrite forallb_forall in T.
  specialize (T (Z.to_nat z)).
  unfold percent_ok in T. rewrite Z2Nat.id in T by lia.
  apply andb_true_iff. apply T. apply in_seq. lia.
Qed.

Lemma py_truediv_percent (z : Z) :
  0 <= z <= 100 -> py_truediv z 100 = Ok (B64.div_Z z 100).
Proof.
  intros H. unfold py_truediv.
  now rewrite (proj1 (percent_in_unit z H)).
Qed.

Lemma bound_range (s : slider) (z : Z) :
  slider_min s <= bound s z <= slider_max s.
Proof. unfold bound; destruct s; simpl; lia. Qed.

Lemma to_c_int_ok (p : Z) :
  - 2 ^ 31 <= p < 2 ^ 31 -> to_c_int (PInt p) = Ok p.
Proof.
  intros H. unfold to_c_int.
  replace ((- 2 ^ 31 <=? p) && (p <? 2 ^ 31)) with true; [reflexivity|].
  symmetry. apply andb_true_intro. split; [apply Z.leb_le | apply Z.ltb_lt]; lia.
Qed.

Lemma upd_twice (a : attr) (v : pyval) (f : attr -> pyval) (a' : attr) :
  upd attr_eq_dec a v (upd attr_eq_dec a v f) a' = upd attr_eq_dec a v f a'.
Proof. unfold upd. now destruct (attr_eq_dec a' a). Qed.

Lemma upd_eq (a : attr) (v : pyval) (f : attr -> pyval) :
  upd attr_eq_dec a v f a = v.
Proof. unfold upd. now destruct (attr_eq_dec a a). Qed.

Lemma upd_neq (a b : attr) (v : pyval) (f : attr -> pyval) :
  b <> a -> upd attr_eq_dec a v f b = f b.
Proof. unfold upd. now destruct (attr_eq_dec b a). Qed.

Ltac upd_simpl :=
  repeat first [ rewrite upd_eq | rewrite upd_neq by discriminate ].

Lemma setValue_spec (s : slider) (p : Z) (w : World) :
  - 2 ^ 31 <= p < 2 ^ 31 ->
  wp (setValue s (PInt p))
     (fun r w' =>
        r = Ok tt
        /\ assigned (slider_attr s) (slider_store s (bound s p)) w w') w.
Proof.
  intros Hp. unfold setValue.
  apply wp_bind, wp_lift. rewrite (to_c_int_ok p Hp).
  apply wp_bind, wp_gets.
  destruct (bound s p =? slider_value w s).
  { apply wp_ret. split; [reflexivity | left; reflexivity]. }
  pose proof (bound_range s p) as Hb.
  unfold valueChanged.
  destruct s; cbn [slider_min slider_max] in Hb;
    unfold update_size, update_thickness, opacity_slot, update_opacity;
    try rewrite (py_truediv_percent _ Hb);
    change (str_eqb (lit "inner") (lit "inner")) with true;
    change (str_eqb (lit "outer") (lit "inner")) with false;
    change (str_eqb (lit "outer") (lit "outer")) with true;
    change (str_eqb (lit "dot") (lit "inner")) with false;
    change (str_eqb (lit "dot") (lit "outer")) with false;
    change (str_eqb (lit "dot") (lit "dot")) with true;
    cbv iota;
    wp_run; use_display;
    (split; [reflexivity | right; intros a'; wp_norm]);
    repeat match goal with H : attrs _ = _ |- _ => rewrite H end;
    cbn [slider_attr slider_store]; apply upd_twice.
Qed.

Lemma setChecked_spec (c : check) (b : bool) (w : World) :
  wp (setChecked c (PBool b))
     (fun r w' => r = Ok tt /\ assigned (check_attr c) (PBool b) w w') w.
Proof.
  unfold setChecked.
  apply wp_bind, wp_lift. cbn [to_c_bool].
  apply wp_bind, wp_gets.
  destruct (Bool.eqb b (checked w c)).
  { apply wp_ret. split; [reflexivity | left; reflexivity]. }
  unfold stateChanged.
  destruct c, b;
    unfold update_outline, update_inner_visibility, update_outer_visibility,
      update_dot_visibility;
    wp_run; use_display;
    (split; [reflexivity | right; intros a'; wp_norm]);
    repeat match goal with H : attrs _ = _ |- _ => rewrite H end;
    cbn [check_attr]; apply upd_twice.
Qed.

Lemma assigned_same (a : attr) (v : pyval) (w w' : World) :
  assigned a v w w' -> attrs w a = v -> forall a', attrs w' a' = attrs w a'.
Proof.
  intros [H|H] E a'; rewrite H; [reflexivity|].
  unfold upd. destruct (attr_eq_dec a' a); congruence.
Qed.

Lemma digit_value_range (c : ascii) :
  is_digit c = true -> 0 <= digit_value c <= 9.
Proof.
  unfold is_digit, digit_value. intros H.
  apply andb_true_iff in H. destruct H as (H1 & H2).
  apply Z.leb_le in H1, H2. lia.
Qed.

Lemma fold_digits_nonneg (d : str) :
  all_digits d ->
  forall acc, 0 <= acc ->
    0 <= fold_left (fun acc c => 10 * acc + digit_value c) d acc.
Proof.
  induction 1 as [|c d Hc _ IH]; intros acc Hacc; cbn [fold_left];
    [exact Hacc|].
  apply IH. pose proof (digit_value_range c Hc). lia.
Qed.

Lemma digits_value_nonneg (d : str) : all_digits d -> 0 <= digits_value d.
Proof.
  intros H. apply (fold_digits_nonneg d H). lia.
Qed.

(** ** The decoder: inputs that are applied *)

Ltac int_step :=
  apply wp_bind, wp_lift; unfold py_int_of_digits at 1;
  match goal with
  | |- context [(int_max_str_digits <? ?n)%nat] =>
      let E := fresh "E" in
      destruct (int_max_str_digits <? n)%nat eqn:E;
      [ wp_go; split;
        [ reflexivity
        | left; split;
          [ reflexivity
          | unfold all_short; cbn [forallb];
            repeat match goal with H : (_ <? _)%nat = _ |- _ => rewrite H end;
            cbn [negb andb]; rewrite ?andb_false_r; reflexivity ] ]
      | ]
  end.

Lemma parse_match_spec (w : World) (g : list str) :
  re_search (code_input w) = Some g ->
  number g 4 <= 100 ->
  number g 7 * number g 8 <= 100 ->
  wp parse_valorant_code
     (fun r w' =>
        r = Ok tt
        /\ ((forall a, attrs w' a = attrs w a) /\ all_short g = false
            \/ (forall a, attrs w' a = decoded g (attrs w) a)
               /\ all_short g = true)) w.
Proof.
  intros H H4 H78.
  destruct (re_search_sound _ _ H) as (_ & Hlen & Hdig).
  unfold parse_valorant_code. apply wp_bind, wp_gets.
  destruct (code_input w) as [|c s]; [discriminate|].
  rewrite H. clear H.
  do 8 (destruct g as [|? g]; [discriminate|]).
  destruct g; [|discriminate].
  unfold decoded, number, group in *. cbn [nth Nat.sub] in *.
  repeat match goal with
         | H : Forall _ (_ :: _) |- _ => inversion H; clear H; subst
         end.
  repeat match goal with
         | H : _ <> [] /\ all_digits _ |- _ =>
             let Hd := fresh "Hd" in
             destruct H as (_ & Hd); apply digits_value_nonneg in Hd
         end.
  apply wp_try.
  do 8 int_step.
  wp_go.
  rewrite py_truediv_percent by lia.
  wp_go.
  rewrite py_truediv_percent by nia.
  wp_go. upd_simpl.
  apply wp_bind.
  eapply wp_mono; [|apply setChecked_spec].
  intros r w1 (-> & A1). wp_norm_in A1.
  apply wp_bind.
  eapply wp_mono; [|apply setValue_spec; lia].
  intros r w2 (-> & A2).
  apply wp_bind.
  eapply wp_mono; [|apply setValue_spec; nia].
  intros r w3 (-> & A3).
  wp_run. use_display.
  split; [reflexivity|]. right. split.
  2: { unfold all_short; cbn [forallb].
       repeat match goal with H : (_ <? _)%nat = _ |- _ => rewrite H end.
       reflexivity. }
  intros a. rewrite Ha.
  pose proof (assigned_same _ _ _ _ A1) as B1.
  wp_norm_in B1. cbn [check_attr] in B1.
  lapply B1; [clear B1; intros B1 | now upd_simpl].
  pose proof (assigned_same _ _ _ _ A2) as B2.
  cbn [slider_attr slider_store] in B2.
  lapply B2; [clear B2; intros B2|].
  2: { rewrite B1. upd_simpl.
       unfold bound; cbn [slider_min slider_max]. do 2 f_equal. lia. }
  pose proof (assigned_same _ _ _ _ A3) as B3.
  cbn [slider_attr slider_store] in B3.
  lapply B3; [clear B3; intros B3|].
  2: { rewrite B2, B1. upd_simpl.
       unfold bound; cbn [slider_min slider_max]. do 2 f_equal. nia. }
  rewrite B3, B2, B1. reflexivity.
Qed.

Lemma all_short_true (g : list str) :
  Forall (fun d => (List.length d <= int_max_str_digits)%nat) g ->
  all_short g = true.
Proof.
  unfold all_short. induction 1 as [|d g Hd _ IH]; cbn [forallb]; [reflexivity|].
  rewrite IH, andb_true_r. apply negb_true_iff, Nat.ltb_ge. exact Hd.
Qed.

(** C1, as amended. For every input in which the pattern matches with
    captured numbers of at most 4300 digits each, an inner opacity
    percentage of at most 100 and a product of outer opacity percentage and
    multiplier of at most 100, [parse_valorant_code] returns normally
    having set [show_outline = (outlineEnabled != 0)],
    [inner_length = innerLen * 2], [outer_length = outerLen * 2],
    [inner_opacity = innerOpacityPct / 100], [outline_thickness] to the
    captured number and
    [outer_opacity = (outerOpacityPct * outerOpacityMultiplier) / 100]; the
    captured inner offset (group 5) reaches no attribute, and every other
    attribute keeps its value. *)
Theorem decode_applies (w : World) (g : list str) :
  re_search (code_input w) = Some g ->
  Forall (fun d => (List.length d <= int_max_str_digits)%nat) g ->
  number g 4 <= 100 ->
  number g 7 * number g 8 <= 100 ->
  let w' := snd (parse_valorant_code w) in
  fst (parse_valorant_code w) = Ok tt
  /\ attrs w' show_outline = PBool (negb (number g 1 =? 0))
  /\ attrs w' inner_length = PInt (number g 2 * 2)
  /\ attrs w' outer_length = PInt (number g 3 * 2)
  /\ attrs w' inner_opacity = PFloat (B64.div_Z (number g 4) 100)
  /\ attrs w' outline_thickness = PInt (number g 6)
  /\ attrs w' outer_opacity
     = PFloat (B64.div_Z (number g 7 * number g 8) 100)
  /\ (forall a,
        ~ In a [show_outline; inner_length; outer_length; inner_opacity;
                outline_thickness; outer_opacity] ->
        attrs w' a = attrs w a).
Proof.
  intros H Hs H4 H78 w'.
  pose proof (parse_match_spec w g H H4 H78) as P. unfold wp in P.
  fold w' in P. destruct P as (Hr & [(_ & Hf)|(Hd & _)]).
  { rewrite (all_short_true g Hs) in Hf. discriminate. }
  split; [exact Hr|].
  repeat split; try (rewrite Hd; unfold decoded; now upd_simpl).
  intros a Ha. rewrite Hd. unfold decoded.
  destruct a; try (exfalso; apply Ha; cbn [In]; tauto); now upd_simpl.
Qed.

(** ** The opacity bound *)

Lemma number_nonneg (s : str) (g : list str) (k : nat) :
  re_search s = Some g -> 0 <= number g k.
Proof.
  intros H. destruct (re_search_sound _ _ H) as (_ & _ & Hd).
  unfold number, group.
  destruct (nth_in_or_default (k - 1) g []) as [Hin|E].
  - rewrite Forall_forall in Hd. apply digits_value_nonneg. now apply Hd.
  - rewrite E. unfold digits_value. cbn [fold_left]. lia.
Qed.





(** ** The bitmap normalizer *)

Lemma zip4_map {A B C} (g : B -> B -> B -> B -> C) (a b c d : A -> B)
    (l : list A) :
  zip4 g (map a l) (map b l) (map c l) (map d l)
  = map (fun x => g (a x) (b x) (c x) (d x)) l.
Proof.
  unfold zip4. induction l as [|x l IH]; cbn [map combine]; [reflexivity|].
  now rewrite IH.
Qed.

Lemma map_map_ext_in {A B} (f g : A -> B) (p : list (list A)) :
  (forall r, In r p -> forall x, In x r -> f x = g x) ->
  map (map f) p = map (map g) p.
Proof.
  intros H. apply map_ext_in. intros r Hr. apply map_ext_in. now apply H.
Qed.

(** What the normalizer builds from the resized pixels [p]. *)
Lemma boosted_planes (p : list (list (list Z))) :
  zip4 (zip4 (fun x y z u => [x; y; z; u]))
    (map (map (fun x => nth 0 x 0)) (map (map (map convertScaleAbs_byte))
                                       (map (map (firstn 3)) p)))
    (map (map (fun x => nth 1 x 0)) (map (map (map convertScaleAbs_byte))
                                       (map (map (firstn 3)) p)))
    (map (map (fun x => nth 2 x 0)) (map (map (map convertScaleAbs_byte))
                                       (map (map (firstn 3)) p)))
    (map (map (fun x => nth 3 x 0)) p)
  = map (map (fun x => boosted_pixel x)) p.
Proof.
  rewrite !map_map.
  rewrite (zip4_map (zip4 (fun x y z u => [x; y; z; u]))).
  apply map_ext. intros r. rewrite !map_map.
  rewrite (zip4_map (fun x y z u => [x; y; z; u])).
  reflexivity.
Qed.

Lemma boosted_pixel_channels (x : list Z) :
  (4 <= List.length x)%nat ->
  nth 3 (boosted_pixel x) 0 = nth 3 x 0
  /\ forall k, (k < 3)%nat ->
       nth k (boosted_pixel x) 0 = convertScaleAbs_byte (nth k x 0).
Proof.
  intros H. split; [reflexivity|].
  intros k Hk.
  assert (E : forall j, (j < 3)%nat ->
                nth j (map convertScaleAbs_byte (firstn 3 x)) 0
                = convertScaleAbs_byte (nth j x 0)).
  { intros j Hj.
    rewrite (nth_indep _ 0 (convertScaleAbs_byte 0))
      by (rewrite length_map, length_firstn; lia).
    rewrite map_nth. f_equal.
    destruct x as [|x0 [|x1 [|x2 x]]]; cbn [List.length] in H; try lia.
    destruct j as [|[|[|j]]]; try lia; reflexivity. }
  unfold boosted_pixel.
  destruct k as [|[|[|k]]]; try lia; cbn [nth]; apply E; lia.
Qed.

Lemma normalized_boosted (q : list (list (list Z))) :
  rectangular (Arr3 q) ->
  rows (Arr3 q) = 64%nat -> cols (Arr3 q) = 64%nat ->
  (4 <= chans (Arr3 q))%nat ->
  normalized (Arr3 q) (Arr3 (map (map boosted_pixel) q)).
Proof.
  intros Hrect Hr Hc Hch.
  assert (Hpix : forall r, In r q -> forall x, In x r -> (4 <= List.length x)%nat).
  { intros r Hin x Hx. cbn [rectangular] in Hrect.
    rewrite Forall_forall in Hrect. destruct (Hrect r Hin) as (_ & Hp).
    rewrite Forall_forall in Hp. rewrite (Hp x Hx). exact Hch. }
  destruct q as [|r0 q]; [discriminate|].
  cbn [rows cols chans hd List.length] in Hr, Hc, Hch.
  destruct r0 as [|x0 r0]; [discriminate|].
  unfold normalized. repeat split.
  - cbn [shape rows cols chans map hd List.length boosted_pixel].
    rewrite !length_map. cbn [List.length] in Hr, Hc. congruence.
  - cbn [rectangular] in *. rewrite Forall_forall in *.
    intros r Hin. apply in_map_iff in Hin. destruct Hin as (r' & <- & Hin).
    destruct (Hrect r' Hin) as (Hl & _).
    cbn [cols chans map hd List.length boosted_pixel] in *.
    rewrite !length_map. split; [exact Hl|].
    rewrite Forall_forall. intros x Hx.
    apply in_map_iff in Hx. destruct Hx as (x' & <- & _). reflexivity.
  - cbn [plane]. now rewrite map_map; apply map_ext; intros r; rewrite map_map.
  - intros k Hk. cbn [plane]. rewrite !map_map.
    apply map_ext_in. intros r Hin. rewrite !map_map.
    apply map_ext_in. intros x Hx.
    apply boosted_pixel_channels; [now apply (Hpix r Hin) | exact Hk].
Qed.

Lemma to_bgra_rectangular (image : ndarray) :
  rectangular image -> is_empty image = false ->
  rectangular (to_bgra image) /\ is_empty (to_bgra image) = false.
Proof.
  intros Hrect He. destruct image as [p|p]; cbn [to_bgra].
  - destruct p as [|r0 p]; [discriminate|].
    destruct r0 as [|g0 r0]; [discriminate|].
    split; [|reflexivity].
    cbn [rectangular] in *. rewrite Forall_forall in *.
    intros r Hin. apply in_map_iff in Hin. destruct Hin as (r' & <- & Hin).
    cbn [cols chans map hd List.length] in *. rewrite !length_map.
    split; [now apply Hrect|].
    rewrite Forall_forall. intros x Hx.
    apply in_map_iff in Hx. destruct Hx as (g & <- & _). reflexivity.
  - destruct (chans (Arr3 p) =? 3)%nat eqn:E; [|now split].
    apply Nat.eqb_eq in E.
    destruct p as [|r0 p]; [discriminate|].
    destruct r0 as [|x0 r0]; [discriminate|].
    cbn [chans hd] in E.
    split; [|unfold is_empty; cbn [rows cols chans map hd List.length];
             rewrite length_app; cbn [List.length]; rewrite E; reflexivity].
    cbn [rectangular] in *. rewrite Forall_forall in *.
    intros r Hin. apply in_map_iff in Hin. destruct Hin as (r' & <- & Hin).
    destruct (Hrect r' Hin) as (Hl & Hp).
    cbn [cols chans map hd List.length] in *. rewrite !length_map.
    split; [exact Hl|].
    rewrite Forall_forall in *. intros x Hx.
    apply in_map_iff in Hx. destruct Hx as (x' & <- & Hx').
    rewrite !length_app. cbn [List.length]. now rewrite (Hp x' Hx').
Qed.

(** The conversion step, when it succeeds, yields [to_bgra]. *)
Lemma cvtColor_GRAY2BGRA_ok (image out : ndarray) :
  cvtColor_GRAY2BGRA image = Ok out ->
  out = to_bgra image /\ is_empty image = false.
Proof.
  unfold cvtColor_GRAY2BGRA. destruct image as [p|p]; [|discriminate].
  destruct (is_empty (Arr2 p)); [discriminate|].
  intros [= <-]. now split.
Qed.

Lemma cvtColor_BGR2BGRA_ok (image out : ndarray) :
  cvtColor_BGR2BGRA image = Ok out ->
  out = to_bgra image /\ is_empty image = false.
Proof.
  unfold cvtColor_BGR2BGRA. destruct image as [p|p]; [discriminate|].
  destruct (is_empty (Arr3 p)); [discriminate|].
  cbn [orb to_bgra]. destruct (chans (Arr3 p) =? 3)%nat; [|discriminate].
  intros [= <-]. now split.
Qed.

Lemma only_printed_refl w : only_printed w w.
Proof. repeat split. Qed.

Ltac printed_done :=
  unfold only_printed, same_but_display in *;
  cbn [attrs crosshair_image pixmap geometry slider_value checked code_input
       settings_file stdout] in *;
  repeat match goal with H : _ /\ _ |- _ => destruct H end;
  repeat split; congruence.

(** Lines 149-154: the conversion to four channels. *)
Lemma convert_stage1 (image : ndarray) (w : World) :
  wp (match image with
      | Arr2 _ =>
          print (Text "Converting grayscale to BGRA") ;;;
          lift (cvtColor_GRAY2BGRA image)
      | Arr3 _ =>
          if (chans image =? 3)%nat then
            print (Text "Converting BGR to BGRA") ;;;
            lift (cvtColor_BGR2BGRA image)
          else ret image
      end)
     (fun r w' =>
        only_printed w w'
        /\ match r with
           | Ok b => b = to_bgra image
                     /\ (is_empty b = false -> is_empty image = false)
           | Raise _ => True
           end) w.
Proof.
  destruct image as [p|p].
  - wp_go. split; [printed_done|].
    destruct (cvtColor_GRAY2BGRA (Arr2 p)) as [b|e] eqn:E; [|exact I].
    apply cvtColor_GRAY2BGRA_ok in E. destruct E as (-> & E). now split.
  - destruct (chans (Arr3 p) =? 3)%nat eqn:Ec.
    + wp_go. split; [printed_done|].
      destruct (cvtColor_BGR2BGRA (Arr3 p)) as [b|e] eqn:E; [|exact I].
      apply cvtColor_BGR2BGRA_ok in E. destruct E as (-> & E). now split.
    + wp_go. split; [printed_done|]. cbn [to_bgra]. rewrite Ec. now split.
Qed.

Ltac convert_fails :=
  wp_go; split; [printed_done|];
  eexists; split; [reflexivity | intros ? [=]].

Lemma convert_spec (d : dtype) (image : ndarray) (w : World) :
  resize_contract cv ->
  rectangular image ->
  wp (convert_to_recommended_resolution (Picture d image))
     (fun r w' =>
        only_printed w w'
        /\ exists o,
             r = Ok o
             /\ forall out,
                  o = Some out ->
                  is_empty image = false
                  /\ normalized
                       (cv2_resize (to_bgra image) target_size target_size
                          INTER_AREA) out) w.
Proof.
  intros HC Hrect. unfold convert_to_recommended_resolution.
  cbv zeta. cbn [dtype_of array_of].
  apply wp_try. wp_go.
  eapply wp_mono; [|apply convert_stage1].
  intros r w1 (P1 & Hr). destruct r as [b|e]; [|convert_fails].
  destruct Hr as (-> & Hne).
  wp_go. unfold resize.
  destruct (is_empty (to_bgra image)) eqn:Eb; cbn [orb]; [convert_fails|].
  change ((target_size =? 0)%nat) with false. cbn [orb].
  specialize (Hne eq_refl).
  destruct (to_bgra_rectangular image Hrect Hne) as (Hrb & _).
  destruct (HC (to_bgra image) target_size target_size INTER_AREA Hrb Eb
              ltac:(unfold target_size; lia) ltac:(unfold target_size; lia))
    as (HrR & HsR).
  set (R := cv2_resize (to_bgra image) target_size target_size INTER_AREA) in *.
  wp_go.
  destruct R as [q|q] eqn:ER; cbn [take_channels]; [convert_fails|].
  wp_go. unfold channel at 1.
  destruct (3 <? chans (Arr3 q))%nat eqn:E3; [|convert_fails].
  apply Nat.ltb_lt in E3.
  assert (Hdim : rows (Arr3 q) = 64%nat /\ cols (Arr3 q) = 64%nat).
  { unfold resized_shape in HsR. cbn [shape] in HsR.
    destruct (to_bgra image); [discriminate|].
    destruct (chans _ =? 1)%nat; [discriminate|].
    injection HsR as H1 H2 _. split; [exact H1 | exact H2]. }
  destruct Hdim as (Hrows & Hcols).
  wp_go. unfold convertScaleAbs.
  destruct (is_empty (Arr3 _)); [convert_fails|].
  wp_go. unfold channel.
  destruct (0 <? _)%nat; [|convert_fails]. wp_go.
  destruct (1 <? _)%nat; [|convert_fails]. wp_go.
  destruct (2 <? _)%nat; [|convert_fails]. wp_go.
  unfold merge4. cbn [dtype_of array_of].
  destruct d; [|convert_fails].
  match goal with |- context [if ?c then Raise cv2_error else _] =>
    destruct c end; [convert_fails|].
  wp_go. split; [printed_done|].
  eexists; split; [reflexivity|]. intros out [= <-].
  split; [exact Hne|].
  rewrite boosted_planes.
  apply normalized_boosted; [exact HrR | exact Hrows | exact Hcols | lia].
Qed.

Lemma to_bgra_planes (image : ndarray) :
  rectangular image ->
  match image with
  | Arr2 p =>
      (forall k, (k < 3)%nat -> plane k (to_bgra image) = p)
      /\ plane 3 (to_bgra image) = map (map (fun _ => 255)) p
  | Arr3 p =>
      if (chans image =? 3)%nat then
        (forall k, (k < 3)%nat -> plane k (to_bgra image) = plane k image)
        /\ plane 3 (to_bgra image) = map (map (fun _ => 255)) p
      else to_bgra image = image
  end.
Proof.
  intros Hrect. destruct image as [p|p]; cbn [to_bgra].
  - split.
    + intros k Hk. cbn [plane]. rewrite map_map.
      rewrite <- (map_id p) at 2. apply map_ext. intros r. rewrite map_map.
      rewrite <- (map_id r) at 2. apply map_ext. intros g.
      destruct k as [|[|[|k]]]; try lia; reflexivity.
    + cbn [plane]. rewrite map_map. apply map_ext. intros r.
      now rewrite map_map.
  - destruct (chans (Arr3 p) =? 3)%nat eqn:E; [|reflexivity].
    apply Nat.eqb_eq in E.
    assert (Hpix : forall r, In r p -> forall x, In x r -> List.length x = 3%nat).
    { intros r Hin x Hx. cbn [rectangular] in Hrect.
      rewrite Forall_forall in Hrect. destruct (Hrect r Hin) as (_ & Hp).
      rewrite Forall_forall in Hp. now rewrite (Hp x Hx). }
    split.
    + intros k Hk. cbn [plane]. rewrite map_map.
      apply map_ext_in. intros r Hin. rewrite map_map.
      apply map_ext_in. intros x Hx.
      apply app_nth1. rewrite (Hpix r Hin x Hx). exact Hk.
    + cbn [plane]. rewrite map_map.
      apply map_ext_in. intros r Hin. rewrite map_map.
      apply map_ext_in. intros x Hx.
      rewrite app_nth2 by (rewrite (Hpix r Hin x Hx); lia).
      now rewrite (Hpix r Hin x Hx).
Qed.

(** The boost of one byte: [1.5 x + 30] to the nearest integer, at most
    255. *)
Lemma convertScaleAbs_byte_spec (x : Z) :
  0 <= x <= 255 ->
  0 <= convertScaleAbs_byte x <= 255
  /\ (3 * x + 60 <= 510 ->
      -1 <= 2 * convertScaleAbs_byte x - (3 * x + 60) <= 1)
  /\ (510 <= 3 * x + 60 -> convertScaleAbs_byte x = 255).
Proof.
  intros H. unfold convertScaleAbs_byte.
  rewrite Z.abs_eq by lia.
  pose proof (Z.div_mod (3 * x + 60) 2 ltac:(lia)) as D.
  pose proof (Z.mod_pos_bound (3 * x + 60) 2 ltac:(lia)) as B.
  destruct ((3 * x + 60) mod 2 =? 0) eqn:E; cbn [orb].
  - apply Z.eqb_eq in E. lia.
  - apply Z.eqb_neq in E. destruct (Z.even _); lia.
Qed.

(** C8. Whenever [convert_to_recommended_resolution] succeeds on an image,
    its result is a 64x64 bitmap of four channels; the array it resized is
    the input with an opaque alpha channel added when the input is grey
    (every channel the grey value) or has three channels; the alpha plane
    of the result is the alpha plane of the resized array, unchanged, and
    each of the three colour planes is the resized one passed through the
    saturating boost of [convertScaleAbs_byte]. *)
Theorem normalizer_output (d : dtype) (image out : ndarray) (w : World) :
  resize_contract cv ->
  rectangular image ->
  fst (convert_to_recommended_resolution (Picture d image) w) = Ok (Some out) ->
  let resized :=
    cv2_resize (to_bgra image) target_size target_size INTER_AREA in
  shape out = [64; 64; 4]%nat
  /\ rectangular out
  /\ plane 3 out = plane 3 resized
  /\ (forall k, (k < 3)%nat ->
        plane k out = map (map convertScaleAbs_byte) (plane k resized))
  /\ match image with
     | Arr2 p =>
         (forall k, (k < 3)%nat -> plane k (to_bgra image) = p)
         /\ plane 3 (to_bgra image) = map (map (fun _ => 255)) p
     | Arr3 p =>
         if (chans image =? 3)%nat then
           (forall k, (k < 3)%nat -> plane k (to_bgra image) = plane k image)
           /\ plane 3 (to_bgra image) = map (map (fun _ => 255)) p
         else to_bgra image = image
     end.
Proof.
  intros HC Hrect Hok resized.
  pose proof (convert_spec d image w HC Hrect) as P. unfold wp in P.
  destruct P as (_ & o & Ho & Hn).
  rewrite Hok in Ho. injection Ho as <-.
  destruct (Hn out eq_refl) as (_ & N). unfold normalized in N.
  fold resized in N. destruct N as (N1 & N2 & N3 & N4).
  repeat split; try assumption.
  apply (to_bgra_planes image Hrect).
Qed.

(** ** Compositing *)

Lemma slice_bound_range (n i : Z) : 0 <= n -> 0 <= slice_bound n i <= n.
Proof. unfold slice_bound. destruct (i <? 0) eqn:E; lia. Qed.

Lemma slice_range_length (n start stop : Z) :
  0 <= n -> 0 <= snd (slice_range n start stop) <= n.
Proof.
  intros H. unfold slice_range. cbn [snd].
  pose proof (slice_bound_range n start H).
  pose proof (slice_bound_range n stop H). lia.
Qed.

Lemma shape3_inv (a : ndarray) (h w c : nat) :
  shape a = [h; w; c] ->
  exists q, a = Arr3 q /\ rows a = h /\ cols a = w /\ chans a = c.
Proof.
  destruct a as [p|q]; cbn [shape]; [discriminate|].
  intros [= <- <- <-]. now exists q.
Qed.

Lemma canvas_size_small (S : Z) :
  50 <= S <= 95 -> 97 <= canvas_size S 64 <= 127.
Proof.
  intros H. unfold canvas_size, padding, odd_up.
  pose proof (Z.div_mod (Z.max (S + 32) (64 + 32)) 2 ltac:(lia)) as D.
  pose proof (Z.mod_pos_bound (Z.max (S + 32) (64 + 32)) 2 ltac:(lia)) as B.
  destruct (Z.max (S + 32) (64 + 32) mod 2 =? 0) eqn:E.
  - apply Z.eqb_eq in E. lia.
  - apply Z.eqb_neq in E. lia.
Qed.

Lemma paste_offset_small (n d : Z) :
  n < d ->
  paste_offset n d < 0 /\ (n + 1 < d -> n < paste_offset n d + d).
Proof.
  intros H. unfold paste_offset.
  pose proof (Z.div_mod (n - d) 2 ltac:(lia)).
  pose proof (Z.mod_pos_bound (n - d) 2 ltac:(lia)). lia.
Qed.

Lemma canvas_size_smaller (S : Z) :
  50 <= S <= 93 -> canvas_size S 64 <= 125.
Proof.
  intros H. unfold canvas_size, padding, odd_up.
  pose proof (Z.div_mod (Z.max (S + 32) (64 + 32)) 2 ltac:(lia)) as D.
  pose proof (Z.mod_pos_bound (Z.max (S + 32) (64 + 32)) 2 ltac:(lia)) as B.
  destruct (Z.max (S + 32) (64 + 32) mod 2 =? 0) eqn:E.
  - apply Z.eqb_eq in E. lia.
  - apply Z.eqb_neq in E. lia.
Qed.

(** C2 at the sizes where it fails. With a normalized image loaded and a
    size from 50 to 95 (the slider starts at 50), the canvas is smaller
    than the doubled bitmap: the offset [(canvas - 128) // 2] is negative
    (and up to size 93 the bitmap placed there would pass the far edge),
    the slice assignment raises, and [update_crosshair] leaves the display
    as it was after printing the error. *)
Theorem update_crosshair_small_size (w : World) (img : ndarray) (S : Z) :
  resize_contract cv ->
  crosshair_image w = Some img ->
  rectangular img ->
  shape img = [64; 64; 4]%nat ->
  attrs w size = PInt S ->
  50 <= S <= 95 ->
  let n := canvas_size S 64 in
  let w' := snd (update_crosshair w) in
  paste_offset n (2 * 64) < 0
  /\ (S <= 93 -> n < paste_offset n (2 * 64) + 2 * 64)
  /\ fst (update_crosshair w) = Ok tt
  /\ pixmap w' = pixmap w
  /\ geometry w' = geometry w
  /\ stdout w'
     = stdout w
       ++ [ Text "Starting update_crosshair";
            Fmt "Crosshair image shape: " [shape_val img];
            Fmt "Creating image of size: " [PInt n; PInt n];
            Fmt "Offsets: " [PInt (paste_offset n 64); PInt (paste_offset n 64)];
            Err "Error in update_crosshair: " ValueError;
            Traceback ].
Proof.
  intros HC Himg Hrect Hshape Hsize HS n w'.
  pose proof (canvas_size_small S HS) as Hn. fold n in Hn.
  destruct (paste_offset_small n (2 * 64) ltac:(lia)) as (Hoff & Hfit).
  split; [exact Hoff|]. split.
  { intros HS'. apply Hfit.
    pose proof (canvas_size_smaller S ltac:(lia)) as Hn'. fold n in Hn'. lia. }
  destruct (shape3_inv _ _ _ _ Hshape) as (q & Eq & Hr & Hc & Hch).
  assert (Hne : is_empty img = false)
    by (unfold is_empty; now rewrite Hr, Hc, Hch).
  destruct (HC img 128%nat 128%nat INTER_LINEAR Hrect Hne
              ltac:(lia) ltac:(lia)) as (_ & Hs).
  assert (Hs' : shape (cv2_resize img 128 128 INTER_LINEAR) = [128; 128; 4]%nat).
  { rewrite Hs. unfold resized_shape. rewrite Eq in *. now rewrite Hch. }
  destruct (shape3_inv _ _ _ _ Hs') as (q' & Eq' & Hr' & Hc' & Hch').
  change (wp update_crosshair
            (fun r w' =>
               r = Ok tt /\ pixmap w' = pixmap w /\ geometry w' = geometry w
               /\ stdout w'
                  = stdout w
                    ++ [ Text "Starting update_crosshair";
                         Fmt "Crosshair image shape: " [shape_val img];
                         Fmt "Creating image of size: " [PInt n; PInt n];
                         Fmt "Offsets: "
                           [PInt (paste_offset n 64); PInt (paste_offset n 64)];
                         Err "Error in update_crosshair: " ValueError;
                         Traceback ]) w).
  unfold update_crosshair. apply wp_try. wp_go.
  rewrite Himg. wp_go. rewrite Hsize. cbn [py_add_int]. wp_go.
  cbn [py_max py_odd_up]. rewrite Hr, Hc.
  change (odd_up (Z.max (S + padding) (Z.of_nat 64 + padding))) with n.
  rewrite py_format_small by lia.
  wp_go.
  rewrite np_zeros_small by (unfold small_alloc; nia).
  wp_go. rewrite repeat_length, Z2Nat.id by lia.
  unfold resize. rewrite Hne. cbn [orb Nat.mul Nat.add Nat.eqb].
  change (64 * 2)%nat with 128%nat. cbn [Nat.eqb].
  wp_go. rewrite Hr', Hc'.
  unfold assign_slice. rewrite repeat_length, Z2Nat.id by lia.
  pose proof (slice_range_length n (paste_offset n (Z.of_nat 128))
                (paste_offset n (Z.of_nat 128) + Z.of_nat 128) ltac:(lia)) as L.
  destruct (slice_range n (paste_offset n (Z.of_nat 128))
              (paste_offset n (Z.of_nat 128) + Z.of_nat 128)) as [ys ylen].
  cbn [snd] in L. rewrite Eq'. rewrite Eq' in Hr'. rewrite Hr'.
  replace (ylen =? Z.of_nat 128) with false by (symmetry; apply Z.eqb_neq; lia).
  cbn [andb]. wp_go.
  repeat split. rewrite <- !app_assoc. reflexivity.
Qed.

Lemma slice_range_inside (n a l : Z) :
  0 <= a -> 0 <= l -> a + l <= n -> slice_range n a (a + l) = (a, l).
Proof.
  intros Ha Hl Hn. unfold slice_range, slice_bound.
  replace (a <? 0) with false by (symmetry; apply Z.ltb_ge; lia).
  replace (a + l <? 0) with false by (symmetry; apply Z.ltb_ge; lia).
  f_equal; lia.
Qed.

Lemma canvas_size_large (S : Z) :
  96 <= S <= 200 -> 129 <= canvas_size S 64 <= 233.
Proof.
  intros H. unfold canvas_size, padding, odd_up.
  pose proof (Z.div_mod (Z.max (S + 32) (64 + 32)) 2 ltac:(lia)) as D.
  pose proof (Z.mod_pos_bound (Z.max (S + 32) (64 + 32)) 2 ltac:(lia)) as B.
  destruct (Z.max (S + 32) (64 + 32) mod 2 =? 0) eqn:E.
  - apply Z.eqb_eq in E. lia.
  - apply Z.eqb_neq in E. lia.
Qed.

Lemma paste_offset_inside (n d : Z) :
  d <= n -> 0 <= paste_offset n d /\ paste_offset n d + d <= n.
Proof.
  intros H. unfold paste_offset.
  pose proof (Z.div_mod (n - d) 2 ltac:(lia)).
  pose proof (Z.mod_pos_bound (n - d) 2 ltac:(lia)). lia.
Qed.

(** From size 96 up, with a normalized image loaded, the doubled bitmap is
    pasted at the offset [(canvas - 128) // 2], which is not negative, it
    fits in the canvas, and the window takes the canvas size. *)
Lemma update_crosshair_renders (w : World) (img : ndarray) (S : Z) :
  resize_contract cv ->
  crosshair_image w = Some img ->
  rectangular img ->
  shape img = [64; 64; 4]%nat ->
  attrs w size = PInt S ->
  96 <= S <= 200 ->
  let n := canvas_size S 64 in
  let off := paste_offset n (2 * 64) in
  let w' := snd (update_crosshair w) in
  0 <= off
  /\ off + 2 * 64 <= n
  /\ fst (update_crosshair w) = Ok tt
  /\ geometry w' = Some (n, n)
  /\ exists q,
       cv2_resize img 128 128 INTER_LINEAR = Arr3 q
       /\ pixmap w'
          = Some (Arr3 (paste (repeat (repeat [0; 0; 0; 0] (Z.to_nat n))
                                 (Z.to_nat n))
                          (Z.to_nat off) (Z.to_nat off) q)).
Proof.
  intros HC Himg Hrect Hshape Hsize HS n off w'.
  pose proof (canvas_size_large S HS) as Hn. fold n in Hn.
  destruct (paste_offset_inside n (2 * 64) ltac:(lia)) as (Hoff & Hfit).
  fold off in Hoff, Hfit.
  split; [exact Hoff|]. split; [exact Hfit|].
  destruct (shape3_inv _ _ _ _ Hshape) as (q & Eq & Hr & Hc & Hch).
  assert (Hne : is_empty img = false)
    by (unfold is_empty; now rewrite Hr, Hc, Hch).
  destruct (HC img 128%nat 128%nat INTER_LINEAR Hrect Hne
              ltac:(lia) ltac:(lia)) as (_ & Hs).
  assert (Hs' : shape (cv2_resize img 128 128 INTER_LINEAR) = [128; 128; 4]%nat).
  { rewrite Hs. unfold resized_shape. rewrite Eq in *. now rewrite Hch. }
  destruct (shape3_inv _ _ _ _ Hs') as (q' & Eq' & Hr' & Hc' & Hch').
  change (wp update_crosshair
            (fun r w' =>
               r = Ok tt /\ geometry w' = Some (n, n)
               /\ exists q,
                    cv2_resize img 128 128 INTER_LINEAR = Arr3 q
                    /\ pixmap w'
                       = Some (Arr3 (paste (repeat (repeat [0; 0; 0; 0]
                                                      (Z.to_nat n)) (Z.to_nat n))
                                       (Z.to_nat off) (Z.to_nat off) q))) w).
  unfold update_crosshair. apply wp_try. wp_go.
  rewrite Himg. wp_go. rewrite Hsize. cbn [py_add_int]. wp_go.
  cbn [py_max py_odd_up]. rewrite Hr, Hc.
  change (odd_up (Z.max (S + padding) (Z.of_nat 64 + padding))) with n.
  rewrite py_format_small by lia.
  wp_go.
  rewrite np_zeros_small by (unfold small_alloc; nia).
  wp_go. rewrite repeat_length, Z2Nat.id by lia.
  unfold resize. rewrite Hne. cbn [orb Nat.mul Nat.add Nat.eqb].
  change (64 * 2)%nat with 128%nat. cbn [Nat.eqb].
  wp_go. rewrite Hr', Hc'.
  unfold assign_slice. rewrite repeat_length, Z2Nat.id by lia.
  change (paste_offset n (Z.of_nat 128)) with off.
  change (Z.of_nat 128) with (2 * 64).
  rewrite (slice_range_inside n off (2 * 64)) by lia.
  rewrite Eq'. rewrite Eq' in Hr', Hc', Hch'. rewrite Hr', Hc', Hch'.

  change (Z.of_nat 128) with (2 * 64). rewrite !Z.eqb_refl.
  cbn [andb Nat.eqb]. wp_go.
  split; [reflexivity|]. split; [reflexivity|].
  exists q'. split; reflexivity.
Qed.

(** * The rest of the program *)

Ltac rendering_done :=
  split; [reflexivity|];
  split; [unfold same_but_display; wp_norm; repeat split; congruence
         | reflexivity].

Lemma update_crosshair_rendering w :
  wp update_crosshair
     (fun r w' =>
        r = Ok tt /\ same_but_display w w' /\ displayed w' = rendering w) w.
Proof.
  unfold update_crosshair, rendering, composed, displayed.
  apply wp_try. wp_go.
  destruct (crosshair_image w) as [image|] eqn:E; wp_go.
  2: rendering_done.
  destruct (py_add_int _ _) as [a|e]; wp_go.
  2: rendering_done.
  destruct (py_format _) as [[]|e]; wp_go.
  2: rendering_done.
  destruct (np_zeros _) as [img|e]; wp_go.
  2: rendering_done.
  destruct (resize _ _ _ _) as [scaled|e]; wp_go.
  2: rendering_done.
  destruct (assign_slice _ _ _ _ _ _) as [img'|e]; wp_go.
  all: rendering_done.
Qed.

(** What [update_crosshair] displays is a function of [size], the stored
    image and what was displayed before. *)
Lemma displayed_update_crosshair (w : World) :
  displayed (snd (update_crosshair w)) = rendering w.
Proof. apply (update_crosshair_rendering w). Qed.

Lemma rendering_ext (w1 w2 : World) :
  attrs w1 size = attrs w2 size ->
  crosshair_image w1 = crosshair_image w2 ->
  displayed w1 = displayed w2 ->
  rendering w1 = rendering w2.
Proof.
  intros Hs Hi Hd. unfold rendering. now rewrite Hs, Hi, Hd.
Qed.

(** X1. Of the overlay's attributes, [update_crosshair] reads [size] alone:
    two states that agree on [size], on the stored image and on what is
    displayed end with the same pixmap and the same window size, whatever
    their colours, thickness, lengths, opacities and flags are. *)
Theorem display_reads_size_only (w1 w2 : World) :
  attrs w1 size = attrs w2 size ->
  crosshair_image w1 = crosshair_image w2 ->
  pixmap w1 = pixmap w2 ->
  geometry w1 = geometry w2 ->
  pixmap (snd (update_crosshair w1)) = pixmap (snd (update_crosshair w2))
  /\ geometry (snd (update_crosshair w1)) = geometry (snd (update_crosshair w2)).
Proof.
  intros Hs Hi Hp Hg.
  pose proof (displayed_update_crosshair w1) as D1.
  pose proof (displayed_update_crosshair w2) as D2.
  rewrite (rendering_ext w1 w2 Hs Hi) in D1
    by (unfold displayed; now rewrite Hp, Hg).
  rewrite <- D2 in D1. unfold displayed in D1.
  injection D1 as E1 E2. now split.
Qed.

Lemma rendering_idem (w w' : World) :
  attrs w' size = attrs w size ->
  crosshair_image w' = crosshair_image w ->
  displayed w' = rendering w ->
  rendering w' = rendering w.
Proof.
  intros Hs Hi Hd. unfold rendering in *. rewrite Hs, Hi.
  destruct (crosshair_image w) as [image|]; [|exact Hd].
  destruct (composed (attrs w size) image) as [[n img]|e]; [reflexivity|exact Hd].
Qed.

Section Keeps.

Variable R : World -> World -> Prop.
Variables (As : attr -> Prop) (Ss : slider -> Prop) (Cs : check -> Prop).
Hypothesis HR : respects R As Ss Cs.

Lemma keeps_ret {A} (a : A) : keeps R (ret a).
Proof. intros w. apply (r_refl _ _ _ _ HR). Qed.

Lemma keeps_lift {A} (r : result A) : keeps R (lift r).
Proof. intros w. apply (r_refl _ _ _ _ HR). Qed.

Lemma keeps_gets {A} (f : World -> A) : keeps R (gets f).
Proof. intros w. apply (r_refl _ _ _ _ HR). Qed.

Lemma keeps_bind {A B} (m : M A) (k : A -> M B) :
  keeps R m -> (forall a, keeps R (k a)) -> keeps R (bind m k).
Proof.
  intros Hm Hk w. unfold bind. specialize (Hm w).
  destruct (m w) as [[a|e] w1]; cbn [snd] in *; [|exact Hm].
  apply (r_trans _ _ _ _ HR _ w1); [exact Hm | apply Hk].
Qed.

Lemma keeps_try {A} (body : M A) (handler : exn -> M A) :
  keeps R body -> (forall e, keeps R (handler e)) ->
  keeps R (try_except body handler).
Proof.
  intros Hm Hk w. unfold try_except. specialize (Hm w).
  destruct (body w) as [[a|e] w1]; cbn [snd] in *; [exact Hm|].
  apply (r_trans _ _ _ _ HR _ w1); [exact Hm | apply Hk].
Qed.

Ltac keeps_step :=
  first
    [ apply keeps_ret
    | apply keeps_lift
    | apply keeps_gets
    | apply (r_print _ _ _ _ HR)
    | apply (r_render _ _ _ _ HR)
    | apply (r_attr _ _ _ _ HR); assumption
    | apply (r_check _ _ _ _ HR); assumption
    | apply keeps_bind; [|intros ?]
    | apply keeps_try; [|intros ?] ].

Ltac keeps_go := cbv beta iota zeta; repeat keeps_step.

Lemma keeps_valueChanged (s : slider) (z : Z) :
  As (slider_attr s) -> keeps R (valueChanged s z).
Proof.
  intros Ha. unfold valueChanged.
  destruct s; cbn [slider_attr] in Ha;
    unfold update_size, update_thickness, opacity_slot, update_opacity,
      center_on_screen;
    change (str_eqb (lit "inner") (lit "inner")) with true;
    change (str_eqb (lit "outer") (lit "inner")) with false;
    change (str_eqb (lit "outer") (lit "outer")) with true;
    change (str_eqb (lit "dot") (lit "inner")) with false;
    change (str_eqb (lit "dot") (lit "outer")) with false;
    change (str_eqb (lit "dot") (lit "dot")) with true;
    keeps_go.
Qed.

Lemma keeps_setValue (s : slider) (v : pyval) :
  As (slider_attr s) -> Ss s -> keeps R (setValue s v).
Proof.
  intros Ha Hs. unfold setValue.
  apply keeps_bind; [apply keeps_lift | intros z; cbv zeta].
  apply keeps_bind; [apply keeps_gets | intros cur].
  destruct (_ =? _); [apply keeps_ret|].
  apply keeps_bind; [|intros _; now apply keeps_valueChanged].
  apply (r_slider _ _ _ _ HR); [exact Hs | apply bound_range].
Qed.

Lemma keeps_stateChanged (c : check) (z : Z) :
  As (check_attr c) -> keeps R (stateChanged c z).
Proof.
  intros Ha. unfold stateChanged.
  destruct c; cbn [check_attr] in Ha;
    unfold update_outline, update_inner_visibility, update_outer_visibility,
      update_dot_visibility;
    keeps_go.
Qed.

Lemma keeps_setChecked (c : check) (v : pyval) :
  As (check_attr c) -> Cs c -> keeps R (setChecked c v).
Proof.
  intros Ha Hc. unfold setChecked.
  apply keeps_bind; [apply keeps_lift | intros b].
  apply keeps_bind; [apply keeps_gets | intros cur].
  destruct (Bool.eqb _ _); [apply keeps_ret|].
  apply keeps_bind; [|intros _; now apply keeps_stateChanged].
  now apply (r_check _ _ _ _ HR).
Qed.

Lemma keeps_choose_color (p : option (Z * Z * Z)) :
  As color -> keeps R (choose_color p).
Proof.
  intros Ha. unfold choose_color. destruct p as [[[r g] b]|]; keeps_go.
Qed.

Lemma keeps_choose_outline_color (p : option (Z * Z * Z)) :
  As outline_color -> keeps R (choose_outline_color p).
Proof.
  intros Ha. unfold choose_outline_color. destruct p as [[[r g] b]|]; keeps_go.
Qed.

Lemma keeps_convert (image : picture) :
  keeps R (convert_to_recommended_resolution image).
Proof.
  unfold convert_to_recommended_resolution. cbv zeta.
  apply keeps_try; [|intros e; keeps_go].
  apply keeps_bind; [keeps_go|intros _].
  apply keeps_bind; [|intros image'; keeps_go].
  destruct (array_of image); [keeps_go|].
  destruct (_ =? _)%nat; keeps_go.
Qed.

Lemma keeps_parse_valorant_code :
  (forall a, In a [show_outline; inner_length; outer_length; inner_opacity;
                   outline_thickness; outer_opacity] -> As a) ->
  (forall s, In s [inner_opacity_slider; outer_opacity_slider] -> Ss s) ->
  Cs outline_check ->
  keeps R parse_valorant_code.
Proof.
  intros Ha Hs Hc. unfold parse_valorant_code.
  apply keeps_bind; [apply keeps_gets | intros code].
  destruct code as [|c code]; [apply keeps_ret|].
  apply keeps_try; [|intros e; keeps_go].
  destruct (re_search _) as [g|]; [|keeps_go].
  assert (A1 : As show_outline) by (apply Ha; cbn [In]; tauto).
  assert (A2 : As inner_length) by (apply Ha; cbn [In]; tauto).
  assert (A3 : As outer_length) by (apply Ha; cbn [In]; tauto).
  assert (A4 : As inner_opacity) by (apply Ha; cbn [In]; tauto).
  assert (A5 : As outline_thickness) by (apply Ha; cbn [In]; tauto).
  assert (A6 : As outer_opacity) by (apply Ha; cbn [In]; tauto).
  assert (S1 : Ss inner_opacity_slider) by (apply Hs; cbn [In]; tauto).
  assert (S2 : Ss outer_opacity_slider) by (apply Hs; cbn [In]; tauto).
  repeat first
    [ apply keeps_setChecked; assumption
    | apply keeps_setValue; assumption
    | keeps_step ].
Qed.

Lemma keeps_load_settings :
  (forall a, a <> outline_color -> As a) ->
  (forall s, s <> dot_opacity_slider -> Ss s) ->
  (forall c, Cs c) ->
  keeps R load_settings.
Proof.
  intros Ha Hs Hc. unfold load_settings, load_attr.
  apply keeps_bind; [apply keeps_gets | intros f].
  destruct f as [f|]; [|apply keeps_ret].
  apply keeps_try; [|intros e; keeps_go].
  repeat first
    [ apply keeps_setChecked; [apply Ha; discriminate | apply Hc]
    | apply keeps_setValue; [apply Ha; discriminate | apply Hs; discriminate]
    | apply (r_attr _ _ _ _ HR); apply Ha; discriminate
    | keeps_step ].
Qed.

Lemma keeps_save_settings :
  (forall f, keeps R (set_settings_file f)) -> keeps R save_settings.
Proof.
  intros Hf. unfold save_settings.
  apply keeps_bind; [apply keeps_gets | intros settings].
  apply keeps_try; [|intros e; keeps_go].
  destruct (json_dumpable settings);
    (apply keeps_bind; [apply Hf | intros _]); [keeps_go|].
  intros w. apply (r_refl _ _ _ _ HR).
Qed.

Lemma keeps_load_crosshair_image (p : option (option picture)) :
  (forall i, keeps R (set_crosshair_image i)) ->
  keeps R (load_crosshair_image p).
Proof.
  intros Hi. unfold load_crosshair_image, center_on_screen.
  destruct p as [read|]; [|apply keeps_ret].
  apply keeps_try; [|intros e; keeps_go].
  apply keeps_bind; [keeps_go | intros _].
  destruct read as [image|]; [|keeps_go].
  apply keeps_bind; [keeps_go | intros _].
  apply keeps_bind; [apply keeps_convert | intros converted].
  destruct converted as [converted|]; [|keeps_go].
  apply keeps_bind; [keeps_go | intros _].
  apply keeps_bind; [apply Hi | intros _].
  keeps_go.
Qed.

Lemma keeps_startup :
  (forall a, a <> outline_color -> As a) ->
  (forall s, s <> dot_opacity_slider -> Ss s) ->
  (forall c, Cs c) ->
  keeps R startup.
Proof.
  intros Ha Hs Hc. unfold startup, center_on_screen.
  apply keeps_bind; [keeps_go | intros _].
  apply keeps_bind; [keeps_go | intros _].
  now apply keeps_load_settings.
Qed.

Lemma keeps_handle (e : event) :
  (forall a, As a) -> (forall s, Ss s) -> (forall c, Cs c) ->
  (forall t, keeps R (set_code_input t)) ->
  (forall f, keeps R (set_settings_file f)) ->
  (forall p, e = LoadImage p -> keeps R (load_crosshair_image p)) ->
  keeps R (handle e).
Proof.
  intros Ha Hs Hc Ht Hf Hl. destruct e; cbn [handle].
  - now apply keeps_setValue.
  - apply keeps_bind; [apply keeps_gets | intros cur].
    now apply keeps_setChecked.
  - apply keeps_bind; [apply Ht | intros _].
    apply keeps_parse_valorant_code; auto.
  - now apply keeps_choose_color.
  - now apply keeps_choose_outline_color.
  - now apply Hl.
  - now apply keeps_save_settings.
  - apply keeps_load_settings; auto.
  - apply Hf.
Qed.

Lemma keeps_run (es : list event) :
  (forall e, In e es -> keeps R (handle e)) -> forall w, R w (run es w).
Proof.
  induction es as [|e es IH]; intros He w; cbn [run].
  - apply (r_refl _ _ _ _ HR).
  - apply (r_trans _ _ _ _ HR _ (exec (handle e) w)).
    + apply He. now left.
    + apply IH. intros e' He'. apply He. now right.
Qed.

End Keeps.

Lemma touches_refl As Ss Cs w : touches As Ss Cs w w.
Proof. unfold touches. repeat split; auto. Qed.

Lemma touches_trans As Ss Cs w1 w2 w3 :
  touches As Ss Cs w1 w2 -> touches As Ss Cs w2 w3 -> touches As Ss Cs w1 w3.
Proof.
  intros (a1 & s1 & r1 & c1 & i1 & t1 & f1) (a2 & s2 & r2 & c2 & i2 & t2 & f2).
  unfold touches. repeat split; try congruence.
  - intros a Ha. now rewrite a2, a1.
  - intros s Hs. now rewrite s2, s1.
  - intros s. destruct (r2 s) as [E|H]; [|now right].
    rewrite E. apply r1.
  - intros c Hc. now rewrite c2, c1.
Qed.

Lemma touches_display As Ss Cs w w' :
  same_but_display w w' -> touches As Ss Cs w w'.
Proof.
  intros (a & i & s & c & t & f). unfold touches.
  rewrite a, i, s, c, t, f. repeat split; auto.
Qed.

Lemma touches_respects (As : list attr) (Ss : list slider) (Cs : list check) :
  respects (touches As Ss Cs)
    (fun a => In a As) (fun s => In s Ss) (fun c => In c Cs).
Proof.
  split.
  - apply touches_refl.
  - apply touches_trans.
  - intros l w. apply touches_display. unfold same_but_display, print, modify.
    cbn [snd]. wp_norm. repeat split.
  - intros w. apply touches_display. apply (update_crosshair_display w).
  - intros a v Ha w. unfold touches, set_attr, modify. cbn [snd]. wp_norm.
    repeat split; auto.
    intros a' Ha'. unfold upd.
    destruct (attr_eq_dec a' a) as [->|]; [contradiction | reflexivity].
  - intros s z Hs Hz w. unfold touches, set_slider, modify. cbn [snd]. wp_norm.
    repeat split; auto.
    + intros s' Hs'. unfold upd.
      destruct (slider_eq_dec s' s) as [->|]; [contradiction | reflexivity].
    + intros s'. unfold upd.
      destruct (slider_eq_dec s' s) as [->|]; [now right | now left].
  - intros c b Hc w. unfold touches, set_check, modify. cbn [snd]. wp_norm.
    repeat split; auto.
    intros c' Hc'. unfold upd.
    destruct (check_eq_dec c' c) as [->|]; [contradiction | reflexivity].
Qed.

(** X2. Whatever the settings file holds, [load_settings] never assigns
    [outline_color], never moves the dot opacity slider, and leaves the
    stored image, the text of the code field and the settings file as they
    were; the sliders it moves end within their ranges. *)
Theorem load_settings_footprint (w : World) :
  let w' := snd (load_settings w) in
  attrs w' outline_color = attrs w outline_color
  /\ slider_value w' dot_opacity_slider = slider_value w dot_opacity_slider
  /\ (forall s, slider_value w' s = slider_value w s
                \/ slider_min s <= slider_value w' s <= slider_max s)
  /\ crosshair_image w' = crosshair_image w
  /\ code_input w' = code_input w
  /\ settings_file w' = settings_file w.
Proof.
  intros w'.
  assert (T : touches
                [size; color; thickness; outline_thickness; show_outline;
                 inner_length; inner_opacity; show_inner; outer_length;
                 outer_opacity; show_outer; show_dot; dot_opacity; dot_size]
                [size_slider; thickness_slider; inner_opacity_slider;
                 outer_opacity_slider]
                [outline_check; inner_check; outer_check; dot_check] w w').
  { apply (keeps_load_settings _ _ _ _ (touches_respects _ _ _)).
    - intros a Ha. destruct a; cbn [In]; tauto.
    - intros s Hs. destruct s; cbn [In]; tauto.
    - intros c. destruct c; cbn [In]; tauto. }
  destruct T as (Ta & Ts & Tr & _ & Ti & Tt & Tf).
  split; [apply Ta; cbn [In]; intuition discriminate|].
  split; [apply Ts; cbn [In]; intuition discriminate|].
  split; [exact Tr|]. now repeat split.
Qed.

(** X3. On every input, the decoder assigns no attribute but the six of
    lines 492-497, moves no slider but the inner and outer opacity sliders,
    changes no check box but the outline one, and leaves the stored image,
    the code field and the settings file alone. *)
Theorem parse_valorant_code_footprint (w : World) :
  let w' := snd (parse_valorant_code w) in
  (forall a,
     ~ In a [show_outline; inner_length; outer_length; inner_opacity;
             outline_thickness; outer_opacity] ->
     attrs w' a = attrs w a)
  /\ (forall s,
        ~ In s [inner_opacity_slider; outer_opacity_slider] ->
        slider_value w' s = slider_value w s)
  /\ (forall c, c <> outline_check -> checked w' c = checked w c)
  /\ crosshair_image w' = crosshair_image w
  /\ code_input w' = code_input w
  /\ settings_file w' = settings_file w.
Proof.
  intros w'.
  assert (T : touches
                [show_outline; inner_length; outer_length; inner_opacity;
                 outline_thickness; outer_opacity]
                [inner_opacity_slider; outer_opacity_slider]
                [outline_check] w w').
  { apply (keeps_parse_valorant_code _ _ _ _ (touches_respects _ _ _)).
    - auto.
    - auto.
    - cbn [In]. tauto. }
  destruct T as (Ta & Ts & _ & Tc & Ti & Tt & Tf).
  repeat split; try assumption.
  intros c Hc. apply Tc. cbn [In]. intros [E|[]]. congruence.
Qed.

Lemma Forall_firstn {A} (P : A -> Prop) (n : nat) (l : list A) :
  Forall P l -> Forall P (firstn n l).
Proof.
  intros H. rewrite <- (firstn_skipn n l) in H.
  now apply Forall_app in H.
Qed.

Lemma Forall_skipn {A} (P : A -> Prop) (n : nat) (l : list A) :
  Forall P l -> Forall P (skipn n l).
Proof.
  intros H. rewrite <- (firstn_skipn n l) in H.
  now apply Forall_app in H.
Qed.

Lemma overwrite_length {A} (d : list A) (x : nat) (s : list A) :
  (x + List.length s <= List.length d)%nat ->
  List.length (overwrite d x s) = List.length d.
Proof.
  intros H. unfold overwrite.
  rewrite !length_app, length_firstn, length_skipn. lia.
Qed.

Lemma overwrite_Forall {A} (P : A -> Prop) (d : list A) (x : nat) (s : list A) :
  Forall P d -> Forall P s -> Forall P (overwrite d x s).
Proof.
  intros Hd Hs. unfold overwrite.
  apply Forall_app. split; [now apply Forall_firstn|].
  apply Forall_app. split; [exact Hs | now apply Forall_skipn].
Qed.

Lemma nth_overwrite {A} (d : list A) (x : nat) (s : list A) (j : nat) (def : A) :
  (x + List.length s <= List.length d)%nat ->
  nth j (overwrite d x s) def
  = if (x <=? j)%nat && (j <? x + List.length s)%nat
    then nth (j - x) s def else nth j d def.
Proof.
  intros H. unfold overwrite.
  destruct (x <=? j)%nat eqn:E1; cbn [andb].
  - apply Nat.leb_le in E1.
    rewrite app_nth2 by (rewrite length_firstn; lia).
    rewrite length_firstn, Nat.min_l by lia.
    destruct (j <? x + List.length s)%nat eqn:E2.
    + apply Nat.ltb_lt in E2. apply app_nth1. lia.
    + apply Nat.ltb_ge in E2. rewrite app_nth2 by lia.
      rewrite nth_skipn. f_equal. lia.
  - apply Nat.leb_gt in E1.
    rewrite app_nth1 by (rewrite length_firstn; lia).
    rewrite nth_firstn.
    replace (j <? x)%nat with true by (symmetry; apply Nat.ltb_lt; lia).
    reflexivity.
Qed.

Lemma paste_length (dst : list (list (list Z))) (y x : nat)
    (src : list (list (list Z))) :
  (y + List.length src <= List.length dst)%nat ->
  List.length (paste dst y x src) = List.length dst.
Proof.
  intros H. unfold paste.
  rewrite !length_app, length_map, length_combine, !length_firstn,
    !length_skipn. lia.
Qed.

Lemma nth_paste (dst : list (list (list Z))) (y x : nat)
    (src : list (list (list Z))) (i : nat) :
  (y + List.length src <= List.length dst)%nat ->
  nth i (paste dst y x src) []
  = if (y <=? i)%nat && (i <? y + List.length src)%nat
    then overwrite (nth i dst []) x (nth (i - y) src [])
    else nth i dst [].
Proof.
  intros H. unfold paste.
  destruct (y <=? i)%nat eqn:E1; cbn [andb].
  - apply Nat.leb_le in E1.
    rewrite app_nth2 by (rewrite length_firstn; lia).
    rewrite length_firstn, Nat.min_l by lia.
    assert (L : List.length (firstn (List.length src) (skipn y dst))
                = List.length src)
      by (rewrite length_firstn, length_skipn; lia).
    destruct (i <? y + List.length src)%nat eqn:E2.
    + apply Nat.ltb_lt in E2.
      rewrite app_nth1 by (rewrite length_map, length_combine, L; lia).
      set (f := fun ds : list (list Z) * list (list Z) =>
                  overwrite (fst ds) x (snd ds)).
      rewrite (nth_indep _ [] (f ([], [])))
        by (rewrite length_map, length_combine, L; lia).
      rewrite (map_nth f), (combine_nth _ _ _ _ _ L). unfold f. cbn [fst snd].
      rewrite nth_firstn.
      replace (i - y <? List.length src)%nat with true
        by (symmetry; apply Nat.ltb_lt; lia).
      rewrite nth_skipn. do 2 f_equal. lia.
    + apply Nat.ltb_ge in E2.
      rewrite app_nth2 by (rewrite length_map, length_combine, L; lia).
      rewrite length_map, length_combine, L, Nat.min_id.
      rewrite nth_skipn. f_equal. lia.
  - apply Nat.leb_gt in E1.
    rewrite app_nth1 by (rewrite length_firstn; lia).
    rewrite nth_firstn.
    replace (i <? y)%nat with true by (symmetry; apply Nat.ltb_lt; lia).
    reflexivity.
Qed.

Lemma paste_grid (n h w c : nat) (dst src : list (list (list Z))) (y x : nat) :
  grid n n c dst -> grid h w c src ->
  (y + h <= n)%nat -> (x + w <= n)%nat ->
  grid n n c (paste dst y x src).
Proof.
  intros (Ld & Fd) (Ls & Fs) Hy Hx. split.
  - rewrite paste_length; lia.
  - unfold paste. apply Forall_app. split; [now apply Forall_firstn|].
    apply Forall_app. split; [|now apply Forall_skipn].
    rewrite Forall_forall. intros r Hr.
    apply in_map_iff in Hr. destruct Hr as ((d & s) & <- & Hin).
    pose proof (in_combine_l _ _ _ _ Hin) as Hd.
    pose proof (in_combine_r _ _ _ _ Hin) as Hs.
    assert (Hd' : In d dst).
    { rewrite <- (firstn_skipn y dst). apply in_or_app. right.
      rewrite <- (firstn_skipn (List.length src) (skipn y dst)).
      apply in_or_app. now left. }
    rewrite Forall_forall in Fd, Fs.
    destruct (Fd d Hd') as (Ld' & Pd). destruct (Fs s Hs) as (Ls' & Ps).
    cbn [fst snd]. split.
    + rewrite overwrite_length; lia.
    + now apply overwrite_Forall.
Qed.

Lemma grid_shape (h w c : nat) (p : list (list (list Z))) :
  grid h w c p -> (0 < h)%nat -> (0 < w)%nat ->
  shape (Arr3 p) = [h; w; c] /\ rectangular (Arr3 p).
Proof.
  intros (L & F) Hh Hw.
  destruct p as [|r0 p]; [cbn in L; lia|].
  pose proof (Forall_inv F) as (L0 & F0).
  destruct r0 as [|x0 r0]; [cbn in L0; lia|].
  pose proof (Forall_inv F0) as Lx.
  split.
  - cbn [shape rows cols chans hd]. now rewrite L, L0, Lx.
  - cbn [rectangular cols chans hd]. rewrite L0, Lx. exact F.
Qed.

Lemma shape_grid (h w c : nat) (p : list (list (list Z))) :
  rectangular (Arr3 p) -> shape (Arr3 p) = [h; w; c] -> grid h w c p.
Proof.
  intros Hr Hs. cbn [shape rows cols chans] in Hs. injection Hs as H1 H2 H3.
  split; [exact H1|]. cbn [rectangular cols chans] in Hr.
  now rewrite H2, H3 in Hr.
Qed.

Lemma zeros_grid (n : nat) :
  grid n n 4 (repeat (repeat [0; 0; 0; 0] n) n).
Proof.
  split; [apply repeat_length|].
  apply Forall_forall. intros r Hr. apply repeat_spec in Hr. subst r.
  split; [apply repeat_length|].
  apply Forall_forall. intros x Hx. apply repeat_spec in Hx. now subst x.
Qed.

(** X4. With a 64x64 four-channel image stored and a size from 96 to 200,
    [update_crosshair] succeeds: the window takes the canvas size [n], and
    the pixmap is an [n]x[n] canvas that is transparent black everywhere
    but in the square of side 128 at offset [(n - 128) // 2], which holds
    the image scaled by two; the margin after the square is one more than
    the margin before it. *)
Theorem update_crosshair_pixels (w : World) (img : ndarray) (S : Z) :
  resize_contract cv ->
  crosshair_image w = Some img ->
  rectangular img ->
  shape img = [64; 64; 4]%nat ->
  attrs w size = PInt S ->
  96 <= S <= 200 ->
  let n := canvas_size S 64 in
  let off := paste_offset n (2 * 64) in
  let scaled := cv2_resize img 128 128 INTER_LINEAR in
  let inside :=
    fun k : nat => (Z.to_nat off <=? k)%nat && (k <? Z.to_nat off + 128)%nat in
  let w' := snd (update_crosshair w) in
  n = 2 * off + 129
  /\ fst (update_crosshair w) = Ok tt
  /\ geometry w' = Some (n, n)
  /\ exists canvas,
       pixmap w' = Some canvas
       /\ shape canvas = [Z.to_nat n; Z.to_nat n; 4%nat]
       /\ forall i j,
            (i < Z.to_nat n)%nat -> (j < Z.to_nat n)%nat ->
            pixel canvas i j
            = if inside i && inside j
              then pixel scaled (i - Z.to_nat off) (j - Z.to_nat off)
              else [0; 0; 0; 0].
Proof.
  intros HC Himg Hrect Hshape Hsize HS n off scaled inside w'.
  destruct (update_crosshair_renders w img S HC Himg Hrect Hshape Hsize HS)
    as (Hoff & Hfit & Hr & Hg & q & Eq & Hp).
  fold n in Hoff, Hfit, Hg, Hp. fold off in Hoff, Hfit, Hp. fold w' in Hg, Hp.
  pose proof (canvas_size_large S HS) as Hn. fold n in Hn.
  assert (Hodd : n = 2 * off + 129).
  { assert (O : Z.odd n = true) by apply odd_up_odd.
    apply Z.odd_spec in O. destruct O as (k & Hk).
    unfold off, paste_offset.
    pose proof (Z.div_mod (n - 2 * 64) 2 ltac:(lia)).
    pose proof (Z.mod_pos_bound (n - 2 * 64) 2 ltac:(lia)). lia. }
  split; [exact Hodd|]. split; [exact Hr|]. split; [exact Hg|].
  (* the scaled bitmap is a 128x128 grid of four channels *)
  destruct (shape3_inv _ _ _ _ Hshape) as (p & Ep & Hrows & Hcols & Hch).
  assert (Hne : is_empty img = false)
    by (unfold is_empty; now rewrite Hrows, Hcols, Hch).
  destruct (HC img 128%nat 128%nat INTER_LINEAR Hrect Hne
              ltac:(lia) ltac:(lia)) as (Hrs & Hs).
  assert (Gq : grid 128 128 4 q).
  { rewrite Eq in Hrs, Hs. apply shape_grid; [exact Hrs|].
    rewrite Hs. unfold resized_shape. rewrite Ep in *. now rewrite Hch. }
  set (m := Z.to_nat n) in *. set (o := Z.to_nat off) in *.
  assert (Ho : (o + 128 <= m)%nat) by (unfold o, m; lia).
  assert (Gc : grid m m 4 (paste (repeat (repeat [0; 0; 0; 0] m) m) o o q)).
  { apply (paste_grid m 128 128 4); [apply zeros_grid | exact Gq | lia | lia]. }
  exists (Arr3 (paste (repeat (repeat [0; 0; 0; 0] m) m) o o q)).
  split; [exact Hp|].
  split; [apply (grid_shape m m 4); [exact Gc | unfold m; lia | unfold m; lia]|].
  intros i j Hi Hj. unfold scaled. rewrite Eq. cbn [pixel].
  destruct Gq as (Lq & Fq).
  rewrite nth_paste by (rewrite repeat_length, Lq; lia).
  rewrite Lq. fold (inside i).
  rewrite (nth_repeat_lt _ _ Hi).
  destruct (inside i) eqn:Ei; cbn [andb].
  - assert (Li : List.length (nth (i - o) q []) = 128%nat).
    { rewrite Forall_forall in Fq. apply Fq. apply nth_In.
      unfold inside in Ei. apply andb_true_iff in Ei. destruct Ei as (E1 & E2).
      apply Nat.leb_le in E1. apply Nat.ltb_lt in E2. lia. }
    rewrite nth_overwrite by (rewrite repeat_length, Li; lia).
    rewrite Li. fold (inside j).
    destruct (inside j); [reflexivity|]. apply (nth_repeat_lt _ _ Hj).
  - apply (nth_repeat_lt _ _ Hj).
Qed.

Lemma sliders_respects :
  respects (preserves sliders_in_range)
    (fun _ => True) (fun _ => True) (fun _ => True).
Proof.
  split; unfold preserves, keeps.
  - auto.
  - auto.
  - intros l w H. exact H.
  - intros w H s. destruct (update_crosshair_display w) as (_ & D).
    destruct D as (_ & _ & Es & _). rewrite Es. apply H.
  - intros a v _ w H. exact H.
  - intros s z _ Hz w H s'. unfold set_slider, modify. cbn [snd]. wp_norm.
    unfold upd. destruct (slider_eq_dec s' s) as [->|]; [exact Hz | apply H].
  - intros c b _ w H. exact H.
Qed.

Lemma np_zeros_inv (v : pyval) (img : list (list (list Z))) :
  np_zeros v = Ok img ->
  exists n, v = PInt n /\ 0 <= n
            /\ img = repeat (repeat [0; 0; 0; 0] (Z.to_nat n)) (Z.to_nat n).
Proof.
  unfold np_zeros. destruct v; try discriminate.
  destruct (z <? 0) eqn:E; cbn [orb]; [discriminate|].
  destruct (2 ^ 63 <=? 4 * z * z); [discriminate|].
  destruct (_ || _); [|discriminate].
  intros [= <-]. apply Z.ltb_ge in E. eauto.
Qed.

Lemma py_odd_up_int (v : pyval) (n : Z) :
  py_odd_up v = PInt n -> exists m, v = PInt m /\ n = odd_up m.
Proof.
  destruct v; cbn [py_odd_up]; try discriminate.
  - intros [= <-]. eauto.
  - destruct (float_is_even f); discriminate.
Qed.

Lemma py_max_int (a : pyval) (b m : Z) :
  (exists z, a = PInt z) \/ (exists f, a = PFloat f) ->
  py_max a b = PInt m -> b <= m.
Proof.
  intros [(z & ->)|(f & ->)]; cbn [py_max].
  - intros [= <-]. lia.
  - destruct (B64.compare_Z b f) as [[| |]|]; try discriminate.
    intros [= <-]. lia.
Qed.

Lemma py_add_int_num (v a : pyval) (k : Z) :
  py_add_int v k = Ok a ->
  (exists z, a = PInt z) \/ (exists f, a = PFloat f).
Proof.
  destruct v; cbn [py_add_int]; try discriminate; intros [= <-]; eauto.
Qed.

Lemma odd_up_ge (m : Z) : m <= odd_up m.
Proof. unfold odd_up. destruct (_ =? _); lia. Qed.

(** A canvas that [update_crosshair] composes from a 64x64 image is square,
    of odd side at least 129. *)
Lemma composed_ok (sz : pyval) (image : ndarray) (n : Z)
    (img : list (list (list Z))) :
  resize_contract cv ->
  rectangular image -> shape image = [64; 64; 4]%nat ->
  composed sz image = Ok (n, img) ->
  Z.odd n = true /\ 129 <= n /\ rectangular (Arr3 img)
  /\ shape (Arr3 img) = [Z.to_nat n; Z.to_nat n; 4%nat].
Proof.
  intros HC Hrect Hshape. unfold composed.
  destruct (shape3_inv _ _ _ _ Hshape) as (p & Ep & Hrows & Hcols & Hch).
  assert (Hne : is_empty image = false)
    by (unfold is_empty; now rewrite Hrows, Hcols, Hch).
  destruct (py_add_int sz padding) as [a|e] eqn:Ea; [|discriminate].
  apply py_add_int_num in Ea. cbv zeta.
  destruct (py_format _) as [[]|e]; [|discriminate].
  destruct (np_zeros _) as [zeros|e] eqn:Ez; [|discriminate].
  apply np_zeros_inv in Ez. destruct Ez as (n0 & Ev & Hn0 & ->).
  apply py_odd_up_int in Ev. destruct Ev as (m & Em & ->).
  apply (py_max_int _ _ _ Ea) in Em.
  rewrite Hrows in Em. unfold padding in Em.
  rewrite repeat_length, Z2Nat.id by exact Hn0.
  set (k := odd_up m) in *.
  assert (Ok' : Z.odd k = true) by apply odd_up_odd.
  assert (Hk : 96 <= k) by (pose proof (odd_up_ge m); unfold k; lia).
  unfold resize. rewrite Hne, Hrows, Hcols. cbn [orb Nat.mul Nat.add Nat.eqb].
  destruct (HC image 128%nat 128%nat INTER_LINEAR Hrect Hne
              ltac:(lia) ltac:(lia)) as (Hrs & Hs).
  assert (Hs' : shape (cv2_resize image 128 128 INTER_LINEAR)
                = [128; 128; 4]%nat).
  { rewrite Hs. unfold resized_shape. rewrite Ep in *. now rewrite Hch. }
  destruct (shape3_inv _ _ _ _ Hs') as (q & Eq & Hr' & Hc' & Hch').
  change (64 * 2)%nat with 128%nat.
  rewrite Hr', Hc'. rewrite Eq in *.
  unfold assign_slice. rewrite repeat_length, Z2Nat.id by exact Hn0.
  pose proof (slice_range_length k (paste_offset k (Z.of_nat 128))
                (paste_offset k (Z.of_nat 128) + Z.of_nat 128) ltac:(lia)) as L.
  destruct (slice_range k (paste_offset k (Z.of_nat 128))
              (paste_offset k (Z.of_nat 128) + Z.of_nat 128))
    as [ys ylen] eqn:Er.
  cbn [snd] in L. rewrite Hr', Hc', Hch'.
  destruct (ylen =? Z.of_nat 128) eqn:Ey; cbn [andb]; [|discriminate].
  apply Z.eqb_eq in Ey.
  cbn [Nat.eqb].
  assert (Hk' : 129 <= k).
  { apply Z.odd_spec in Ok'. destruct Ok' as (j & Hj). lia. }
  destruct (paste_offset_inside k (Z.of_nat 128) ltac:(lia)) as (Ho1 & Ho2).
  rewrite (slice_range_inside k _ (Z.of_nat 128)) in Er by lia.
  injection Er as <- _.
  intros [= <- <-].
  split; [exact Ok'|]. split; [exact Hk'|].
  assert (G : grid (Z.to_nat k) (Z.to_nat k) 4
                (paste (repeat (repeat [0; 0; 0; 0] (Z.to_nat k)) (Z.to_nat k))
                   (Z.to_nat (paste_offset k (Z.of_nat 128)))
                   (Z.to_nat (paste_offset k (Z.of_nat 128))) q)).
  { apply (paste_grid _ 128 128 4); [apply zeros_grid | | lia | lia].
    apply shape_grid; [exact Hrs | exact Hs']. }
  destruct (grid_shape _ _ _ _ G ltac:(lia) ltac:(lia)) as (G1 & G2).
  now split.
Qed.

Lemma sound_display (w w' : World) :
  crosshair_image w' = crosshair_image w ->
  pixmap w' = pixmap w -> geometry w' = geometry w ->
  sound w -> sound w'.
Proof.
  unfold sound, image_ok, display_ok. intros -> -> ->. exact (fun H => H).
Qed.

Lemma sound_render (w : World) :
  resize_contract cv -> sound w -> sound (snd (update_crosshair w)).
Proof.
  intros HC (Hi & Hd).
  destruct (update_crosshair_rendering w) as (_ & D & Hr).
  destruct D as (_ & Ei & _).
  split; [unfold image_ok; now rewrite Ei|].
  unfold displayed, rendering in Hr. unfold image_ok in Hi.
  destruct (crosshair_image w) as [image|].
  - destruct Hi as (Hrect & Hshape).
    destruct (composed (attrs w size) image) as [[n img]|e] eqn:Ec.
    + injection Hr as Hp Hg. unfold display_ok. rewrite Hp, Hg.
      destruct (composed_ok _ _ _ _ HC Hrect Hshape Ec) as (H1 & H2 & H3 & H4).
      now repeat split.
    + injection Hr as Hp Hg. unfold display_ok. now rewrite Hp, Hg.
  - injection Hr as Hp Hg. unfold display_ok. now rewrite Hp, Hg.
Qed.

Lemma sound_respects :
  resize_contract cv ->
  respects (preserves sound) (fun _ => True) (fun _ => True) (fun _ => True).
Proof.
  intros HC. split; unfold preserves, keeps.
  - auto.
  - auto.
  - intros l w. now apply sound_display.
  - intros w. now apply sound_render.
  - intros a v _ w. now apply sound_display.
  - intros s z _ _ w. now apply sound_display.
  - intros c b _ w. now apply sound_display.
Qed.

Lemma wp_keeps {A} (I : World -> Prop) (m : M A)
    (Q : result A -> World -> Prop) (w : World) :
  keeps (preserves I) m -> I w -> (forall r w', I w' -> Q r w') -> wp m Q w.
Proof. intros Hk Hw HQ. apply HQ. now apply Hk. Qed.

Lemma sound_load_crosshair_image (p : option (option picture)) :
  resize_contract cv -> event_ok (LoadImage p) ->
  keeps (preserves sound) (load_crosshair_image p).
Proof.
  intros HC Hp.
  pose proof (sound_respects HC) as HR.
  assert (Hprint : forall (l : line) (Q : result unit -> World -> Prop) w0,
             sound w0 -> (forall r w', sound w' -> Q r w') ->
             wp (print l) Q w0).
  { intros l Q w0 H0 HQ. apply (wp_keeps sound); [|exact H0|exact HQ].
    apply (r_print _ _ _ _ HR). }
  assert (Hfail : forall e w0, sound w0 ->
             wp (print (Err "Error in load_crosshair_image: " e) ;;;
                 print Traceback) (fun _ w' => sound w') w0).
  { intros e w0 H0. apply wp_bind, Hprint; [exact H0|].
    intros [[]|e'] w1 H1; [|exact H1]. apply Hprint; auto. }
  intros w Hs.
  change (wp (load_crosshair_image p) (fun _ w' => sound w') w).
  unfold load_crosshair_image, center_on_screen.
  destruct p as [[[d image]|]|]; cbn [event_ok array_of] in Hp.
  3: exact Hs.
  2: { apply wp_try.
       apply wp_bind, Hprint; [exact Hs|].
       intros [[]|e] w1 H1; [|now apply Hfail].
       apply Hprint; [exact H1|].
       intros [[]|e] w2 H2; [exact H2|now apply Hfail]. }
  apply wp_try.
  apply wp_bind, Hprint; [exact Hs|]. intros [[]|e] w1 H1; [|now apply Hfail].
  apply wp_bind, Hprint; [exact H1|]. intros [[]|e] w2 H2; [|now apply Hfail].
  apply wp_bind. eapply wp_mono; [|apply (convert_spec d image w2 HC Hp)].
  intros r w3 (P3 & o & -> & Ho).
  assert (H3 : sound w3).
  { destruct P3 as ((_ & Ei & _) & Ep & Eg). now apply (sound_display w2). }
  destruct o as [out|].
  2: { apply Hprint; [exact H3|].
       intros [[]|e] w4 H4; [exact H4|now apply Hfail]. }
  destruct (Ho out eq_refl) as (_ & (N1 & N2 & _)).
  apply wp_bind, Hprint; [exact H3|]. intros [[]|e] w4 H4; [|now apply Hfail].
  apply wp_bind, wp_modify.
  set (w5 := mkWorld _ _ _ _ _ _ _ _ _).
  assert (H5 : sound w5).
  { destruct H4 as (_ & Hd). split; [|exact Hd].
    unfold image_ok, w5. wp_norm. now split. }
  clearbody w5.
  apply wp_bind, Hprint; [exact H5|]. intros [[]|e] w6 H6; [|now apply Hfail].
  apply wp_bind. apply (wp_keeps sound); [apply (r_render _ _ _ _ HR)|exact H6|].
  intros [[]|e] w7 H7; [|now apply Hfail].
  apply wp_bind, Hprint; [exact H7|]. intros [[]|e] w8 H8; [|now apply Hfail].
  apply wp_bind, wp_ret.
  apply Hprint; [exact H8|]. intros [[]|e] w9 H9; [exact H9|now apply Hfail].
Qed.

Lemma sound_handle (e : event) :
  resize_contract cv -> event_ok e -> keeps (preserves sound) (handle e).
Proof.
  intros HC He.
  apply (keeps_handle _ _ _ _ (sound_respects HC)); auto.
  - intros t w. unfold preserves. now apply sound_display.
  - intros f w. unfold preserves. now apply sound_display.
  - intros p ->. now apply sound_load_crosshair_image.
Qed.

Lemma sliders_handle (e : event) : keeps (preserves sliders_in_range) (handle e).
Proof.
  apply (keeps_handle _ _ _ _ sliders_respects); auto.
  - intros t w H. exact H.
  - intros f w H. exact H.
  - intros p _. apply (keeps_load_crosshair_image _ _ _ _ sliders_respects).
    intros i w H. exact H.
Qed.

(** X5. In every state the program reaches, every slider holds a value
    within the range [init_ui] gave it. *)
Theorem reachable_sliders_in_range (w : World) :
  reachable w ->
  forall s, slider_min s <= slider_value w s <= slider_max s.
Proof.
  intros (f & es & ->).
  apply (keeps_run _ _ _ _ sliders_respects es (fun e _ => sliders_handle e)).
  apply (keeps_startup _ _ _ _ sliders_respects); auto.
  intros s. unfold in_range, init_world. wp_norm.
  destruct s; cbn [initial_slider slider_min slider_max]; lia.
Qed.

(** X6. Whatever the user does and whatever the settings file holds, as long
    as the images read are rectangular arrays: the stored image is absent
    or a 64x64 bitmap of four channels; and the overlay shows nothing and
    was never resized, or it shows a square four-channel canvas of odd
    side, at least 129, and the window has that size. *)
Theorem reachable_display_sound (f : option file) (es : list event) :
  resize_contract cv ->
  Forall event_ok es ->
  let w := run es (exec startup (init_world f)) in
  image_ok w /\ display_ok w.
Proof.
  intros HC Hes w.
  pose proof (sound_respects HC) as HR.
  apply (keeps_run _ _ _ _ HR es).
  - intros e He. apply sound_handle; [exact HC|].
    rewrite Forall_forall in Hes. now apply Hes.
  - apply (keeps_startup _ _ _ _ HR); auto.
    split; exact I.
Qed.

Lemma try_except_ok (body : M unit) (handler : exn -> M unit) :
  (forall e w, fst (handler e w) = Ok tt) ->
  forall w, fst (try_except body handler w) = Ok tt.
Proof.
  intros H w. unfold try_except.
  destruct (body w) as [[[]|e] w1]; [reflexivity | apply H].
Qed.

Lemma update_crosshair_ok (w : World) : fst (update_crosshair w) = Ok tt.
Proof. apply (update_crosshair_display w). Qed.

Lemma load_settings_ok (w : World) : fst (load_settings w) = Ok tt.
Proof.
  unfold load_settings, bind, gets.
  destruct (settings_file w) as [f|]; [|reflexivity].
  now apply try_except_ok.
Qed.

(** X7. No handler lets an exception escape to the event loop: every
    event is handled to a normal return, and so is the start of the
    program, whatever the state, the input or the settings file. *)
Theorem handlers_never_raise :
  (forall e w, fst (handle e w) = Ok tt)
  /\ (forall w, fst (startup w) = Ok tt).
Proof.
  split.
  - intros e w. destruct e as [s v|c|text|p|p|p| | |f]; cbn [handle].
    + pose proof (bound_range s v) as Hb.
      apply (setValue_spec s (bound s v) w).
      destruct s; cbn [slider_min slider_max] in Hb; lia.
    + unfold bind, gets. apply (setChecked_spec c _ w).
    + unfold bind, set_code_input, modify.
      set (w1 := mkWorld _ _ _ _ _ _ _ _ _). clearbody w1.
      unfold parse_valorant_code, bind, gets.
      destruct (code_input w1); [reflexivity|].
      now apply try_except_ok.
    + unfold choose_color. destruct (byte3 p) as [[[r g] b]|]; [|reflexivity].
      unfold bind, set_attr, modify. apply update_crosshair_ok.
    + unfold choose_outline_color.
      destruct (byte3 p) as [[[r g] b]|]; [|reflexivity].
      unfold bind, set_attr, modify. apply update_crosshair_ok.
    + unfold load_crosshair_image. destruct p as [read|]; [|reflexivity].
      now apply try_except_ok.
    + unfold save_settings, bind, gets. now apply try_except_ok.
    + apply load_settings_ok.
    + reflexivity.
  - intros w. unfold startup, bind, center_on_screen, ret.
    pose proof (update_crosshair_ok w) as E.
    destruct (update_crosshair w) as [[[]|e] w1]; [|discriminate].
    apply load_settings_ok.
Qed.

Lemma agree_refl (w : World) : agree w w.
Proof. unfold agree. repeat split. Qed.

(** Assigning an attribute and rendering, done twice, ends where doing it
    once ends. *)
Lemma assign_render_twice (m : M unit) (a : attr) (x : pyval) :
  (forall w, m w = update_crosshair (exec (set_attr a x) w)) ->
  forall w,
    fst ((m ;;; m) w) = fst (m w)
    /\ agree (snd (m w)) (snd ((m ;;; m) w)).
Proof.
  intros Hm w. unfold bind.
  pose proof (Hm w) as E1.
  set (w0 := exec (set_attr a x) w) in *.
  destruct (update_crosshair_rendering w0) as (R1 & D1 & P1).
  destruct (m w) as [r1 w1] eqn:M1. rewrite <- E1 in R1, D1, P1.
  cbn [fst snd] in *. subst r1.
  pose proof (Hm w1) as E2.
  set (w1' := exec (set_attr a x) w1) in *.
  destruct (update_crosshair_rendering w1') as (R2 & D2 & P2).
  destruct (m w1) as [r2 w2] eqn:M2. rewrite <- E2 in R2, D2, P2.
  cbn [fst snd] in *. subst r2.
  split; [reflexivity|].
  destruct D1 as (a1 & i1 & s1 & c1 & t1 & f1).
  destruct D2 as (a2 & i2 & s2 & c2 & t2 & f2).
  unfold w0, w1', exec, set_attr, modify in *. cbn [snd] in *.
  wp_norm_in a1. wp_norm_in a2. wp_norm_in i1. wp_norm_in i2.
  wp_norm_in s1. wp_norm_in s2. wp_norm_in c1. wp_norm_in c2.
  wp_norm_in t1. wp_norm_in t2. wp_norm_in f1. wp_norm_in f2.
  assert (Ha : forall a', attrs w1 a' = attrs w2 a').
  { intros a'. rewrite a2, a1. symmetry. apply upd_twice. }
  assert (Hd : displayed w2 = displayed w1).
  { rewrite P2, P1. apply rendering_idem.
    - wp_norm. rewrite a1. apply upd_twice.
    - wp_norm. exact i1.
    - unfold displayed at 1. wp_norm. exact P1. }
  unfold displayed in Hd. injection Hd as Hp Hg.
  unfold agree. repeat split; congruence.
Qed.

Lemma assign_render_eq (a : attr) (x : pyval) (w : World) :
  (set_attr a x ;;; update_crosshair) w
  = update_crosshair (exec (set_attr a x) w).
Proof. reflexivity. Qed.

Lemma update_size_eq (v : Z) (w : World) :
  update_size v w = update_crosshair (exec (set_attr size (PInt v)) w).
Proof.
  unfold update_size, bind, center_on_screen, ret, exec, set_attr, modify.
  cbn [snd].
  match goal with |- context [update_crosshair ?w0] =>
    pose proof (update_crosshair_display w0) as (E & _);
    destruct (update_crosshair w0) as [[[]|e] w1]; [reflexivity|discriminate]
  end.
Qed.

(** X8. [init_ui] connects every slider and check box slot twice, so every
    change runs its slot twice; the second run changes nothing: once the
    slot has run, running it again leaves every attribute, the widgets, the
    stored image and the display as they are, and returns as the first
    run did. *)
Theorem slots_run_twice :
  (forall s v,
     valueChanged s v = (slider_slot s v ;;; slider_slot s v)
     /\ forall w,
          fst (valueChanged s v w) = fst (slider_slot s v w)
          /\ agree (snd (slider_slot s v w)) (snd (valueChanged s v w)))
  /\ (forall c state,
        stateChanged c state = (check_slot c state ;;; check_slot c state)
        /\ forall w,
             fst (stateChanged c state w) = fst (check_slot c state w)
             /\ agree (snd (check_slot c state w))
                  (snd (stateChanged c state w))).
Proof.
  split.
  - intros s v. split; [now destruct s|]. intros w.
    destruct s; unfold valueChanged; cbn [slider_slot].
    + apply (assign_render_twice _ size (PInt v)). apply update_size_eq.
    + apply (assign_render_twice _ thickness (PInt v)). reflexivity.
    + unfold opacity_slot.
      destruct (py_truediv v 100) as [f|e];
        [|split; [reflexivity | apply agree_refl]].
      apply (assign_render_twice (update_opacity (lit "inner") f)
               inner_opacity (PFloat f)). reflexivity.
    + unfold opacity_slot.
      destruct (py_truediv v 100) as [f|e];
        [|split; [reflexivity | apply agree_refl]].
      apply (assign_render_twice (update_opacity (lit "outer") f)
               outer_opacity (PFloat f)). reflexivity.
    + unfold opacity_slot.
      destruct (py_truediv v 100) as [f|e];
        [|split; [reflexivity | apply agree_refl]].
      apply (assign_render_twice (update_opacity (lit "dot") f)
               dot_opacity (PFloat f)). reflexivity.
  - intros c state. split; [now destruct c|]. intros w.
    destruct c; unfold stateChanged; cbn [check_slot].
    + apply (assign_render_twice _ show_outline (PBool (negb (state =? 0)))).
      reflexivity.
    + apply (assign_render_twice _ show_inner (PBool (negb (state =? 0)))).
      reflexivity.
    + apply (assign_render_twice _ show_outer (PBool (negb (state =? 0)))).
      reflexivity.
    + apply (assign_render_twice _ show_dot (PBool (negb (state =? 0)))).
      reflexivity.
Qed.

Lemma eight_groups (s : str) (g : list str) :
  re_search s = Some g ->
  exists g1 g2 g3 g4 g5 g6 g7 g8, g = [g1; g2; g3; g4; g5; g6; g7; g8].
Proof.
  intros H. destruct (re_search_sound _ _ H) as (_ & Hlen & _).
  do 8 (destruct g as [|? g]; [discriminate|]).
  destruct g; [|discriminate]. repeat eexists.
Qed.

(** X9. When the pattern matches but one of the eight captured numbers has
    more than 4300 digits, [int()] raises [ValueError] before anything is
    assigned: the decoder prints the error and changes nothing else. *)
Theorem decode_rejects_long_numbers (w : World) (g : list str) :
  re_search (code_input w) = Some g ->
  all_short g = false ->
  parse_valorant_code w
  = (Ok tt, printed (Err "Error parsing crosshair code: " ValueError) w).
Proof.
  intros H Hs.
  destruct (eight_groups _ _ H) as (g1 & g2 & g3 & g4 & g5 & g6 & g7 & g8 & ->).
  apply wp_eq. unfold parse_valorant_code. apply wp_bind, wp_gets.
  destruct (code_input w) as [|c s] eqn:E; [discriminate|].
  rewrite H. apply wp_try.
  unfold group. cbn [nth Nat.sub].
  unfold all_short in Hs. cbn [forallb] in Hs.
  repeat (apply wp_bind, wp_lift; unfold py_int_of_digits at 1;
          match goal with
          | |- context [(int_max_str_digits <? ?n)%nat] =>
              destruct (int_max_str_digits <? n)%nat;
              [ wp_go; reflexivity | cbn [negb andb] in Hs ]
          end).
  discriminate.
Qed.

(** X10. The decoder is not atomic.  When the numbers are short enough for
    [int()] but the inner opacity percentage is too large for its quotient
    by 100 to be a float, the division raises [OverflowError] after
    [show_outline], [inner_length] and [outer_length] have been assigned:
    these three keep their new values, the outline check box is not
    brought in line, and the decoder prints the error. *)
Theorem decode_overflow_partial (w : World) (g : list str) :
  re_search (code_input w) = Some g ->
  all_short g = true ->
  py_truediv (number g 4) 100 = Raise OverflowError ->
  parse_valorant_code w
  = (Ok tt,
     printed (Err "Error parsing crosshair code: " OverflowError)
       (exec (set_attr show_outline (PBool (negb (number g 1 =? 0))) ;;;
              set_attr inner_length (PInt (number g 2 * 2)) ;;;
              set_attr outer_length (PInt (number g 3 * 2))) w)).
Proof.
  intros H Hs Ho.
  destruct (eight_groups _ _ H) as (g1 & g2 & g3 & g4 & g5 & g6 & g7 & g8 & ->).
  apply wp_eq. unfold parse_valorant_code. apply wp_bind, wp_gets.
  destruct (code_input w) as [|c s] eqn:E; [discriminate|].
  rewrite H. apply wp_try.
  unfold number, group in *. cbn [nth Nat.sub] in *.
  unfold all_short in Hs. cbn [forallb] in Hs.
  repeat (apply wp_bind, wp_lift; unfold py_int_of_digits at 1;
          match goal with
          | |- context [(int_max_str_digits <? ?n)%nat] =>
              destruct (int_max_str_digits <? n)%nat;
              [ cbn [negb andb] in Hs; rewrite ?andb_false_r in Hs;
                discriminate
              | ]
          end).
  wp_go. rewrite Ho. wp_go.
  unfold printed, exec, bind, set_attr, modify. cbn [snd]. wp_norm.
  now rewrite E.
Qed.

Lemma assign_render_twice_effect (m : M unit) (a : attr) (x : pyval) :
  (forall w, m w = update_crosshair (exec (set_attr a x) w)) ->
  forall w,
    fst ((m ;;; m) w) = Ok tt
    /\ widgets_are (upd attr_eq_dec a x (attrs w)) (slider_value w) (checked w)
         w (snd ((m ;;; m) w)).
Proof.
  intros Hm w.
  destruct (assign_render_twice m a x Hm w) as (Hr & Hag).
  rewrite Hr. rewrite (Hm w) in *.
  destruct (update_crosshair_display (exec (set_attr a x) w)) as (E & D).
  split; [exact E|].
  destruct D as (a1 & i1 & s1 & c1 & t1 & f1).
  destruct Hag as (a2 & i2 & _ & _ & s2 & c2 & t2 & f2).
  unfold exec, set_attr, modify in *. cbn [snd] in *.
  wp_norm_in a1. wp_norm_in i1. wp_norm_in s1. wp_norm_in c1.
  wp_norm_in t1. wp_norm_in f1.
  unfold widgets_are. repeat split.
  - intros a'. now rewrite <- a2, a1.
  - intros s. now rewrite <- s2, s1.
  - intros c. now rewrite <- c2, c1.
  - congruence.
  - congruence.
  - congruence.
Qed.

Lemma valueChanged_effect (s : slider) (z : Z) (w : World) :
  in_range s z ->
  fst (valueChanged s z w) = Ok tt
  /\ widgets_are (upd attr_eq_dec (slider_attr s) (slider_store s z) (attrs w))
       (slider_value w) (checked w) w (snd (valueChanged s z w)).
Proof.
  intros Hz. unfold in_range in Hz.
  destruct s; cbn [slider_min slider_max] in Hz;
    unfold valueChanged; cbn [slider_attr slider_store].
  - apply (assign_render_twice_effect _ size (PInt z)). apply update_size_eq.
  - apply (assign_render_twice_effect _ thickness (PInt z)). reflexivity.
  - unfold opacity_slot. rewrite (py_truediv_percent z Hz).
    apply (assign_render_twice_effect
             (update_opacity (lit "inner") (B64.div_Z z 100)) inner_opacity).
    reflexivity.
  - unfold opacity_slot. rewrite (py_truediv_percent z Hz).
    apply (assign_render_twice_effect
             (update_opacity (lit "outer") (B64.div_Z z 100)) outer_opacity).
    reflexivity.
  - unfold opacity_slot. rewrite (py_truediv_percent z Hz).
    apply (assign_render_twice_effect
             (update_opacity (lit "dot") (B64.div_Z z 100)) dot_opacity).
    reflexivity.
Qed.

Lemma stateChanged_effect (c : check) (b : bool) (w : World) :
  fst (stateChanged c (if b then 2 else 0) w) = Ok tt
  /\ widgets_are (upd attr_eq_dec (check_attr c) (PBool b) (attrs w))
       (slider_value w) (checked w) w
       (snd (stateChanged c (if b then 2 else 0) w)).
Proof.
  destruct c, b; unfold stateChanged; cbn [check_attr];
    match goal with
    | |- context [upd attr_eq_dec ?a ?x _] =>
        apply (assign_render_twice_effect _ a x); reflexivity
    end.
Qed.

(** [setValue]: the slider takes the bounded value; when that is a change,
    the slot assigns the slider's attribute. *)
Lemma setValue_effect (s : slider) (p : Z) (w : World) :
  - 2 ^ 31 <= p < 2 ^ 31 ->
  fst (setValue s (PInt p) w) = Ok tt
  /\ widgets_are
       (if bound s p =? slider_value w s then attrs w
        else upd attr_eq_dec (slider_attr s) (slider_store s (bound s p))
               (attrs w))
       (upd slider_eq_dec s (bound s p) (slider_value w)) (checked w)
       w (snd (setValue s (PInt p) w)).
Proof.
  intros Hp. unfold setValue, bind, lift, gets.
  rewrite (to_c_int_ok p Hp).
  destruct (bound s p =? slider_value w s) eqn:E.
  - apply Z.eqb_eq in E. split; [reflexivity|]. cbn [snd ret].
    unfold widgets_are. repeat split.
    intros s'. unfold upd. now destruct (slider_eq_dec s' s) as [->|].
  - unfold set_slider, modify.
    set (w1 := mkWorld _ _ _ _ _ _ _ _ _).
    destruct (valueChanged_effect s (bound s p) w1 (bound_range s p))
      as (Hr & Ha & Hs & Hc & Hi & Ht & Hf).
    split; [exact Hr|]. unfold widgets_are.
    repeat split; assumption.
Qed.

Lemma setChecked_effect (c : check) (b : bool) (w : World) :
  fst (setChecked c (PBool b) w) = Ok tt
  /\ widgets_are
       (if Bool.eqb b (checked w c) then attrs w
        else upd attr_eq_dec (check_attr c) (PBool b) (attrs w))
       (slider_value w) (upd check_eq_dec c b (checked w))
       w (snd (setChecked c (PBool b) w)).
Proof.
  unfold setChecked, bind, lift, gets. cbn [to_c_bool].
  destruct (Bool.eqb b (checked w c)) eqn:E.
  - apply Bool.eqb_prop in E. split; [reflexivity|]. cbn [snd ret].
    unfold widgets_are. repeat split.
    intros c'. unfold upd. now destruct (check_eq_dec c' c) as [->|].
  - unfold set_check, modify.
    set (w1 := mkWorld _ _ _ _ _ _ _ _ _).
    destruct (stateChanged_effect c b w1) as (Hr & Ha & Hs & Hc & Hi & Ht & Hf).
    split; [exact Hr|]. unfold widgets_are.
    repeat split; assumption.
Qed.

Lemma saved_lookup (w : World) :
  (forall d, py_get (json_image (settings_of w)) (lit "size") d
                 = Ok (json_image (attrs w size)))
  /\ (forall d, py_get (json_image (settings_of w)) (lit "color") d
                 = Ok (json_image (attrs w color)))
  /\ (forall d, py_get (json_image (settings_of w)) (lit "thickness") d
                 = Ok (json_image (attrs w thickness)))
  /\ (forall d, py_get (json_image (settings_of w)) (lit "outline_thickness") d
                 = Ok (json_image (attrs w outline_thickness)))
  /\ (forall d, py_get (json_image (settings_of w)) (lit "show_outline") d
                 = Ok (json_image (attrs w show_outline)))
  /\ (forall d, py_get (json_image (settings_of w)) (lit "inner_length") d
                 = Ok (json_image (attrs w inner_length)))
  /\ (forall d, py_get (json_image (settings_of w)) (lit "inner_opacity") d
                 = Ok (json_image (attrs w inner_opacity)))
  /\ (forall d, py_get (json_image (settings_of w)) (lit "show_inner") d
                 = Ok (json_image (attrs w show_inner)))
  /\ (forall d, py_get (json_image (settings_of w)) (lit "outer_length") d
                 = Ok (json_image (attrs w outer_length)))
  /\ (forall d, py_get (json_image (settings_of w)) (lit "outer_opacity") d
                 = Ok (json_image (attrs w outer_opacity)))
  /\ (forall d, py_get (json_image (settings_of w)) (lit "show_outer") d
                 = Ok (json_image (attrs w show_outer)))
  /\ (forall d, py_get (json_image (settings_of w)) (lit "show_dot") d
                 = Ok (json_image (attrs w show_dot)))
  /\ (forall d, py_get (json_image (settings_of w)) (lit "dot_opacity") d
                 = Ok (json_image (attrs w dot_opacity)))
  /\ (forall d, py_get (json_image (settings_of w)) (lit "dot_size") d
                 = Ok (json_image (attrs w dot_size))).
Proof. repeat split. Qed.

Lemma widgets_are_refl (w : World) :
  widgets_are (attrs w) (slider_value w) (checked w) w w.
Proof. unfold widgets_are. repeat split. Qed.

Lemma upd_ext (a : attr) (v : pyval) (f g : attr -> pyval) :
  (forall x, g x = f x) ->
  forall x, upd attr_eq_dec a v g x = upd attr_eq_dec a v f x.
Proof. intros H x. unfold upd. now destruct (attr_eq_dec x a). Qed.

Lemma upd_same (a : attr) (v : pyval) (f : attr -> pyval) :
  f a = v -> forall x, upd attr_eq_dec a v f x = f x.
Proof. intros H x. unfold upd. now destruct (attr_eq_dec x a) as [->|]. Qed.

Lemma upd_slider_ext (s : slider) (z : Z) (f g : slider -> Z) :
  (forall x, g x = f x) ->
  forall x, upd slider_eq_dec s z g x = upd slider_eq_dec s z f x.
Proof. intros H x. unfold upd. now destruct (slider_eq_dec x s). Qed.

Lemma upd_check_ext (c : check) (b : bool) (f g : check -> bool) :
  (forall x, g x = f x) ->
  forall x, upd check_eq_dec c b g x = upd check_eq_dec c b f x.
Proof. intros H x. unfold upd. now destruct (check_eq_dec x c). Qed.

Lemma print_step (l : line) f sv ck w0 w (Q : result unit -> World -> Prop) :
  widgets_are f sv ck w0 w ->
  (forall w', widgets_are f sv ck w0 w' -> Q (Ok tt) w') ->
  wp (print l) Q w.
Proof. intros H HQ. apply wp_modify, HQ. exact H. Qed.

Lemma set_attr_step (a : attr) (v : pyval) f sv ck w0 w
    (Q : result unit -> World -> Prop) :
  widgets_are f sv ck w0 w ->
  (forall w', widgets_are (upd attr_eq_dec a v f) sv ck w0 w' -> Q (Ok tt) w') ->
  wp (set_attr a v) Q w.
Proof.
  intros (Ha & Hr) HQ. apply wp_modify, HQ.
  split; [|exact Hr]. wp_norm. now apply upd_ext.
Qed.

Lemma get_attr_step (a : attr) f sv ck w0 w (Q : result pyval -> World -> Prop) :
  widgets_are f sv ck w0 w -> Q (Ok (f a)) w -> wp (get_attr a) Q w.
Proof. intros (Ha & _) HQ. apply wp_gets. now rewrite Ha. Qed.

Lemma update_crosshair_step f sv ck w0 w (Q : result unit -> World -> Prop) :
  widgets_are f sv ck w0 w ->
  (forall w', widgets_are f sv ck w0 w' -> Q (Ok tt) w') ->
  wp update_crosshair Q w.
Proof.
  intros (Ha & Hs & Hc & Hi & Ht & Hf) HQ. apply wp_update_crosshair.
  intros w' (a1 & i1 & s1 & c1 & t1 & f1). apply HQ.
  unfold widgets_are. rewrite a1, i1, s1, c1, t1, f1. now repeat split.
Qed.

Lemma setValue_step (s : slider) (p : Z) f sv ck w0 w
    (Q : result unit -> World -> Prop) :
  - 2 ^ 31 <= p < 2 ^ 31 ->
  widgets_are f sv ck w0 w ->
  (forall w',
     widgets_are
       (if bound s p =? sv s then f
        else upd attr_eq_dec (slider_attr s) (slider_store s (bound s p)) f)
       (upd slider_eq_dec s (bound s p) sv) ck w0 w' ->
     Q (Ok tt) w') ->
  wp (setValue s (PInt p)) Q w.
Proof.
  intros Hp (Ha & Hs & Hc & Hi & Ht & Hf) HQ.
  destruct (setValue_effect s p w Hp) as (Hr & a1 & s1 & c1 & i1 & t1 & f1).
  unfold wp. rewrite Hr. apply HQ. unfold widgets_are.
  rewrite i1, t1, f1. repeat split; try assumption.
  - intros a. rewrite a1, (Hs s).
    destruct (bound s p =? sv s); [apply Ha | now apply upd_ext].
  - intros s'. rewrite s1. now apply upd_slider_ext.
  - intros c. now rewrite c1.
Qed.

Lemma setChecked_step (c : check) (b : bool) f sv ck w0 w
    (Q : result unit -> World -> Prop) :
  widgets_are f sv ck w0 w ->
  (forall w',
     widgets_are
       (if Bool.eqb b (ck c) then f
        else upd attr_eq_dec (check_attr c) (PBool b) f)
       sv (upd check_eq_dec c b ck) w0 w' ->
     Q (Ok tt) w') ->
  wp (setChecked c (PBool b)) Q w.
Proof.
  intros (Ha & Hs & Hc & Hi & Ht & Hf) HQ.
  destruct (setChecked_effect c b w) as (Hr & a1 & s1 & c1 & i1 & t1 & f1).
  unfold wp. rewrite Hr. apply HQ. unfold widgets_are.
  rewrite i1, t1, f1. repeat split; try assumption.
  - intros a. rewrite a1, (Hc c).
    destruct (Bool.eqb b (ck c)); [apply Ha | now apply upd_ext].
  - intros s'. now rewrite s1.
  - intros c'. rewrite c1. now apply upd_check_ext.
Qed.

Lemma setValue_sync_step (s : slider) (p : Z) f sv ck w0 w
    (Q : result unit -> World -> Prop) :
  - 2 ^ 31 <= p < 2 ^ 31 ->
  widgets_are f sv ck w0 w ->
  f (slider_attr s) = slider_store s (bound s p) ->
  (forall w',
     widgets_are f (upd slider_eq_dec s (bound s p) sv) ck w0 w' ->
     Q (Ok tt) w') ->
  wp (setValue s (PInt p)) Q w.
Proof.
  intros Hp W Hf HQ. apply (setValue_step s p f sv ck w0 w Q Hp W).
  intros w' (Ha & Hr). apply HQ. split; [|exact Hr].
  intros a. rewrite Ha.
  destruct (bound s p =? sv s); [reflexivity | now apply upd_same].
Qed.

Lemma setChecked_sync_step (c : check) (b : bool) f sv ck w0 w
    (Q : result unit -> World -> Prop) :
  widgets_are f sv ck w0 w ->
  f (check_attr c) = PBool b ->
  (forall w',
     widgets_are f sv (upd check_eq_dec c b ck) w0 w' -> Q (Ok tt) w') ->
  wp (setChecked c (PBool b)) Q w.
Proof.
  intros W Hf HQ. apply (setChecked_step c b f sv ck w0 w Q W).
  intros w' (Ha & Hr). apply HQ. split; [|exact Hr].
  intros a. rewrite Ha.
  destruct (Bool.eqb b (ck c)); [reflexivity | now apply upd_same].
Qed.

Ltac w_step :=
  lazymatch goal with
  | H : widgets_are _ _ _ _ ?w |- wp (bind ?m _) _ ?w =>
      lazymatch m with
      | print _ => apply wp_bind; apply (print_step _ _ _ _ _ _ _ H)
      | set_attr _ _ => apply wp_bind; apply (set_attr_step _ _ _ _ _ _ _ _ H)
      | update_crosshair =>
          apply wp_bind; apply (update_crosshair_step _ _ _ _ _ _ H)
      | bind (lift (Ok _)) _ =>
          apply wp_bind; apply wp_bind, wp_lift;
          apply (set_attr_step _ _ _ _ _ _ _ _ H)
      end;
      clear H; intros ? H; cbv beta iota
  | H : widgets_are _ _ _ _ ?w |- wp (print _) _ ?w =>
      apply (print_step _ _ _ _ _ _ _ H); clear H; intros ? H
  end.

Lemma in_range_c_int (s : slider) (z : Z) :
  in_range s z -> - 2 ^ 31 <= z < 2 ^ 31.
Proof. unfold in_range. destruct s; cbn [slider_min slider_max]; lia. Qed.

Lemma bound_in_range (s : slider) (z : Z) : in_range s z -> bound s z = z.
Proof. unfold in_range, bound. lia. Qed.

(** The fourteen assignments of [load_settings], from what is read. *)
Lemma load_settings_assigns (S : pyval) (f : attr -> pyval) (w : World)
    (rest : M unit) (Q : result unit -> World -> Prop) :
  reads S f ->
  (forall w',
     widgets_are
       (fun a => if attr_eq_dec a outline_color then attrs w a else f a)
       (slider_value w) (checked w) w w' ->
     wp rest Q w') ->
  wp (load_attr S size "size" (PInt 100) ;;;
      v <- lift (py_get S (lit "color")
                   (PTuple [PInt 0; PInt 255; PInt 0])) ;;
      t <- lift (py_tuple v) ;;
      set_attr color t ;;;
      load_attr S thickness "thickness" (PInt 2) ;;;
      load_attr S outline_thickness "outline_thickness" (PInt 1) ;;;
      load_attr S show_outline "show_outline" (PBool false) ;;;
      load_attr S inner_length "inner_length" (PInt 4) ;;;
      load_attr S inner_opacity "inner_opacity" (PFloat B64.one) ;;;
      load_attr S show_inner "show_inner" (PBool true) ;;;
      load_attr S outer_length "outer_length" (PInt 0) ;;;
      load_attr S outer_opacity "outer_opacity" (PFloat B64.one) ;;;
      load_attr S show_outer "show_outer" (PBool true) ;;;
      load_attr S show_dot "show_dot" (PBool false) ;;;
      load_attr S dot_opacity "dot_opacity" (PFloat B64.one) ;;;
      load_attr S dot_size "dot_size" (PInt 2) ;;;
      rest) Q w.
Proof.
  intros (L1 & (v & L2 & T2) & L3 & L4 & L5 & L6 & L7 & L8 & L9 & L10 & L11
          & L12 & L13 & L14) HQ.
  pose proof (widgets_are_refl w) as W.
  unfold load_attr.
  rewrite L1, L2, L3, L4, L5, L6, L7, L8, L9, L10, L11, L12, L13, L14.
  w_step.
  apply wp_bind, wp_lift. apply wp_bind, wp_lift. rewrite T2.
  do 13 w_step.
  apply HQ. destruct W as (Ha & Hr). split; [|exact Hr].
  intros a. rewrite Ha.
  destruct a; upd_simpl;
    match goal with
    | |- context [attr_eq_dec ?a ?b] =>
        destruct (attr_eq_dec a b); congruence
    end.
Qed.

(** Loading a document whose values the widgets can show as they are. *)
Lemma load_settings_reads (S : pyval) (f : attr -> pyval) (sv : slider -> Z)
    (ck : check -> bool) (w : World) :
  settings_file w = Some (Json S) ->
  reads S f ->
  (forall s, s <> dot_opacity_slider ->
             in_range s (sv s) /\ f (slider_attr s) = slider_store s (sv s)) ->
  py_int_times_100 (f inner_opacity) = Ok (sv inner_opacity_slider) ->
  py_int_times_100 (f outer_opacity) = Ok (sv outer_opacity_slider) ->
  (forall c, f (check_attr c) = PBool (ck c)) ->
  wp load_settings
     (fun r w' =>
        r = Ok tt
        /\ last_printed w' = Text "Settings loaded successfully!"
        /\ (forall a, a <> outline_color -> attrs w' a = f a)
        /\ attrs w' outline_color = attrs w outline_color
        /\ (forall s, s <> dot_opacity_slider -> slider_value w' s = sv s)
        /\ slider_value w' dot_opacity_slider
           = slider_value w dot_opacity_slider
        /\ (forall c, checked w' c = ck c)
        /\ crosshair_image w' = crosshair_image w
        /\ settings_file w' = settings_file w) w.
Proof.
  intros Hfile Hreads Hsl Hin Hout Hck.
  destruct (Hsl size_slider ltac:(discriminate)) as (R1 & A1).
  destruct (Hsl thickness_slider ltac:(discriminate)) as (R2 & A2).
  destruct (Hsl inner_opacity_slider ltac:(discriminate)) as (R3 & A3).
  destruct (Hsl outer_opacity_slider ltac:(discriminate)) as (R4 & A4).
  pose proof (Hck outline_check) as C1. pose proof (Hck inner_check) as C2.
  pose proof (Hck outer_check) as C3. pose proof (Hck dot_check) as C4.
  cbn [slider_attr slider_store] in A1, A2, A3, A4.
  cbn [check_attr] in C1, C2, C3, C4.
  unfold load_settings. apply wp_bind, wp_gets.
  rewrite Hfile. apply wp_try. apply wp_bind, wp_lift. cbv beta iota.
  apply (load_settings_assigns S f w _ _ Hreads). intros w1 W.
  (* the sliders *)
  apply wp_bind. apply (get_attr_step _ _ _ _ _ _ _ W).
  destruct (attr_eq_dec size outline_color) as [|_]; [discriminate|].
  rewrite A1.
  apply wp_bind.
  apply (setValue_sync_step _ _ _ _ _ _ _ _ (in_range_c_int _ _ R1) W).
  { destruct (attr_eq_dec (slider_attr size_slider) outline_color) as [|_];
      [discriminate|].
    now rewrite (bound_in_range _ _ R1). }
  clear W; intros ? W; cbv beta iota. rewrite (bound_in_range _ _ R1) in W.
  apply wp_bind. apply (get_attr_step _ _ _ _ _ _ _ W).
  destruct (attr_eq_dec thickness outline_color) as [|_]; [discriminate|].
  rewrite A2.
  apply wp_bind.
  apply (setValue_sync_step _ _ _ _ _ _ _ _ (in_range_c_int _ _ R2) W).
  { destruct (attr_eq_dec (slider_attr thickness_slider) outline_color)
      as [|_]; [discriminate|].
    now rewrite (bound_in_range _ _ R2). }
  clear W; intros ? W; cbv beta iota. rewrite (bound_in_range _ _ R2) in W.
  apply wp_bind. apply (get_attr_step _ _ _ _ _ _ _ W).
  destruct (attr_eq_dec inner_opacity outline_color) as [|_]; [discriminate|].
  apply wp_bind, wp_lift. rewrite Hin.
  apply wp_bind.
  apply (setValue_sync_step _ _ _ _ _ _ _ _ (in_range_c_int _ _ R3) W).
  { destruct (attr_eq_dec (slider_attr inner_opacity_slider) outline_color)
      as [|_]; [discriminate|].
    now rewrite (bound_in_range _ _ R3). }
  clear W; intros ? W; cbv beta iota. rewrite (bound_in_range _ _ R3) in W.
  apply wp_bind. apply (get_attr_step _ _ _ _ _ _ _ W).
  destruct (attr_eq_dec outer_opacity outline_color) as [|_]; [discriminate|].
  apply wp_bind, wp_lift. rewrite Hout.
  apply wp_bind.
  apply (setValue_sync_step _ _ _ _ _ _ _ _ (in_range_c_int _ _ R4) W).
  { destruct (attr_eq_dec (slider_attr outer_opacity_slider) outline_color)
      as [|_]; [discriminate|].
    now rewrite (bound_in_range _ _ R4). }
  clear W; intros ? W; cbv beta iota. rewrite (bound_in_range _ _ R4) in W.
  (* the check boxes *)
  apply wp_bind. apply (get_attr_step _ _ _ _ _ _ _ W).
  destruct (attr_eq_dec show_outline outline_color) as [|_]; [discriminate|].
  rewrite C1. apply wp_bind.
  apply (setChecked_sync_step _ _ _ _ _ _ _ _ W).
  { destruct (attr_eq_dec (check_attr outline_check) outline_color) as [|_];
      [discriminate | exact C1]. }
  clear W; intros ? W; cbv beta iota.
  apply wp_bind. apply (get_attr_step _ _ _ _ _ _ _ W).
  destruct (attr_eq_dec show_inner outline_color) as [|_]; [discriminate|].
  rewrite C2. apply wp_bind.
  apply (setChecked_sync_step _ _ _ _ _ _ _ _ W).
  { destruct (attr_eq_dec (check_attr inner_check) outline_color) as [|_];
      [discriminate | exact C2]. }
  clear W; intros ? W; cbv beta iota.
  apply wp_bind. apply (get_attr_step _ _ _ _ _ _ _ W).
  destruct (attr_eq_dec show_outer outline_color) as [|_]; [discriminate|].
  rewrite C3. apply wp_bind.
  apply (setChecked_sync_step _ _ _ _ _ _ _ _ W).
  { destruct (attr_eq_dec (check_attr outer_check) outline_color) as [|_];
      [discriminate | exact C3]. }
  clear W; intros ? W; cbv beta iota.
  apply wp_bind. apply (get_attr_step _ _ _ _ _ _ _ W).
  destruct (attr_eq_dec show_dot outline_color) as [|_]; [discriminate|].
  rewrite C4. apply wp_bind.
  apply (setChecked_sync_step _ _ _ _ _ _ _ _ W).
  { destruct (attr_eq_dec (check_attr dot_check) outline_color) as [|_];
      [discriminate | exact C4]. }
  clear W; intros ? W; cbv beta iota.
  w_step.
  apply wp_modify.
  destruct W as (Ha & Hs & Hc & Hi & Ht & Hf).
  split; [reflexivity|]. wp_norm.
  split; [unfold last_printed; wp_norm; apply last_last|].
  split.
  { intros a Hne. rewrite Ha.
    destruct (attr_eq_dec a outline_color); [contradiction | reflexivity]. }
  split.
  { rewrite Ha.
    destruct (attr_eq_dec outline_color outline_color);
      [reflexivity | contradiction]. }
  split.
  { intros s Hne. rewrite Hs. unfold upd.
    destruct s; try contradiction;
      repeat match goal with
             | |- context [slider_eq_dec ?a ?b] =>
                 destruct (slider_eq_dec a b); try congruence
             end. }
  split.
  { rewrite Hs. unfold upd.
    repeat match goal with
           | |- context [slider_eq_dec ?a ?b] =>
               destruct (slider_eq_dec a b); try congruence
           end. }
  split; [|split; [exact Hi | congruence]].
  intros c. rewrite Hc. unfold upd.
  destruct c;
    repeat match goal with
           | |- context [check_eq_dec ?a ?b] =>
               destruct (check_eq_dec a b); try congruence
           end.
Qed.

Lemma in_sync_reads (w0 : World) :
  in_sync w0 -> reads (json_image (settings_of w0)) (attrs w0).
Proof.
  intros (Hsl & _ & _ & Hck & (l & Hcol & Hl) & Hplain).
  assert (J : forall a, a <> color -> a <> outline_color ->
                        json_image (attrs w0 a) = attrs w0 a).
  { intros a H1 H2.
    destruct (Hsl size_slider ltac:(discriminate)) as (_ & A1).
    destruct (Hsl thickness_slider ltac:(discriminate)) as (_ & A2).
    destruct (Hsl inner_opacity_slider ltac:(discriminate)) as (_ & A3).
    destruct (Hsl outer_opacity_slider ltac:(discriminate)) as (_ & A4).
    pose proof (Hck outline_check) as C1. pose proof (Hck inner_check) as C2.
    pose proof (Hck outer_check) as C3. pose proof (Hck dot_check) as C4.
    cbn [slider_attr slider_store] in A1, A2, A3, A4.
    cbn [check_attr] in C1, C2, C3, C4.
    destruct a; try contradiction;
      first [ apply Hplain; cbn [In]; tauto
            | rewrite A1; reflexivity | rewrite A2; reflexivity
            | rewrite A3; reflexivity | rewrite A4; reflexivity
            | rewrite C1; reflexivity | rewrite C2; reflexivity
            | rewrite C3; reflexivity | rewrite C4; reflexivity ]. }
  destruct (saved_lookup w0)
    as (L1 & L2 & L3 & L4 & L5 & L6 & L7 & L8 & L9 & L10 & L11 & L12 & L13 & L14).
  unfold reads.
  rewrite L1, L2, L3, L4, L5, L6, L7, L8, L9, L10, L11, L12, L13, L14.
  repeat split; try (now rewrite J by discriminate).
  exists (json_image (attrs w0 color)). split; [reflexivity|].
  rewrite Hcol. cbn [json_image py_tuple]. now rewrite Hl.
Qed.

(** Loading a file that was saved from a state in which attributes and
    widgets agree. *)
Lemma load_settings_restores (w0 w : World) :
  in_sync w0 ->
  settings_file w = Some (Json (json_image (settings_of w0))) ->
  wp load_settings
     (fun r w' =>
        r = Ok tt
        /\ last_printed w' = Text "Settings loaded successfully!"
        /\ (forall a, a <> outline_color -> attrs w' a = attrs w0 a)
        /\ attrs w' outline_color = attrs w outline_color
        /\ (forall s, s <> dot_opacity_slider ->
                      slider_value w' s = slider_value w0 s)
        /\ slider_value w' dot_opacity_slider
           = slider_value w dot_opacity_slider
        /\ (forall c, checked w' c = checked w0 c)
        /\ crosshair_image w' = crosshair_image w
        /\ settings_file w' = settings_file w) w.
Proof.
  intros Hsync Hfile.
  pose proof (in_sync_reads w0 Hsync) as Hreads.
  destruct Hsync as (Hsl & Hin & Hout & Hck & _).
  exact (load_settings_reads _ _ _ _ w Hfile Hreads Hsl Hin Hout Hck).
Qed.

Lemma save_settings_dumpable (w : World) :
  json_dumpable (settings_of w) = true ->
  save_settings w
  = (Ok tt,
     printed (Text "Settings saved successfully!")
       (exec (set_settings_file (Some (Json (json_image (settings_of w))))) w)).
Proof.
  intros H. unfold save_settings, bind, gets, try_except. now rewrite H.
Qed.


(** X12. What a saved file restores when the program is started again: every
    saved attribute but [outline_color], which starts at its default black
    however it was saved; and every slider and check box but the dot
    opacity slider, which stays at 100 while [dot_opacity] is restored. *)
Theorem restart_restores (w : World) :
  in_sync w ->
  json_dumpable (settings_of w) = true ->
  let w' := exec startup (init_world (settings_file (exec save_settings w))) in
  (forall a, a <> outline_color -> attrs w' a = attrs w a)
  /\ attrs w' outline_color = PTuple [PInt 0; PInt 0; PInt 0]
  /\ (forall s, s <> dot_opacity_slider -> slider_value w' s = slider_value w s)
  /\ slider_value w' dot_opacity_slider = 100
  /\ (forall c, checked w' c = checked w c)
  /\ last_printed w' = Text "Settings loaded successfully!".
Proof.
  intros Hs Hd w'.
  assert (Ef : settings_file (exec save_settings w)
               = Some (Json (json_image (settings_of w)))).
  { unfold exec. now rewrite (save_settings_dumpable w Hd). }
  unfold w'. rewrite Ef.
  set (w0 := init_world _).
  unfold exec, startup, bind, center_on_screen, ret.
  destruct (update_crosshair_display w0) as (E & D).
  destruct (update_crosshair w0) as [[[]|e] w1]; [|discriminate].
  cbn [snd] in D. destruct D as (a1 & _ & s1 & _ & _ & f1).
  assert (Hf : settings_file w1 = Some (Json (json_image (settings_of w))))
    by (rewrite f1; reflexivity).
  destruct (load_settings_restores w w1 Hs Hf)
    as (_ & Hl & Ha & Ho & Hv & Hdot & Hc & _ & _).
  split; [exact Ha|].
  split; [rewrite Ho, a1; reflexivity|].
  split; [exact Hv|].
  split; [rewrite Hdot, s1; reflexivity|].
  split; [exact Hc | exact Hl].
Qed.

Lemma percent_round_table :
  forallb (fun n : nat =>
             let v := Z.of_nat n in
             match py_int_times_100 (PFloat (B64.div_Z v 100)) with
             | Ok p => p =? (if drifts v then v - 1 else v)
             | Raise _ => false
             end) (seq 0 101) = true.
Proof. vm_compute. reflexivity. Qed.

(** X13. An opacity slider at [v] stores [v / 100]; the percentage computed
    back from it as [int(value * 100)], for the value label and for
    [setValue] in [load_settings], is [v] again for every position but
    29, 57 and 58, where it is one less. *)
Theorem opacity_percent_read_back (v : Z) :
  0 <= v <= 100 ->
  py_truediv v 100 = Ok (B64.div_Z v 100)
  /\ py_int_times_100 (PFloat (B64.div_Z v 100))
     = Ok (if drifts v then v - 1 else v).
Proof.
  intros H. split; [now apply py_truediv_percent|].
  pose proof percent_round_table as T. rewrite forallb_forall in T.
  specialize (T (Z.to_nat v)). cbv zeta in T.
  rewrite Z2Nat.id in T by lia.
  lapply T; [clear T; intros T | apply in_seq; lia].
  destruct (py_int_times_100 _) as [p|e]; [|discriminate].
  apply Z.eqb_eq in T. now subst p.
Qed.

(** X14. An inner opacity percentage above 100 does not stay: the decoder
    stores [pct / 100] and then sets the slider, which stops at 100; if
    that moves the slider, its slot stores 1.0 over the decoded value, and
    if the slider was at 100 already the decoded value above 1 stays. *)
Theorem decode_clamps_inner_opacity (w : World) (g : list str) (f : B64.float) :
  re_search (code_input w) = Some g ->
  all_short g = true ->
  100 < number g 4 < 2 ^ 31 ->
  py_truediv (number g 4) 100 = Ok f ->
  number g 7 * number g 8 <= 100 ->
  let w' := snd (parse_valorant_code w) in
  fst (parse_valorant_code w) = Ok tt
  /\ slider_value w' inner_opacity_slider = 100
  /\ attrs w' inner_opacity
     = (if slider_value w inner_opacity_slider =? 100 then PFloat f
        else PFloat (B64.div_Z 100 100)).
Proof.
  intros H Hs H4 Hf H78 w'.
  pose proof (number_nonneg _ _ 7 H) as N7.
  pose proof (number_nonneg _ _ 8 H) as N8.
  destruct (eight_groups _ _ H) as (g1 & g2 & g3 & g4 & g5 & g6 & g7 & g8 & ->).
  change (wp parse_valorant_code
            (fun r w' =>
               r = Ok tt
               /\ slider_value w' inner_opacity_slider = 100
               /\ attrs w' inner_opacity
                  = (if slider_value w inner_opacity_slider =? 100
                     then PFloat f else PFloat (B64.div_Z 100 100))) w).
  unfold parse_valorant_code. apply wp_bind, wp_gets.
  destruct (code_input w) as [|c s] eqn:E; [discriminate|].
  rewrite H. apply wp_try.
  unfold number, group in *. cbn [nth Nat.sub] in *.
  unfold all_short in Hs. cbn [forallb] in Hs.
  repeat (apply wp_bind, wp_lift; unfold py_int_of_digits at 1;
          match goal with
          | |- context [(int_max_str_digits <? ?n)%nat] =>
              destruct (int_max_str_digits <? n)%nat;
              [ cbn [negb andb] in Hs; rewrite ?andb_false_r in Hs;
                discriminate
              | ]
          end).
  cbv beta iota.
  pose proof (widgets_are_refl w) as W.
  do 3 w_step.
  apply wp_bind, wp_lift. rewrite Hf. cbv beta iota.
  do 2 w_step.
  apply wp_bind, wp_lift. rewrite py_truediv_percent by nia. cbv beta iota.
  w_step.
  apply wp_bind. apply (get_attr_step _ _ _ _ _ _ _ W). upd_simpl.
  apply wp_bind.
  apply (setChecked_sync_step _ _ _ _ _ _ _ _ W); [now upd_simpl|].
  clear W; intros ? W; cbv beta iota.
  apply wp_bind.
  assert (R4 : - 2 ^ 31 <= digits_value g4 < 2 ^ 31) by lia.
  apply (setValue_step _ _ _ _ _ _ _ _ R4 W).
  clear W; intros ? W; cbv beta iota.
  assert (B4 : bound inner_opacity_slider (digits_value g4) = 100)
    by (unfold bound; cbn [slider_min slider_max]; lia).
  rewrite B4 in W. rewrite (Z.eqb_sym 100) in W.
  assert (B78 : bound outer_opacity_slider
                  (digits_value g7 * digits_value g8)
                = digits_value g7 * digits_value g8)
    by (unfold bound; cbn [slider_min slider_max]; nia).
  apply wp_bind.
  assert (R78 : - 2 ^ 31 <= digits_value g7 * digits_value g8 < 2 ^ 31) by nia.
  apply (setValue_sync_step _ _ _ _ _ _ _ _ R78 W).
  { rewrite B78. cbn [slider_attr slider_store].
    destruct (slider_value w inner_opacity_slider =? 100); now upd_simpl. }
  clear W; intros ? W; cbv beta iota.
  w_step.
  apply wp_modify. destruct W as (Ha & Hv & _).
  split; [reflexivity|]. wp_norm. split.
  - rewrite Hv. unfold upd.
    repeat match goal with
           | |- context [slider_eq_dec ?a ?b] =>
               destruct (slider_eq_dec a b); try congruence
           end.
  - rewrite Ha. cbn [slider_attr slider_store].
    destruct (slider_value w inner_opacity_slider =? 100); now upd_simpl.
Qed.

Lemma chans_to_bgra (image : ndarray) :
  is_empty image = false ->
  chans (to_bgra image)
  = match image with
    | Arr2 _ => 4%nat
    | Arr3 _ => if (chans image =? 3)%nat then 4%nat else chans image
    end.
Proof.
  intros He. destruct image as [p|p]; cbn [to_bgra].
  - destruct p as [|r0 p]; [discriminate|].
    destruct r0 as [|g0 r0]; [discriminate|]. reflexivity.
  - destruct (chans (Arr3 p) =? 3)%nat eqn:E; [|reflexivity].
    apply Nat.eqb_eq in E.
    destruct p as [|r0 p]; [discriminate|].
    destruct r0 as [|x0 r0]; [discriminate|].
    cbn [chans hd map] in *. rewrite length_app, E. reflexivity.
Qed.

Lemma shape_eqb_refl (s : list nat) : shape_eqb s s = true.
Proof. unfold shape_eqb. now destruct (list_eq_dec Nat.eq_dec s s). Qed.

(** The enhancement and the merge succeed on a 64x64 array of at least
    four channels. *)
Lemma boost_succeeds (q : list (list (list Z))) (c : nat) :
  grid 64 64 c q -> (4 <= c)%nat ->
  exists cc al cc' c0 c1 c2 out,
    take_channels 3 (Arr3 q) = Ok cc
    /\ channel 3 (Arr3 q) = Ok al
    /\ convertScaleAbs cc = Ok cc'
    /\ channel 0 cc' = Ok c0
    /\ channel 1 cc' = Ok c1
    /\ channel 2 cc' = Ok c2
    /\ merge4 c0 c1 c2 (Picture uint8 al) = Ok out.
Proof.
  intros (L & F) Hc.
  destruct q as [|r0 q]; [discriminate|].
  pose proof (Forall_inv F) as (L0 & F0).
  destruct r0 as [|x0 r0]; [discriminate|].
  pose proof (Forall_inv F0) as Lx.
  destruct x0 as [|a0 [|a1 [|a2 [|a3 x0]]]]; cbn [List.length] in Lx; try lia.
  do 7 eexists.
  split; [reflexivity|].
  split; [reflexivity|].
  split; [reflexivity|].
  split; [reflexivity|].
  split; [reflexivity|].
  split; [reflexivity|].
  unfold merge4, is_empty.
  cbn [dtype_of array_of rows cols chans shape hd map List.length Nat.eqb orb].
  rewrite !length_map, !shape_eqb_refl. reflexivity.
Qed.

Lemma convert_stage1_strict (image : ndarray) (w : World) :
  wp (match image with
      | Arr2 _ =>
          print (Text "Converting grayscale to BGRA") ;;;
          lift (cvtColor_GRAY2BGRA image)
      | Arr3 _ =>
          if (chans image =? 3)%nat then
            print (Text "Converting BGR to BGRA") ;;;
            lift (cvtColor_BGR2BGRA image)
          else ret image
      end)
     (fun r w' =>
        only_printed w w'
        /\ match r with
           | Ok b => b = to_bgra image
                     /\ (is_empty b = false -> is_empty image = false)
           | Raise _ => is_empty image = true
           end) w.
Proof.
  destruct image as [p|p].
  - wp_go. split; [printed_done|]. unfold cvtColor_GRAY2BGRA.
    destruct (is_empty (Arr2 p)); [reflexivity | now split].
  - destruct (chans (Arr3 p) =? 3)%nat eqn:Ec.
    + wp_go. split; [printed_done|]. unfold cvtColor_BGR2BGRA.
      rewrite Ec. cbn [negb]. rewrite orb_false_r.
      destruct (is_empty (Arr3 p)); [reflexivity|].
      split; [|reflexivity]. cbn [to_bgra]. now rewrite Ec.
    + wp_go. split; [printed_done|]. cbn [to_bgra]. rewrite Ec. now split.
Qed.

Lemma accepted_empty (d : dtype) (image : ndarray) :
  is_empty image = true -> accepted (Picture d image) = false.
Proof.
  intros H. unfold accepted. cbn [dtype_of array_of]. rewrite H.
  now destruct d.
Qed.

Ltac convert_none :=
  wp_go; split; [printed_done | reflexivity].

(** The two outcomes of the normalizer. *)
Lemma convert_cases (image : picture) (w : World) :
  resize_contract cv ->
  rectangular image ->
  only_printed w (snd (convert_to_recommended_resolution image w))
  /\ if accepted image
     then exists out,
            fst (convert_to_recommended_resolution image w) = Ok (Some out)
     else fst (convert_to_recommended_resolution image w) = Ok None.
Proof.
  destruct image as [d image]. cbn [array_of].
  intros HC Hrect.
  change (wp (convert_to_recommended_resolution (Picture d image))
            (fun r w' =>
               only_printed w w'
               /\ if accepted (Picture d image)
                  then exists out, r = Ok (Some out)
                  else r = Ok None) w).
  unfold convert_to_recommended_resolution.
  cbv zeta. cbn [dtype_of array_of].
  apply wp_try. wp_go.
  eapply wp_mono; [|apply convert_stage1_strict].
  intros r w1 (P1 & Hr). destruct r as [b|e].
  2: { rewrite (accepted_empty d image Hr). convert_none. }
  destruct Hr as (-> & Hne).
  wp_go. unfold resize.
  destruct (is_empty (to_bgra image)) eqn:Eb; cbn [orb].
  { assert (Ei : is_empty image = true).
    { destruct (is_empty image) eqn:Ei; [reflexivity|].
      now rewrite (proj2 (to_bgra_rectangular image Hrect Ei)) in Eb. }
    rewrite (accepted_empty d image Ei). convert_none. }
  change ((target_size =? 0)%nat) with false. cbn [orb].
  specialize (Hne eq_refl).
  destruct (to_bgra_rectangular image Hrect Hne) as (Hrb & _).
  destruct (HC (to_bgra image) target_size target_size INTER_AREA Hrb Eb
              ltac:(unfold target_size; lia) ltac:(unfold target_size; lia))
    as (HrR & HsR).
  pose proof (chans_to_bgra image Hne) as Hch.
  set (R := cv2_resize (to_bgra image) target_size target_size INTER_AREA) in *.
  unfold resized_shape in HsR.
  assert (Eacc : accepted (Picture d image)
                 = match d with uint8 => true | uint16 => false end
                   && (4 <=? chans (to_bgra image))%nat).
  { unfold accepted. cbn [dtype_of array_of].
    rewrite Hne, Hch. cbn [negb]. rewrite andb_true_r. f_equal.
    destruct image as [p|p]; [reflexivity|].
    destruct (chans (Arr3 p) =? 3)%nat eqn:E3.
    - apply Nat.eqb_eq in E3. now rewrite E3.
    - apply Nat.eqb_neq in E3.
      destruct (3 <=? chans (Arr3 p))%nat eqn:E;
        destruct (4 <=? chans (Arr3 p))%nat eqn:E'; try reflexivity.
      + apply Nat.leb_le in E. apply Nat.leb_gt in E'. lia.
      + apply Nat.leb_gt in E. apply Nat.leb_le in E'. lia. }
  rewrite Eacc. clear Eacc Hch.
  destruct (to_bgra image) as [pb|pb] eqn:Eto.
  { destruct image as [p|p]; cbn [to_bgra] in Eto; [discriminate|].
    destruct (chans (Arr3 p) =? 3)%nat; discriminate. }
  wp_go.
  destruct (chans (Arr3 pb) =? 1)%nat eqn:E1.
  { apply Nat.eqb_eq in E1. rewrite E1. cbn [Nat.leb]. rewrite andb_false_r.
    destruct R as [q|q]; [|discriminate]. cbn [take_channels]. convert_none. }
  apply Nat.eqb_neq in E1.
  destruct R as [q|q] eqn:ER; [discriminate|].
  pose proof (shape_grid _ _ _ _ HrR HsR) as G.
  destruct (4 <=? chans (Arr3 pb))%nat eqn:E4.
  - apply Nat.leb_le in E4.
    destruct (boost_succeeds q _ G E4)
      as (cc & al & cc' & c0 & c1 & c2 & out & B1 & B2 & B3 & B4 & B5 & B6 & B7).
    rewrite B1. wp_go. rewrite B2. wp_go. rewrite B3. wp_go.
    rewrite B4. wp_go. rewrite B5. wp_go. rewrite B6. wp_go.
    destruct d; cbn [andb].
    + rewrite B7. wp_go. split; [printed_done | eauto].
    + (* the colour planes are 8-bit, the alpha plane is not *)
      unfold merge4. cbn [dtype_of]. convert_none.
  - apply Nat.leb_gt in E4. rewrite andb_false_r.
    cbn [take_channels]. wp_go. unfold channel at 1.
    assert (Hc : chans (Arr3 q) = chans (Arr3 pb))
      by (cbn [shape] in HsR; now injection HsR).
    rewrite Hc.
    replace (3 <? chans (Arr3 pb))%nat with false
      by (symmetry; apply Nat.ltb_ge; lia).
    convert_none.
Qed.

(** X15. The normalizer never raises and changes nothing but the output.  It
    returns a bitmap exactly for the 8-bit arrays that are not empty and
    are two-dimensional or have at least three channels; for every other
    array (a 16-bit one, an empty one, or one of one or two channels in
    three dimensions) it returns [None]. *)
Theorem convert_accepts (image : picture) (w : World) :
  resize_contract cv ->
  rectangular image ->
  ((exists out,
      fst (convert_to_recommended_resolution image w) = Ok (Some out))
   <-> accepted image = true)
  /\ (fst (convert_to_recommended_resolution image w) = Ok None
      <-> accepted image = false)
  /\ only_printed w (snd (convert_to_recommended_resolution image w)).
Proof.
  intros HC Hrect.
  destruct (convert_cases image w HC Hrect) as (P & H).
  split; [|split; [|exact P]].
  - destruct (accepted image).
    + split; [reflexivity | intros _; exact H].
    + rewrite H. split; [intros (out & [=]) | discriminate].
  - destruct (accepted image).
    + destruct H as (out & ->). split; discriminate.
    + split; [reflexivity | intros _; exact H].
Qed.

(** X16. Loading an image never raises and never touches a setting, a widget
    or the settings file.  When the dialog is cancelled nothing happens at
    all; when the file cannot be read, or the array is one the normalizer
    does not convert (a 16-bit one, an empty one, or one of one or two
    channels in three dimensions), the stored image and the display stay
    as they were; otherwise the stored image becomes the normalized bitmap
    and the display is what [update_crosshair] renders from it. *)
Theorem load_crosshair_image_outcome (p : option (option picture)) (w : World) :
  resize_contract cv ->
  event_ok (LoadImage p) ->
  let w' := snd (load_crosshair_image p w) in
  fst (load_crosshair_image p w) = Ok tt
  /\ attrs w' = attrs w
  /\ slider_value w' = slider_value w
  /\ checked w' = checked w
  /\ code_input w' = code_input w
  /\ settings_file w' = settings_file w
  /\ match p with
     | None => w' = w
     | Some None => only_printed w w'
     | Some (Some image) =>
         if accepted image
         then exists out,
                crosshair_image w' = Some out
                /\ normalized
                     (cv2_resize (to_bgra image) target_size target_size
                        INTER_AREA) out
                /\ (pixmap w', geometry w')
                   = (let shown :=
                        snd (update_crosshair
                               (exec (set_crosshair_image (Some out)) w)) in
                      (pixmap shown, geometry shown))
         else only_printed w w'
     end.
Proof.
  intros HC Hp w'. unfold w'. clear w'.
  destruct p as [[[d image]|]|]; cbn [event_ok array_of] in Hp.
  3: { cbn. repeat split. }
  2: { cbn. repeat split. }
  cbn [array_of].
  change (wp (load_crosshair_image (Some (Some (Picture d image))))
            (fun r w' =>
               r = Ok tt
               /\ attrs w' = attrs w
               /\ slider_value w' = slider_value w
               /\ checked w' = checked w
               /\ code_input w' = code_input w
               /\ settings_file w' = settings_file w
               /\ if accepted (Picture d image)
                  then exists out,
                         crosshair_image w' = Some out
                         /\ normalized
                              (cv2_resize (to_bgra image) target_size
                                 target_size INTER_AREA) out
                         /\ (pixmap w', geometry w')
                            = (let shown :=
                                 snd (update_crosshair
                                        (exec (set_crosshair_image (Some out))
                                           w)) in
                               (pixmap shown, geometry shown))
                  else only_printed w w') w).
  unfold load_crosshair_image, center_on_screen.
  apply wp_try. wp_go. unfold wp at 1.
  set (w2 := mkWorld _ _ _ _ _ _ _ _ _).
  destruct (convert_cases (Picture d image) w2 HC Hp) as (P3 & Hacc).
  pose proof (convert_spec d image w2 HC Hp) as Hspec. unfold wp in Hspec.
  destruct Hspec as (_ & o & Ho & Hn).
  destruct (convert_to_recommended_resolution (Picture d image) w2)
    as [r w3].
  cbn [fst snd] in *. subst r.
  assert (P : only_printed w w3) by (unfold w2 in P3; printed_done).
  clear P3. clearbody w2.
  destruct (accepted (Picture d image)).
  - destruct Hacc as (out & [= ->]).
    destruct (Hn out eq_refl) as (_ & Hnorm).
    wp_go.
    set (w5 := mkWorld _ _ _ _ _ _ _ _ _).
    unfold wp at 1.
    destruct (update_crosshair_rendering w5) as (Er & D & Hd).
    destruct (update_crosshair w5) as [r6 w6]. cbn [fst snd] in *. subst r6.
    wp_go.
    destruct P as ((a3 & i3 & s3 & c3 & t3 & f3) & p3 & g3).
    destruct D as (a6 & i6 & s6 & c6 & t6 & f6).
    unfold w5 in a6, i6, s6, c6, t6, f6.
    wp_norm_in a6. wp_norm_in i6. wp_norm_in s6. wp_norm_in c6.
    wp_norm_in t6. wp_norm_in f6.
    split; [reflexivity|].
    repeat (split; [congruence|]).
    exists out. split; [exact i6|]. split; [exact Hnorm|].
    cbv zeta.
    change (displayed w6
            = displayed (snd (update_crosshair
                                (exec (set_crosshair_image (Some out)) w)))).
    rewrite displayed_update_crosshair, Hd.
    apply rendering_ext; unfold w5, exec, set_crosshair_image, modify;
      cbn [snd]; wp_norm; unfold displayed; wp_norm; congruence.
  - injection Hacc as ->. wp_go.
    destruct P as ((a3 & i3 & s3 & c3 & t3 & f3) & p3 & g3).
    split; [reflexivity|].
    repeat (split; [assumption|]).
    unfold only_printed, same_but_display. wp_norm. now repeat split.
Qed.

(** X17. The colour enhancement [convertScaleAbs(_, alpha=1.5, beta=30)] on a
    byte: no value ends below 30 or below what it was, so black becomes
    dark grey; the values from 150 up, and only they, saturate at 255; and
    the order of values is kept. *)
Theorem enhancement_on_bytes (x y : Z) :
  0 <= x <= y -> y <= 255 ->
  30 <= convertScaleAbs_byte x <= 255
  /\ x <= convertScaleAbs_byte x
  /\ (convertScaleAbs_byte x = 255 <-> 150 <= x)
  /\ convertScaleAbs_byte x <= convertScaleAbs_byte y.
Proof.
  intros Hx Hy.
  destruct (Z.eq_dec x y) as [<-|Hne].
  { destruct (convertScaleAbs_byte_spec x ltac:(lia)) as (X1 & X2 & X3).
    destruct (Z_le_gt_dec 150 x) as [Hx150|Hx150]; lia. }
  destruct (convertScaleAbs_byte_spec x ltac:(lia)) as (X1 & X2 & X3).
  destruct (convertScaleAbs_byte_spec y ltac:(lia)) as (Y1 & Y2 & Y3).
  destruct (Z_le_gt_dec 150 x) as [Hx150|Hx150];
    destruct (Z_le_gt_dec 150 y) as [Hy150|Hy150]; lia.
Qed.



Lemma match_num_app (d rest : str) :
  d <> [] -> all_digits d -> no_digit_first rest ->
  match_num (d ++ rest) = Some (d, rest).
Proof.
  intros Hne Hd Hr. unfold match_num.
  rewrite (span_digits_app d rest Hd), (span_digits_stop rest Hr).
  cbn [fst snd]. rewrite app_nil_r. destruct d; [contradiction|reflexivity].
Qed.

Lemma fields_text_first (ks ds : list str) (post : str) :
  Forall sep_first ks -> no_digit_first post ->
  no_digit_first (fields_text ks ds ++ post).
Proof.
  intros Hk Hp. destruct ks as [|k ks]; [exact Hp|].
  destruct ds as [|d ds]; [exact Hp|].
  inversion Hk as [|? ? (c & r & -> & Hc) _]; subst. exact Hc.
Qed.

Lemma match_fields_text (ks : list str) :
  forall ds post,
    List.length ds = List.length ks ->
    Forall sep_first (tl ks) ->
    Forall (fun d => d <> [] /\ all_digits d) ds ->
    no_digit_first post ->
    match_fields ks (fields_text ks ds ++ post) = Some (ds, post).
Proof.
  induction ks as [|k ks IH]; intros ds post Hl Hk Hd Hp.
  - destruct ds; [reflexivity|discriminate].
  - destruct ds as [|d ds]; [discriminate|].
    cbn [fields_text match_fields]. rewrite <- !app_assoc, match_lit_app.
    inversion Hd as [|? ? (Hne & Hdig) Hd']; subst.
    cbn [tl] in Hk.
    rewrite match_num_app;
      [ | exact Hne | exact Hdig | now apply fields_text_first ].
    rewrite IH; [reflexivity | | | exact Hd' | exact Hp].
    + cbn [List.length] in Hl. lia.
    + destruct ks; [constructor|]. now inversion Hk.
Qed.

Lemma match_lazy_dot_skip (mid rest : str) (g : list str * str) :
  Forall (fun c => c <> "0"%char /\ c <> newline) mid ->
  match_fields field_keys rest = Some g ->
  match_lazy_dot (mid ++ rest) = Some g.
Proof.
  intros Hm Hg. induction Hm as [|c mid (Hc & Hn) _ IH].
  - cbn [app]. now rewrite match_lazy_dot_eq, Hg.
  - cbn [app]. rewrite match_lazy_dot_eq.
    assert (E : match_fields field_keys (c :: mid ++ rest) = None).
    { cbn [field_keys match_fields lit list_ascii_of_string match_lit].
      destruct (Ascii.eqb "0" c) eqn:E0; [|reflexivity].
      apply Ascii.eqb_eq in E0. now subst c. }
    rewrite E.
    destruct (Ascii.eqb c newline) eqn:En; [|exact IH].
    apply Ascii.eqb_eq in En. contradiction.
Qed.

(** X19. Decoding reads back what a code in the pattern's order says: for
    any eight non-empty runs of digits, written after their keys behind
    the marker (with, in between, any text free of ['0'] and of line
    feeds) and followed by anything that does not start with a digit, the
    search returns exactly these eight runs as its groups. *)
Theorem decode_reads_code_text (mid : str) (ds : list str) (post : str) :
  Forall (fun c => c <> "0"%char /\ c <> newline) mid ->
  List.length ds = 8%nat ->
  Forall (fun d => d <> [] /\ all_digits d) ds ->
  no_digit_first post ->
  re_search (code_text mid ds ++ post) = Some ds.
Proof.
  intros Hm Hl Hd Hp. unfold code_text.
  rewrite re_search_eq. unfold match_at.
  rewrite <- !app_assoc, match_lit_app.
  rewrite (match_lazy_dot_skip mid _ (ds, post) Hm); [reflexivity|].
  apply match_fields_text; [exact Hl | apply field_keys_sep | exact Hd | exact Hp].
Qed.

(** X20. After a successful decode the widgets show the decoded values: the
    outline check box is the decoded flag and the two opacity sliders are
    at the decoded percentages; the decoder then reports success. *)
Theorem decode_syncs_widgets (w : World) (g : list str) :
  re_search (code_input w) = Some g ->
  all_short g = true ->
  number g 4 <= 100 ->
  number g 7 * number g 8 <= 100 ->
  let w' := snd (parse_valorant_code w) in
  last_printed w' = Text "Valorant crosshair code applied successfully!"
  /\ checked w' outline_check = negb (number g 1 =? 0)
  /\ slider_value w' inner_opacity_slider = number g 4
  /\ slider_value w' outer_opacity_slider = number g 7 * number g 8.
Proof.
  intros H Hs H4 H78 w'.
  pose proof (number_nonneg _ _ 4 H) as N4.
  pose proof (number_nonneg _ _ 7 H) as N7.
  pose proof (number_nonneg _ _ 8 H) as N8.
  destruct (eight_groups _ _ H) as (g1 & g2 & g3 & g4 & g5 & g6 & g7 & g8 & ->).
  change (wp parse_valorant_code
            (fun r w' =>
               last_printed w'
               = Text "Valorant crosshair code applied successfully!"
               /\ checked w' outline_check = negb (number [g1; g2; g3; g4; g5; g6; g7; g8] 1 =? 0)
               /\ slider_value w' inner_opacity_slider
                  = number [g1; g2; g3; g4; g5; g6; g7; g8] 4
               /\ slider_value w' outer_opacity_slider
                  = number [g1; g2; g3; g4; g5; g6; g7; g8] 7
                    * number [g1; g2; g3; g4; g5; g6; g7; g8] 8) w).
  unfold parse_valorant_code. apply wp_bind, wp_gets.
  destruct (code_input w) as [|c s] eqn:E; [discriminate|].
  rewrite H. apply wp_try.
  unfold number, group in *. cbn [nth Nat.sub] in *.
  unfold all_short in Hs. cbn [forallb] in Hs.
  repeat (apply wp_bind, wp_lift; unfold py_int_of_digits at 1;
          match goal with
          | |- context [(int_max_str_digits <? ?n)%nat] =>
              destruct (int_max_str_digits <? n)%nat;
              [ cbn [negb andb] in Hs; rewrite ?andb_false_r in Hs;
                discriminate
              | ]
          end).
  cbv beta iota.
  pose proof (widgets_are_refl w) as W.
  do 3 w_step.
  apply wp_bind, wp_lift. rewrite py_truediv_percent by lia. cbv beta iota.
  do 2 w_step.
  apply wp_bind, wp_lift. rewrite py_truediv_percent by nia. cbv beta iota.
  w_step.
  apply wp_bind. apply (get_attr_step _ _ _ _ _ _ _ W). upd_simpl.
  apply wp_bind.
  apply (setChecked_sync_step _ _ _ _ _ _ _ _ W); [now upd_simpl|].
  clear W; intros ? W; cbv beta iota.
  assert (R4 : - 2 ^ 31 <= digits_value g4 < 2 ^ 31) by lia.
  assert (B4 : bound inner_opacity_slider (digits_value g4) = digits_value g4)
    by (unfold bound; cbn [slider_min slider_max]; lia).
  assert (R78 : - 2 ^ 31 <= digits_value g7 * digits_value g8 < 2 ^ 31) by nia.
  assert (B78 : bound outer_opacity_slider
                  (digits_value g7 * digits_value g8)
                = digits_value g7 * digits_value g8)
    by (unfold bound; cbn [slider_min slider_max]; nia).
  apply wp_bind.
  apply (setValue_sync_step _ _ _ _ _ _ _ _ R4 W);
    [rewrite B4; cbn [slider_attr slider_store]; now upd_simpl|].
  clear W; intros ? W; cbv beta iota. rewrite B4 in W.
  apply wp_bind.
  apply (setValue_sync_step _ _ _ _ _ _ _ _ R78 W);
    [rewrite B78; cbn [slider_attr slider_store]; now upd_simpl|].
  clear W; intros ? W; cbv beta iota. rewrite B78 in W.
  w_step.
  apply wp_modify. destruct W as (_ & Hv & Hc & _).
  wp_norm. split; [unfold last_printed; wp_norm; apply last_last|].
  split.
  { rewrite Hc. unfold upd.
    now destruct (check_eq_dec outline_check outline_check). }
  split; rewrite Hv; unfold upd;
    repeat match goal with
           | |- context [slider_eq_dec ?a ?b] =>
               destruct (slider_eq_dec a b); try congruence
           end.
Qed.

(** X21. What the sliders and check boxes do.  Moving a slider leaves it at
    the requested value bounded to its range; if that is a change, the
    slider's attribute becomes the stored form of the new value (the value
    itself for size and thickness, the value over 100 for an opacity), and
    no other attribute changes.  A click inverts the check box and assigns
    the new state to its flag, and to no other attribute. *)
Theorem widget_events_assign :
  (forall s v w,
     let w' := exec (handle (MoveSlider s v)) w in
     slider_value w' s = bound s v
     /\ (slider_value w s <> bound s v ->
         attrs w' (slider_attr s) = slider_store s (bound s v))
     /\ (forall a, a <> slider_attr s -> attrs w' a = attrs w a))
  /\ (forall c w,
        let w' := exec (handle (Click c)) w in
        checked w' c = negb (checked w c)
        /\ attrs w' (check_attr c) = PBool (negb (checked w c))
        /\ (forall a, a <> check_attr c -> attrs w' a = attrs w a)).
Proof.
  split.
  - intros s v w w'. unfold w', exec. cbn [handle].
    pose proof (bound_range s v) as Hb.
    destruct (setValue_effect s (bound s v) w (in_range_c_int _ _ Hb))
      as (_ & Ha & Hs & _).
    rewrite (bound_in_range _ _ Hb) in Ha, Hs.
    split; [rewrite Hs; unfold upd; now destruct (slider_eq_dec s s)|]. split.
    + intros Hne. rewrite Ha.
      destruct (bound s v =? slider_value w s) eqn:E;
        [apply Z.eqb_eq in E; congruence | apply upd_eq].
    + intros a Hne. rewrite Ha.
      destruct (bound s v =? slider_value w s); [reflexivity|].
      now apply upd_neq.
  - intros c w w'. unfold w', exec. cbn [handle]. unfold bind, gets.
    destruct (setChecked_effect c (negb (checked w c)) w) as (_ & Ha & _ & Hc & _).
    split; [rewrite Hc; unfold upd; now destruct (check_eq_dec c c)|]. split.
    + rewrite Ha. rewrite Bool.eqb_negb1. apply upd_eq.
    + intros a Hne. rewrite Ha. rewrite Bool.eqb_negb1. now apply upd_neq.
Qed.

(** X22. [center_on_screen] does not centre the window: the margin right of
    the window exceeds the margin left of it by two pixels when screen and
    window widths have the same parity and by three when they do not, and
    likewise below and above; with the odd canvas width and an even screen
    width the difference is three. *)
Theorem center_on_screen_is_off_centre (screen window : Z * Z)
    (o : Placement.overlay) :
  let o' := Placement.center_on_screen screen window o in
  let x := fst (Placement.position o') in
  let y := snd (Placement.position o') in
  (fst screen - (x + fst window)) - x = 2 + (fst screen - fst window) mod 2
  /\ (snd screen - (y + snd window)) - y = 2 + (snd screen - snd window) mod 2
  /\ (Z.even (fst screen) = true -> Z.odd (fst window) = true ->
      (fst screen - (x + fst window)) - x = 3).
Proof.
  intros o' x y. unfold x, y, o', Placement.center_on_screen.
  cbn [Placement.position fst snd].
  pose proof (Z.div_mod (fst screen - fst window) 2 ltac:(lia)) as D1.
  pose proof (Z.div_mod (snd screen - snd window) 2 ltac:(lia)) as D2.
  split; [lia|]. split; [lia|].
  intros He Ho.
  pose proof (Z.mod_pos_bound (fst screen - fst window) 2 ltac:(lia)) as B.
  apply Z.even_spec in He. apply Z.odd_spec in Ho.
  destruct He as (a & Ha). destruct Ho as (b & Hb). lia.
Qed.

Lemma centered_app (calls : list ((Z * Z) * (Z * Z))) (c : (Z * Z) * (Z * Z))
    (o : Placement.overlay) :
  Placement.centered (calls ++ [c]) o
  = Placement.center_on_screen (fst c) (snd c) (Placement.centered calls o).
Proof.
  revert o. induction calls as [|[s w] calls IH]; intros o; cbn.
  - now destruct c.
  - apply IH.
Qed.

Lemma stopped_after (calls : list ((Z * Z) * (Z * Z))) (p : Z * Z) :
  Forall (fun t => Placement.active t = false)
    (Placement.stop_center_timer
       (Placement.timers (Placement.centered calls (Placement.created p)))).
Proof.
  induction calls as [|c calls IH] using rev_ind.
  - constructor.
  - rewrite centered_app. cbn [Placement.center_on_screen Placement.timers
                                 Placement.stop_center_timer].
    constructor; [reflexivity | exact IH].
Qed.

(** X23. However often the window is re-centred, one timer is running
    afterwards, the one the last call made, and it moves the window to
    where that call put it; every timer made before is stopped, so no
    timeout moves the window anywhere else, and after [closeEvent] none
    moves it at all. *)
Theorem one_timer_is_running (calls : list ((Z * Z) * (Z * Z)))
    (screen window p : Z * Z) :
  let o := Placement.centered (calls ++ [(screen, window)])
             (Placement.created p) in
  Placement.position o
  = ((fst screen - fst window) / 2 - 1, (snd screen - snd window) / 2 - 1)
  /\ (exists rest,
        Placement.timers o
        = Placement.mkTimer true (Placement.position o) :: rest
        /\ Forall (fun t => Placement.active t = false) rest)
  /\ (forall t, In t (Placement.timers o) ->
                Placement.position (Placement.timeout t o)
                = Placement.position o)
  /\ (forall t, In t (Placement.timers (Placement.closeEvent o)) ->
                Placement.timeout t (Placement.closeEvent o)
                = Placement.closeEvent o).
Proof.
  intros o. unfold o. rewrite centered_app. cbn [fst snd].
  set (o0 := Placement.centered calls (Placement.created p)).
  pose proof (stopped_after calls p) as S. fold o0 in S.
  unfold Placement.center_on_screen.
  cbn [Placement.position Placement.timers].
  split; [reflexivity|]. split; [eauto|]. split.
  - intros t [<-|Hin]; [reflexivity|].
    rewrite Forall_forall in S. unfold Placement.timeout.
    now rewrite (S t Hin).
  - unfold Placement.closeEvent.
    cbn [Placement.timers Placement.stop_center_timer Placement.position].
    intros t [<-|Hin]; [reflexivity|].
    rewrite Forall_forall in S. unfold Placement.timeout.
    now rewrite (S t Hin).
Qed.

Ltac report_done :=
  unfold last_printed; wp_norm; apply last_last.

(** The last line [update_crosshair] prints tells how it ended. *)
Lemma update_crosshair_report w :
  wp update_crosshair
     (fun _ w' =>
        last_printed w'
        = match crosshair_image w with
          | Some image =>
              match composed (attrs w size) image with
              | Ok _ => Text "Crosshair updated successfully"
              | Raise _ => Traceback
              end
          | None => Text "No crosshair image loaded"
          end) w.
Proof.
  unfold update_crosshair, composed.
  apply wp_try. wp_go.
  destruct (crosshair_image w) as [image|] eqn:E; wp_go.
  2: report_done.
  destruct (py_add_int _ _) as [a|e]; wp_go.
  2: report_done.
  destruct (py_format _) as [[]|e]; wp_go.
  2: report_done.
  destruct (np_zeros _) as [img|e]; wp_go.
  2: report_done.
  destruct (resize _ _ _ _) as [scaled|e]; wp_go.
  2: report_done.
  destruct (assign_slice _ _ _ _ _ _) as [img'|e]; wp_go.
  all: report_done.
Qed.

Lemma composed_int (S : Z) (image : ndarray) :
  resize_contract cv ->
  rectangular image -> shape image = [64; 64; 4]%nat ->
  96 <= S <= 200 ->
  exists r, composed (PInt S) image = Ok r.
Proof.
  intros HC Hrect Hshape HS. unfold composed.
  destruct (shape3_inv _ _ _ _ Hshape) as (p & Ep & Hrows & Hcols & Hch).
  assert (Hne : is_empty image = false)
    by (unfold is_empty; now rewrite Hrows, Hcols, Hch).
  cbn [py_add_int py_max py_odd_up]. rewrite Hrows.
  change (odd_up (Z.max (S + padding) (Z.of_nat 64 + padding)))
    with (canvas_size S 64).
  set (n := canvas_size S 64) in *.
  assert (Hn : 129 <= n).
  { assert (O : Z.odd n = true) by apply odd_up_odd.
    apply Z.odd_spec in O. destruct O as (k & Hk).
    pose proof (odd_up_ge (Z.max (S + padding) (64 + padding))) as G.
    unfold padding in G. fold (canvas_size S 64) in G.
    unfold canvas_size, padding in Hk. fold padding in Hk.
    unfold n, canvas_size, padding in *. lia. }
  assert (Hn' : n <= 233).
  { unfold n, canvas_size, odd_up, padding.
    destruct (_ =? 0); lia. }
  cbv zeta. rewrite py_format_small by lia.
  rewrite np_zeros_small by (unfold small_alloc; nia).
  rewrite repeat_length, Z2Nat.id by lia.
  unfold resize. rewrite Hne, Hcols. cbn [orb Nat.mul Nat.add Nat.eqb].
  destruct (HC image 128%nat 128%nat INTER_LINEAR Hrect Hne
              ltac:(lia) ltac:(lia)) as (Hrs & Hs).
  assert (Hs' : shape (cv2_resize image 128 128 INTER_LINEAR)
                = [128; 128; 4]%nat).
  { rewrite Hs. unfold resized_shape. rewrite Ep in *. now rewrite Hch. }
  destruct (shape3_inv _ _ _ _ Hs') as (q & Eq & Hr' & Hc' & Hch').
  change (64 * 2)%nat with 128%nat.
  rewrite Hr', Hc'. rewrite Eq in *.
  unfold assign_slice. rewrite repeat_length, Z2Nat.id by lia.
  destruct (paste_offset_inside n (Z.of_nat 128) ltac:(lia)) as (Ho1 & Ho2).
  rewrite (slice_range_inside n _ (Z.of_nat 128)) by lia.
  rewrite Hr', Hc', Hch', !Z.eqb_refl. cbn [andb Nat.eqb]. eauto.
Qed.

Lemma composed_only_int (sz : pyval) (image : ndarray) r :
  resize_contract cv ->
  rectangular image -> shape image = [64; 64; 4]%nat ->
  composed sz image = Ok r ->
  exists S, sz = PInt S /\ 96 <= S.
Proof.
  intros HC Hrect Hshape Hc. destruct r as [n img].
  destruct (composed_ok _ _ _ _ HC Hrect Hshape Hc) as (Hodd & Hn & _).
  unfold composed in Hc.
  destruct (shape3_inv _ _ _ _ Hshape) as (p & Ep & Hrows & Hcols & Hch).
  rewrite Hrows in Hc.
  destruct (py_add_int sz padding) as [a|e] eqn:Ea; [|discriminate].
  cbv zeta in Hc.
  destruct (py_format _) as [[]|e]; [|discriminate].
  destruct (np_zeros _) as [zeros|e] eqn:Ez; [|discriminate].
  assert (En : n = Z.of_nat (List.length zeros)).
  { destruct (resize _ _ _ _); [|discriminate].
    destruct (assign_slice _ _ _ _ _ _); [|discriminate].
    now injection Hc. }
  clear Hc.
  unfold np_zeros in Ez.
  destruct (py_odd_up _) as [| |k| | | | |] eqn:Eo; try discriminate.
  destruct (k <? 0) eqn:Ek; cbn [orb] in Ez; [discriminate|].
  destruct (2 ^ 63 <=? 4 * k * k) eqn:Em; [discriminate|].
  destruct (_ || _); [|discriminate].
  injection Ez as <-. apply Z.ltb_ge in Ek. apply Z.leb_gt in Em.
  rewrite repeat_length, Z2Nat.id in En by lia. subst k.
  destruct sz; cbn [py_add_int] in Ea; try discriminate;
    injection Ea as <-; cbn [py_max py_odd_up] in Eo.
  - (* a boolean counts as 0 or 1: the canvas is 97 *)
    injection Eo as Eo. unfold odd_up, padding in Eo.
    destruct b; cbn in Eo; lia.
  - exists z. split; [reflexivity|].
    injection Eo as Eo.
    assert (Ec : canvas_size z 64 = n) by exact Eo.
    destruct (Z_le_gt_dec 96 z) as [|Hlt]; [assumption|].
    unfold canvas_size, padding in Ec.
    unfold odd_up in Ec. destruct (_ =? 0) in Ec; lia.
  - (* a float: the canvas would be 97, or is not an integer *)
    destruct (B64.compare_Z _ _) as [[| |]|]; cbn [py_odd_up] in Eo;
      try (destruct (float_is_even _); discriminate).
    injection Eo as Eo. cbn in Eo. lia.
Qed.

(** X24. With a 64x64 image stored, and for every value of [size] but an
    integer above 200, the slider's maximum: [update_crosshair] renders
    exactly when [size] is an integer of at least 96, and then it reports
    success; in every other case (a smaller integer, a boolean, a float or
    any other value read from a settings file) it prints the error and a
    traceback and leaves the display as it was. *)
Theorem update_crosshair_succeeds_iff (w : World) (img : ndarray) :
  resize_contract cv ->
  crosshair_image w = Some img ->
  rectangular img ->
  shape img = [64; 64; 4]%nat ->
  (forall S, attrs w size = PInt S -> S <= 200) ->
  let w' := snd (update_crosshair w) in
  let fits := exists S, attrs w size = PInt S /\ 96 <= S in
  (last_printed w' = Text "Crosshair updated successfully" <-> fits)
  /\ (~ fits ->
      last_printed w' = Traceback
      /\ pixmap w' = pixmap w /\ geometry w' = geometry w).
Proof.
  intros HC Himg Hrect Hshape Hmax w' fits.
  pose proof (update_crosshair_report w) as Hl. unfold wp in Hl.
  fold w' in Hl. rewrite Himg in Hl.
  pose proof (displayed_update_crosshair w) as Hd. fold w' in Hd.
  unfold rendering in Hd. rewrite Himg in Hd.
  destruct (composed (attrs w size) img) as [r|e] eqn:Ec.
  - assert (F : fits) by exact (composed_only_int _ _ _ HC Hrect Hshape Ec).
    split; [split; [intros _; exact F | intros _; exact Hl]|].
    intros Hn. contradiction.
  - assert (F : ~ fits).
    { intros (S & ES & H96).
      destruct (composed_int S img HC Hrect Hshape
                  (conj H96 (Hmax S ES))) as (r & Hr).
      rewrite ES in Ec. congruence. }
    split.
    + rewrite Hl. split; [discriminate | intros H; contradiction].
    + intros _. unfold displayed in Hd. injection Hd as Hp Hg.
      now repeat split.
Qed.

Lemma blank_display (w w' : World) :
  crosshair_image w' = crosshair_image w ->
  pixmap w' = pixmap w -> geometry w' = geometry w ->
  blank w -> blank w'.
Proof. unfold blank. intros -> -> ->. exact (fun H => H). Qed.

Lemma blank_respects :
  respects (preserves blank) (fun _ => True) (fun _ => True) (fun _ => True).
Proof.
  split; unfold preserves, keeps.
  - auto.
  - auto.
  - intros l w. now apply blank_display.
  - intros w Hb.
    destruct (update_crosshair_rendering w) as (_ & D & Hr).
    destruct D as (_ & Ei & _). destruct Hb as (Hi & Hp & Hg).
    unfold rendering, displayed in Hr. rewrite Hi in Hr.
    injection Hr as Hp' Hg'. unfold blank. rewrite Ei, Hp', Hg'.
    now repeat split.
  - intros a v _ w. now apply blank_display.
  - intros s z _ _ w. now apply blank_display.
  - intros c b _ w. now apply blank_display.
Qed.

(** X25. The overlay draws only a loaded image.  Until an image file has
    been read, nothing is displayed and the window is never resized,
    whatever the settings file holds and whatever the sliders, check
    boxes, colour dialogs and the code field are used for. *)
Theorem nothing_drawn_without_image (f : option file) (es : list event) :
  Forall reads_no_image es ->
  let w := run es (exec startup (init_world f)) in
  crosshair_image w = None /\ pixmap w = None /\ geometry w = None.
Proof.
  intros Hes w.
  apply (keeps_run _ _ _ _ blank_respects es).
  - intros e He. rewrite Forall_forall in Hes. specialize (Hes e He).
    apply (keeps_handle _ _ _ _ blank_respects); auto.
    + intros t w0. unfold preserves. now apply blank_display.
    + intros f0 w0. unfold preserves. now apply blank_display.
    + intros p ->. cbn [reads_no_image] in Hes.
      destruct p as [[image|]|]; [contradiction| |].
      * unfold load_crosshair_image.
        apply (keeps_try _ _ _ _ blank_respects);
          [|intros e0;
            apply (keeps_bind _ _ _ _ blank_respects);
            [apply (r_print _ _ _ _ blank_respects)
            |intros _; apply (r_print _ _ _ _ blank_respects)]].
        apply (keeps_bind _ _ _ _ blank_respects);
          [apply (r_print _ _ _ _ blank_respects)
          |intros _; apply (r_print _ _ _ _ blank_respects)].
      * intros w0 H0. exact H0.
  - apply (keeps_startup _ _ _ _ blank_respects); auto.
    unfold blank, init_world. now repeat split.
Qed.

(** X26. Missing keys take their defaults.  Loading a settings document that
    is an object with none of the fourteen keys succeeds and puts every
    loaded attribute back to its default, with the size, thickness, inner
    and outer opacity sliders and the four check boxes showing those
    defaults; the outline colour is the one attribute that stays. *)
Theorem load_settings_defaults (d : list (str * pyval)) (w : World) :
  settings_file w = Some (Json (PDict d)) ->
  (forall k, In k loaded_keys -> dict_lookup k d = None) ->
  let w' := snd (load_settings w) in
  fst (load_settings w) = Ok tt
  /\ last_printed w' = Text "Settings loaded successfully!"
  /\ (forall a, a <> outline_color -> attrs w' a = default_attrs a)
  /\ attrs w' outline_color = attrs w outline_color
  /\ (forall s, s <> dot_opacity_slider ->
                slider_value w' s = initial_slider s)
  /\ slider_value w' dot_opacity_slider = slider_value w dot_opacity_slider
  /\ (forall c, checked w' c = initial_check c).
Proof.
  intros Hfile Hnone w'.
  assert (Hreads : reads (PDict d) default_attrs).
  { unfold reads, py_get.
    repeat match goal with
           | |- context [dict_lookup (lit ?k) d] =>
               rewrite (Hnone (lit k)) by (cbn; tauto)
           end.
    repeat split. now exists (PTuple [PInt 0; PInt 255; PInt 0]). }
  pose proof (load_settings_reads (PDict d) default_attrs initial_slider
                initial_check w Hfile Hreads) as H.
  unfold wp in H. fold w' in H.
  destruct H as (Hr & Hl & Ha & Ho & Hs & Hd & Hc & _).
  - intros s Hs. unfold in_range.
    destruct s; try contradiction;
      cbn [initial_slider slider_min slider_max slider_attr slider_store
           default_attrs];
      (split; [lia | reflexivity]).
  - reflexivity.
  - reflexivity.
  - now intros [].
  - now repeat split.
Qed.

(** X27. A size the slider cannot take is found too late.  When the
    document's size is not an integer the slider accepts (a float, a
    string, a number outside the C int range), [load_settings] has
    already replaced all fourteen attributes by what it read when
    [size_slider.setValue] raises: the error is printed and no slider and
    no check box has moved. *)
Theorem load_settings_late_failure (S : pyval) (f : attr -> pyval) (e : exn)
    (w : World) :
  settings_file w = Some (Json S) ->
  reads S f ->
  to_c_int (f size) = Raise e ->
  let w' := snd (load_settings w) in
  fst (load_settings w) = Ok tt
  /\ last_printed w' = Err "Error loading settings: " e
  /\ (forall a, a <> outline_color -> attrs w' a = f a)
  /\ attrs w' outline_color = attrs w outline_color
  /\ (forall s, slider_value w' s = slider_value w s)
  /\ (forall c, checked w' c = checked w c).
Proof.
  intros Hfile Hreads He w'.
  assert (H : wp load_settings
                (fun r w' =>
                   r = Ok tt
                   /\ last_printed w' = Err "Error loading settings: " e
                   /\ (forall a, a <> outline_color -> attrs w' a = f a)
                   /\ attrs w' outline_color = attrs w outline_color
                   /\ (forall s, slider_value w' s = slider_value w s)
                   /\ (forall c, checked w' c = checked w c)) w).
  { unfold load_settings. apply wp_bind, wp_gets.
    rewrite Hfile. apply wp_try. apply wp_bind, wp_lift. cbv beta iota.
    apply (load_settings_assigns S f w _ _ Hreads). intros w1 W.
    apply wp_bind. apply (get_attr_step _ _ _ _ _ _ _ W).
    destruct (attr_eq_dec size outline_color) as [|_]; [discriminate|].
    apply wp_bind. unfold setValue. apply wp_bind, wp_lift. rewrite He.
    apply wp_modify.
    destruct W as (Ha & Hs & Hc & _).
    split; [reflexivity|]. wp_norm.
    split; [unfold last_printed; wp_norm; apply last_last|].
    split.
    { intros a Hne. rewrite Ha.
      destruct (attr_eq_dec a outline_color); [contradiction | reflexivity]. }
    split.
    { rewrite Ha.
      destruct (attr_eq_dec outline_color outline_color);
        [reflexivity | contradiction]. }
    split; [exact Hs | exact Hc]. }
  exact H.
Qed.

(** ** Quotients that are floats *)


















Lemma slice_range_fits (n start stop : Z) :
  0 <= n ->
  0 <= fst (slice_range n start stop)
  /\ 0 <= snd (slice_range n start stop)
  /\ fst (slice_range n start stop) + snd (slice_range n start stop) <= n.
Proof.
  intros H. unfold slice_range. cbn [fst snd].
  pose proof (slice_bound_range n start H).
  pose proof (slice_bound_range n stop H). lia.
Qed.

Lemma assign_slice_length (img img' : list (list (list Z)))
    (y0 y1 x0 x1 : Z) (scaled : ndarray) :
  assign_slice img y0 y1 x0 x1 scaled = Ok img' ->
  List.length img' = List.length img.
Proof.
  unfold assign_slice.
  pose proof (slice_range_fits (Z.of_nat (List.length img)) y0 y1
                ltac:(lia)) as (Y0 & Y1 & Y2).
  destruct (slice_range _ y0 y1) as [ys ylen].
  destruct (slice_range _ x0 x1) as [xs xlen].
  cbn [fst snd] in *.
  destruct scaled as [p|px]; [discriminate|].
  destruct (ylen =? _) eqn:Ey; cbn [andb]; [|discriminate].
  destruct (_ && _); [|discriminate].
  intros [= <-]. apply Z.eqb_eq in Ey. cbn [rows] in Ey.
  apply paste_length. lia.
Qed.

Ltac canvas_failed :=
  wp_go; split;
  [ intros _; rewrite <- !app_assoc; cbn [app]; eexists; reflexivity
  | unfold last_printed; wp_norm; rewrite last_last; intros [=] ].

(** C5. For every integer size [S] and every stored image of height [H],
    the canvas dimension [n] that [update_crosshair] computes is
    [max (S + 32) (H + 32)], plus one when that is even, so it is odd and
    at least [max S H + 32]: [update_crosshair] prints this [n] as the
    size of the image it creates (an f-string formats it when it has at
    most 4300 digits) and, whenever it goes on to display the canvas, the
    pixmap has [n] rows and the window is resized to [n] x [n]. *)
Theorem update_crosshair_canvas_size (w : World) (image : ndarray) (S : Z) :
  crosshair_image w = Some image ->
  attrs w size = PInt S ->
  let H := Z.of_nat (rows image) in
  let n := let m := Z.max (S + 32) (H + 32) in if Z.even m then m + 1 else m in
  let w' := snd (update_crosshair w) in
  Z.odd n = true
  /\ Z.max S H + 32 <= n
  /\ (int_printable n = true ->
      exists rest,
        stdout w'
        = stdout w
          ++ [ Text "Starting update_crosshair";
               Fmt "Crosshair image shape: " [shape_val image];
               Fmt "Creating image of size: " [PInt n; PInt n] ]
          ++ rest)
  /\ (last_printed w' = Text "Crosshair updated successfully" ->
      geometry w' = Some (n, n)
      /\ exists canvas,
           pixmap w' = Some (Arr3 canvas)
           /\ Z.of_nat (List.length canvas) = n).
Proof.
  intros Himg Hsize H n w'.
  destruct (canvas_size_odd S H) as (En & Hodd & Hge).
  fold n in En. rewrite En in Hodd, Hge.
  split; [exact Hodd|]. split; [exact Hge|].
  unfold w'. clear w'.
  change (wp update_crosshair
            (fun _ w' =>
               (int_printable n = true ->
                exists rest,
                  stdout w'
                  = stdout w
                    ++ [ Text "Starting update_crosshair";
                         Fmt "Crosshair image shape: " [shape_val image];
                         Fmt "Creating image of size: " [PInt n; PInt n] ]
                    ++ rest)
               /\ (last_printed w' = Text "Crosshair updated successfully" ->
                   geometry w' = Some (n, n)
                   /\ exists canvas,
                        pixmap w' = Some (Arr3 canvas)
                        /\ Z.of_nat (List.length canvas) = n)) w).
  unfold update_crosshair. apply wp_try. wp_go.
  rewrite Himg. wp_go. rewrite Hsize. cbn [py_add_int]. wp_go.
  cbn [py_max py_odd_up].
  change (odd_up (Z.max (S + padding) (Z.of_nat (rows image) + padding)))
    with (canvas_size S H).
  rewrite En.
  destruct (py_format (PInt n)) as [[]|e] eqn:Ef.
  2: { wp_go. split.
       - intros Hp. unfold py_format in Ef. rewrite Hp in Ef. discriminate.
       - unfold last_printed. wp_norm. rewrite last_last. intros [=]. }
  wp_go.
  destruct (np_zeros (PInt n)) as [img|e] eqn:Ez; [|canvas_failed].
  apply np_zeros_inv in Ez. destruct Ez as (n0 & [= <-] & Hn0 & ->).
  wp_go. rewrite repeat_length, Z2Nat.id by exact Hn0.
  destruct (resize _ _ _ _) as [scaled|e]; [|canvas_failed].
  wp_go.
  destruct (assign_slice _ _ _ _ _ _) as [img'|e] eqn:Ea; [|canvas_failed].
  apply assign_slice_length in Ea. rewrite repeat_length in Ea.
  wp_go. split.
  - intros _. rewrite <- !app_assoc. cbn [app]. eexists. reflexivity.
  - intros _. split; [reflexivity|].
    exists img'. split; [reflexivity|]. rewrite Ea. now apply Z2Nat.id.
Qed.

End Facts.

(** * An implementation of the resize contract, and runs of the program *)

Lemma sample_length {A} (d : A) (l : list A) (k : nat) :
  List.length (sample d l k) = k.
Proof. unfold sample. now rewrite length_map, length_seq. Qed.

Lemma sample_in {A} (d : A) (l : list A) (k : nat) (x : A) :
  l <> [] -> In x (sample d l k) -> In x l.
Proof.
  intros Hl Hin. unfold sample in Hin. apply in_map_iff in Hin.
  destruct Hin as (i & <- & Hi). apply in_seq in Hi.
  apply nth_In.
  assert (0 < List.length l)%nat by (destruct l; [contradiction | cbn; lia]).
  apply Nat.Div0.div_lt_upper_bound. nia.
Qed.

Lemma sample_hd {A} (d d' : A) (l : list A) (k : nat) :
  (0 < k)%nat -> hd d' (sample d l k) = hd d l.
Proof.
  intros Hk. destruct k as [|k]; [lia|].
  unfold sample. cbn [seq map hd]. rewrite Nat.mul_0_l, Nat.Div0.div_0_l.
  now destruct l.
Qed.

Lemma hd_map {A B} (f : A -> B) (d : A) (d' : B) (l : list A) :
  l <> [] -> hd d' (map f l) = f (hd d l).
Proof. destruct l; [contradiction | reflexivity]. Qed.

Lemma sample_nonempty {A} (d : A) (l : list A) (k : nat) :
  (0 < k)%nat -> sample d l k <> [].
Proof.
  intros Hk E. apply (f_equal (@List.length A)) in E.
  rewrite sample_length in E. cbn in E. lia.
Qed.

Lemma nearest_contract : resize_contract nearest_cv.
Proof.
  intros a w h i Hrect He Hw Hh. cbn [cv2_resize nearest_cv].
  unfold is_empty in He. apply orb_false_elim in He. destruct He as (He & Hch).
  apply orb_false_elim in He. destruct He as (Hr & Hc).
  apply Nat.eqb_neq in Hr, Hc, Hch.
  destruct a as [p|p]; cbn [nearest].
  - assert (Hp : p <> []) by (intros ->; now apply Hr).
    assert (Hcols : cols (Arr2 (map (fun r => sample 0 r w) (sample [] p h))) = w).
    { cbn [cols]. rewrite (hd_map _ [] []) by now apply sample_nonempty.
      apply sample_length. }
    split.
    + cbn [rectangular]. rewrite Hcols. apply Forall_forall. intros r Hin.
      apply in_map_iff in Hin. destruct Hin as (r' & <- & _). apply sample_length.
    + cbn [shape resized_shape]. rewrite Hcols. cbn [rows].
      now rewrite length_map, sample_length.
  - assert (Hp : p <> []) by (intros ->; now apply Hr).
    assert (Hrow : forall r, In r p -> r <> []).
    { intros r Hin ->. cbn [rectangular] in Hrect.
      rewrite Forall_forall in Hrect. destruct (Hrect [] Hin) as (Hl & _).
      cbn [List.length] in Hl. now apply Hc. }
    destruct (chans (Arr3 p) =? 1)%nat eqn:E1.
    + assert (Hcols : cols (Arr2 (map (fun r => map (fun x => nth 0 x 0)
                                               (sample [] r w))
                                    (sample [] p h))) = w).
      { cbn [cols]. rewrite (hd_map _ [] []) by now apply sample_nonempty.
        rewrite length_map. apply sample_length. }
      split.
      * cbn [rectangular]. rewrite Hcols. apply Forall_forall. intros r Hin.
        apply in_map_iff in Hin. destruct Hin as (r' & <- & _).
        rewrite length_map. apply sample_length.
      * cbn [shape]. rewrite Hcols. unfold resized_shape. rewrite E1.
        cbn [rows]. now rewrite length_map, sample_length.
    + set (out := map (fun r => sample [] r w) (sample [] p h)).
      assert (Hcols : cols (Arr3 out) = w).
      { cbn [cols]. unfold out. rewrite (hd_map _ [] []) by now apply sample_nonempty.
        apply sample_length. }
      assert (Hchans : chans (Arr3 out) = chans (Arr3 p)).
      { cbn [chans]. unfold out. rewrite (hd_map _ [] []) by now apply sample_nonempty.
        rewrite (sample_hd _ _ _ _ Hw). now rewrite (sample_hd _ _ _ _ Hh). }
      split.
      * cbn [rectangular]. rewrite Hcols, Hchans. apply Forall_forall.
        intros r Hin. unfold out in Hin. apply in_map_iff in Hin.
        destruct Hin as (r' & <- & Hin'). split; [apply sample_length|].
        apply sample_in in Hin'; [|exact Hp].
        apply Forall_forall. intros x Hx.
        apply sample_in in Hx; [|now apply Hrow].
        cbn [rectangular] in Hrect. rewrite Forall_forall in Hrect.
        destruct (Hrect r' Hin') as (_ & Hpx). rewrite Forall_forall in Hpx.
        now apply Hpx.
      * cbn [shape]. rewrite Hcols, Hchans. unfold resized_shape. rewrite E1.
        cbn [rows]. unfold out. now rewrite length_map, sample_length.
Qed.

#[local] Existing Instance nearest_cv.

Lemma rectangular_repeat (x : list Z) (w h : nat) :
  rectangular (Arr3 (repeat (repeat x (S w)) (S h))).
Proof.
  unfold rectangular. apply Forall_forall. intros r Hr.
  apply repeat_spec in Hr. subst r. split; [reflexivity|].
  apply Forall_forall. intros y Hy. apply repeat_spec in Hy. subst y.
  reflexivity.
Qed.

Lemma rectangular_solid : rectangular solid.
Proof. exact (rectangular_repeat [0; 255; 0; 255] 63 63). Qed.

Lemma rectangular_img_7x5 : rectangular img_7x5.
Proof. exact (rectangular_repeat [10; 20; 31] 4 6). Qed.

(** ** C1 *)

(** C1, counterexample. With the inner opacity slider at 50, decoding a code
    whose inner opacity percentage is 150 leaves [inner_opacity] at 1.0, not
    at 150 / 100: the slider bounds the value to 100 and its slot assigns
    100 / 100. *)
Lemma decode_150_clamped :
  re_search code_150
  = Some [lit "1"; lit "4"; lit "2"; lit "150"; lit "0"; lit "3"; lit "50"; lit "2"]
  /\ attrs w_150 inner_opacity = PFloat (B64.div_Z 100 100)
  /\ B64.ltb (B64.div_Z 100 100) (B64.div_Z 150 100) = true
  /\ slider_value w_150 inner_opacity_slider = 100.
Proof. vm_compute. repeat split; reflexivity. Qed.

(** The specification's example: decoding
    [0;P;x;0t;1;0l;4;0o;2;0a;75;0f;0;1t;3;1o;50;1a;2] yields
    [show_outline = True], [inner_length = 8], [outer_length = 4],
    [inner_opacity = 0.75], [outline_thickness = 3], [outer_opacity = 1.0]. *)
Lemma decode_applies_sample :
  let w' := snd (parse_valorant_code w_sample) in
  re_search (code_input w_sample)
  = Some [lit "1"; lit "4"; lit "2"; lit "75"; lit "0"; lit "3"; lit "50"; lit "2"]
  /\ attrs w' show_outline = PBool true
  /\ attrs w' inner_length = PInt 8
  /\ attrs w' outer_length = PInt 4
  /\ attrs w' inner_opacity = PFloat (B64.div_Z 3 4)
  /\ attrs w' outline_thickness = PInt 3
  /\ attrs w' outer_opacity = PFloat B64.one.
Proof.
  intros w'.
  assert (Hs : re_search (code_input w_sample)
               = Some [lit "1"; lit "4"; lit "2"; lit "75"; lit "0"; lit "3";
                       lit "50"; lit "2"]) by (vm_compute; reflexivity).
  assert (Hl : Forall (fun d => (List.length d <= int_max_str_digits)%nat)
                 [lit "1"; lit "4"; lit "2"; lit "75"; lit "0"; lit "3";
                  lit "50"; lit "2"]).
  { repeat (apply Forall_cons; [apply Nat.leb_le; vm_compute; reflexivity|]).
    apply Forall_nil. }
  destruct (decode_applies w_sample _ Hs Hl) as (_ & A1 & A2 & A3 & A4 & A5 & A6 & _).
  - vm_compute. discriminate.
  - vm_compute. discriminate.
  - fold w' in A1, A2, A3, A4, A5, A6.
    split; [exact Hs|].
    rewrite A1, A2, A3, A4, A5, A6. vm_compute. repeat split; reflexivity.
Defined.

(** ** C2 *)

Lemma update_crosshair_small_size_witness :
  let n := canvas_size 50 64 in
  let w' := snd (update_crosshair w_small) in
  crosshair_image w_small = Some solid
  /\ attrs w_small size = PInt 50
  /\ n = 97
  /\ paste_offset n (2 * 64) = -16
  /\ pixmap w' = None
  /\ geometry w' = None
  /\ stdout w'
     = [ Text "Starting update_crosshair";
         Fmt "Crosshair image shape: " [PTuple [PInt 64; PInt 64; PInt 4]];
         Fmt "Creating image of size: " [PInt 97; PInt 97];
         Fmt "Offsets: " [PInt 16; PInt 16];
         Err "Error in update_crosshair: " ValueError;
         Traceback ].
Proof.
  intros n w'.
  destruct (update_crosshair_small_size w_small solid 50
              nearest_contract eq_refl rectangular_solid eq_refl eq_refl
              ltac:(lia))
    as (_ & _ & _ & Hp & Hg & Ho).
  fold w' in Hp, Hg, Ho.
  split; [reflexivity|]. split; [reflexivity|].
  split; [reflexivity|]. split; [reflexivity|].
  rewrite Hp, Hg, Ho. repeat split.
Defined.

(** The same on a run of the program: an image is loaded at the default
    size 100 and rendered on a canvas of 133; the size slider is then moved
    to 50, both slot calls fail, and the window keeps its size. *)
Lemma small_size_run :
  let w1 := run_from_start [LoadImage (Some (Some (Picture uint8 solid)))] in
  let w2 := run [MoveSlider size_slider 50] w1 in
  geometry w1 = Some (133, 133)
  /\ attrs w2 size = PInt 50
  /\ geometry w2 = Some (133, 133)
  /\ pixmap w2 = pixmap w1
  /\ skipn (List.length (stdout w1)) (stdout w2)
     = [ Text "Starting update_crosshair";
         Fmt "Crosshair image shape: " [PTuple [PInt 64; PInt 64; PInt 4]];
         Fmt "Creating image of size: " [PInt 97; PInt 97];
         Fmt "Offsets: " [PInt 16; PInt 16];
         Err "Error in update_crosshair: " ValueError;
         Traceback;
         Text "Starting update_crosshair";
         Fmt "Crosshair image shape: " [PTuple [PInt 64; PInt 64; PInt 4]];
         Fmt "Creating image of size: " [PInt 97; PInt 97];
         Fmt "Offsets: " [PInt 16; PInt 16];
         Err "Error in update_crosshair: " ValueError;
         Traceback ].
Proof. vm_compute. repeat split; reflexivity. Qed.

(** ** C3 *)

(** C3 on the code: with the inner opacity slider moved to 29,
    [inner_opacity] is 29 / 100; saving and loading succeed, and loading
    sets the slider to [int(0.29 * 100)], which is 28, so the slider's slot
    assigns 28 / 100: the field is not what it was when saved. *)
Theorem save_load_changes_opacity :
  attrs w_29 inner_opacity = PFloat (B64.div_Z 29 100)
  /\ B64.trunc (B64.mul (B64.div_Z 29 100) (B64.of_Z 100)) = 28
  /\ attrs w_29_reloaded inner_opacity = PFloat (B64.div_Z 28 100)
  /\ B64.ltb (B64.div_Z 28 100) (B64.div_Z 29 100) = true
  /\ slider_value w_29 inner_opacity_slider = 29
  /\ slider_value w_29_reloaded inner_opacity_slider = 28
  /\ In (Text "Settings saved successfully!") (stdout w_29_reloaded)
  /\ last_printed w_29_reloaded = Text "Settings loaded successfully!".
Proof. vm_compute. repeat split; try reflexivity. tauto. Qed.

(** [save_settings] writes [outline_color]; [load_settings] never reads it:
    an outline colour saved in one run is the default in the next. *)
Lemma outline_color_not_restored :
  attrs w_red outline_color = PTuple [PInt 255; PInt 0; PInt 0]
  /\ (exists d, settings_file w_red = Some (Json (PDict d))
                /\ dict_lookup (lit "outline_color") d
                   = Some (PList [PInt 255; PInt 0; PInt 0]))
  /\ attrs w_red_restarted outline_color = PTuple [PInt 0; PInt 0; PInt 0]
  /\ last_printed w_red_restarted = Text "Settings loaded successfully!".
Proof.
  split; [vm_compute; reflexivity|]. split.
  - eexists. split; [vm_compute; reflexivity | vm_compute; reflexivity].
  - vm_compute. split; reflexivity.
Qed.

(** ** C4 *)

(** The last case of the amended C4 at the file [{size: 150, color: 7}]:
    [tuple(7)] raises [TypeError] and [size] is left at 150. *)
Lemma load_settings_early_failure_witness :
  py_tuple (PInt 7) = Raise TypeError
  /\ load_settings w_bad_color
     = (Ok tt,
        printed (Err "Error loading settings: " TypeError)
          (exec (set_attr size (PInt 150)) w_bad_color)).
Proof.
  split; [reflexivity|].
  exact (load_settings_early_failure w_bad_color TypeError eq_refl).
Defined.

(** C4, counterexample. On a settings file whose [color] is a number the
    load fails with a [TypeError], after [size] has been assigned. *)
Lemma load_bad_color_partial :
  let w' := snd (load_settings w_bad_color) in
  settings_file w_bad_color = Some bad_color
  /\ attrs w_bad_color size = PInt 100
  /\ fst (load_settings w_bad_color) = Ok tt
  /\ last_printed w' = Err "Error loading settings: " TypeError
  /\ attrs w' size = PInt 150.
Proof. vm_compute. repeat split; reflexivity. Qed.

(** ** C6 *)

(** C6, counterexample. On the empty input, which the pattern does not
    match, nothing is printed: no failure is signalled. *)
Lemma parse_empty_silent :
  code_input started = []
  /\ re_search (code_input started) = None
  /\ fst (parse_valorant_code started) = Ok tt
  /\ stdout (snd (parse_valorant_code started)) = stdout started.
Proof. vm_compute. repeat split; reflexivity. Qed.

Lemma parse_rejects_witness :
  let w' := snd (parse_valorant_code w_hello) in
  re_search (code_input w_hello) = None
  /\ fst (parse_valorant_code w_hello) = Ok tt
  /\ (forall a, attrs w' a = attrs w_hello a)
  /\ stdout w'
     = stdout w_hello ++ [Text "Invalid Valorant crosshair code format"].
Proof.
  intros w'.
  assert (H : re_search (code_input w_hello) = None) by (vm_compute; reflexivity).
  destruct (parse_rejects w_hello H) as (Hr & Ha & _ & _ & _ & Ho).
  repeat split; assumption.
Defined.

(** ** C7 *)


(** ** C8 *)

Lemma normalizer_output_witness :
  fst (convert_to_recommended_resolution (Picture uint8 img_7x5) started)
  = Ok (Some normalized_7x5)
  /\ shape normalized_7x5 = [64; 64; 4]%nat
  /\ plane 3 normalized_7x5 = repeat (repeat 255 64) 64
  /\ plane 0 normalized_7x5 = repeat (repeat (convertScaleAbs_byte 10) 64) 64
  /\ convertScaleAbs_byte 10 = 45
  /\ convertScaleAbs_byte 31 = 76
  /\ convertScaleAbs_byte 200 = 255.
Proof.
  assert (H : fst (convert_to_recommended_resolution (Picture uint8 img_7x5) started)
              = Ok (Some normalized_7x5)) by (vm_compute; reflexivity).
  destruct (normalizer_output uint8 img_7x5 normalized_7x5 started
              nearest_contract rectangular_img_7x5 H)
    as (Hs & _ & H3 & Hk & _).
  split; [exact H|]. split; [exact Hs|].
  rewrite H3, (Hk 0%nat ltac:(lia)).
  vm_compute. repeat split; reflexivity.
Defined.

(** ** C9 *)

Lemma update_crosshair_without_image_witness :
  crosshair_image started = None
  /\ fst (update_crosshair started) = Ok tt
  /\ pixmap (snd (update_crosshair started)) = pixmap started
  /\ geometry (snd (update_crosshair started)) = geometry started
  /\ attrs (snd (update_crosshair started)) = attrs started.
Proof.
  assert (H : crosshair_image started = None) by reflexivity.
  destruct (update_crosshair_without_image started H) as (A & B & C & D & _).
  repeat split; assumption.
Defined.

(** * Runs for the properties above *)

Lemma update_crosshair_pixels_witness :
  let w' := snd (update_crosshair w_large) in
  canvas_size 100 64 = 133
  /\ paste_offset 133 (2 * 64) = 2
  /\ geometry w' = Some (133, 133)
  /\ exists canvas,
       pixmap w' = Some canvas
       /\ shape canvas = [133; 133; 4]%nat
       /\ pixel canvas 1 66 = [0; 0; 0; 0]
       /\ pixel canvas 66 66 = [0; 255; 0; 255].
Proof.
  intros w'.
  destruct (update_crosshair_pixels w_large solid 100 nearest_contract
              eq_refl rectangular_solid eq_refl eq_refl ltac:(lia))
    as (_ & _ & Hg & canvas & Hp & Hs & Hpix).
  split; [reflexivity|]. split; [reflexivity|]. split; [exact Hg|].
  exists canvas. split; [exact Hp|]. split; [exact Hs|]. split.
  - exact (Hpix 1%nat 66%nat ltac:(vm_compute; lia) ltac:(vm_compute; lia)).
  - exact (Hpix 66%nat 66%nat ltac:(vm_compute; lia) ltac:(vm_compute; lia)).
Defined.

Lemma display_reads_size_only_witness :
  attrs w_large color <> attrs w_large_red color
  /\ pixmap (snd (update_crosshair w_large))
     = pixmap (snd (update_crosshair w_large_red))
  /\ geometry (snd (update_crosshair w_large))
     = geometry (snd (update_crosshair w_large_red)).
Proof.
  split; [discriminate|].
  exact (display_reads_size_only w_large w_large_red
           eq_refl eq_refl eq_refl eq_refl).
Defined.

Lemma reachable_sliders_in_range_witness :
  reachable (run_from_start [MoveSlider size_slider 500])
  /\ forall s,
       slider_min s
       <= slider_value (run_from_start [MoveSlider size_slider 500]) s
       <= slider_max s.
Proof.
  assert (H : reachable (run_from_start [MoveSlider size_slider 500])).
  { now exists None, [MoveSlider size_slider 500]. }
  split; [exact H|].
  exact (reachable_sliders_in_range _ H).
Defined.

Lemma reachable_display_sound_witness :
  let es := [LoadImage (Some (Some (Picture uint8 solid)));
             MoveSlider size_slider 50] in
  let w := run es (exec startup (init_world None)) in
  Forall event_ok es /\ image_ok w /\ display_ok w.
Proof.
  intros es w.
  assert (H : Forall event_ok es).
  { constructor; [exact rectangular_solid|].
    constructor; [exact I | constructor]. }
  split; [exact H|].
  exact (reachable_display_sound None es nearest_contract H).
Defined.

Lemma decode_rejects_long_numbers_witness :
  re_search (code_input (entered code_long)) = Some groups_long
  /\ all_short groups_long = false
  /\ parse_valorant_code (entered code_long)
     = (Ok tt,
        printed (Err "Error parsing crosshair code: " ValueError)
          (entered code_long)).
Proof.
  assert (H : re_search (code_input (entered code_long)) = Some groups_long)
    by (vm_compute; reflexivity).
  assert (Hs : all_short groups_long = false) by (vm_compute; reflexivity).
  split; [exact H|]. split; [exact Hs|].
  exact (decode_rejects_long_numbers (entered code_long) groups_long H Hs).
Defined.

Lemma decode_overflow_partial_witness :
  re_search (code_input (entered code_huge)) = Some groups_huge
  /\ py_truediv (number groups_huge 4) 100 = Raise OverflowError
  /\ let w' := snd (parse_valorant_code (entered code_huge)) in
     attrs w' show_outline = PBool true
     /\ checked w' outline_check = false
     /\ attrs w' inner_length = PInt 8
     /\ attrs w' outer_length = PInt 4
     /\ attrs w' inner_opacity = PFloat B64.one
     /\ last_printed w' = Err "Error parsing crosshair code: " OverflowError.
Proof.
  assert (H : re_search (code_input (entered code_huge)) = Some groups_huge)
    by (vm_compute; reflexivity).
  assert (Hs : all_short groups_huge = true) by (vm_compute; reflexivity).
  assert (Ho : py_truediv (number groups_huge 4) 100 = Raise OverflowError)
    by (vm_compute; reflexivity).
  split; [exact H|]. split; [exact Ho|].
  rewrite (decode_overflow_partial (entered code_huge) groups_huge H Hs Ho).
  vm_compute. repeat split; reflexivity.
Defined.

Lemma decode_clamps_inner_opacity_witness :
  let g := [lit "1"; lit "4"; lit "2"; lit "150"; lit "0"; lit "3"; lit "50";
            lit "2"] in
  let w' := snd (parse_valorant_code w_150_typed) in
  re_search (code_input w_150_typed) = Some g
  /\ slider_value w_150_typed inner_opacity_slider = 50
  /\ slider_value w' inner_opacity_slider = 100
  /\ attrs w' inner_opacity = PFloat (B64.div_Z 100 100).
Proof.
  intros g w'.
  assert (H : re_search (code_input w_150_typed) = Some g)
    by (vm_compute; reflexivity).
  destruct (decode_clamps_inner_opacity w_150_typed g (B64.div_Z 150 100) H)
    as (_ & Hv & Ha).
  - vm_compute; reflexivity.
  - vm_compute. split; reflexivity.
  - vm_compute; reflexivity.
  - vm_compute. discriminate.
  - split; [exact H|]. split; [vm_compute; reflexivity|].
    split; [exact Hv | exact Ha].
Defined.

Lemma decode_syncs_widgets_witness :
  let g := [lit "1"; lit "4"; lit "2"; lit "75"; lit "0"; lit "3"; lit "50";
            lit "2"] in
  let w' := snd (parse_valorant_code w_sample) in
  re_search (code_input w_sample) = Some g
  /\ last_printed w' = Text "Valorant crosshair code applied successfully!"
  /\ checked w' outline_check = true
  /\ slider_value w' inner_opacity_slider = 75
  /\ slider_value w' outer_opacity_slider = 100.
Proof.
  intros g w'.
  assert (H : re_search (code_input w_sample) = Some g)
    by (vm_compute; reflexivity).
  destruct (decode_syncs_widgets w_sample g H) as (Hl & Hc & Hi & Ho).
  - vm_compute; reflexivity.
  - vm_compute. discriminate.
  - vm_compute. discriminate.
  - split; [exact H|]. split; [exact Hl|].
    split; [exact Hc|]. split; [exact Hi | exact Ho].
Defined.

Lemma in_sync_tuned : in_sync w_tuned.
Proof.
  unfold in_sync. split.
  { intros s Hs. unfold in_range.
    destruct s; try contradiction; split;
      try (vm_compute; reflexivity);
      vm_compute; split; intros H; discriminate H. }
  split; [vm_compute; reflexivity|].
  split; [vm_compute; reflexivity|].
  split; [intros c; destruct c; vm_compute; reflexivity|].
  split.
  { exists [PInt 255; PInt 0; PInt 0]. split; vm_compute; reflexivity. }
  intros a [<-|[<-|[<-|[<-|[<-|[]]]]]]; vm_compute; reflexivity.
Qed.

Lemma dumpable_tuned : json_dumpable (settings_of w_tuned) = true.
Proof. vm_compute. reflexivity. Qed.


Lemma restart_restores_witness :
  let w' := exec startup
              (init_world (settings_file (exec save_settings w_tuned))) in
  attrs w_tuned outline_color = PTuple [PInt 0; PInt 0; PInt 255]
  /\ attrs w' outline_color = PTuple [PInt 0; PInt 0; PInt 0]
  /\ attrs w' size = PInt 150
  /\ attrs w' color = PTuple [PInt 255; PInt 0; PInt 0]
  /\ slider_value w' size_slider = 150
  /\ checked w' outline_check = true.
Proof.
  intros w'.
  destruct (restart_restores w_tuned in_sync_tuned dumpable_tuned)
    as (Ha & Ho & Hs & _ & Hc & _).
  split; [reflexivity|]. split; [exact Ho|].
  split; [exact (Ha size ltac:(discriminate))|].
  split; [exact (Ha color ltac:(discriminate))|].
  split; [exact (Hs size_slider ltac:(discriminate))|].
  exact (Hc outline_check).
Defined.

Lemma opacity_percent_read_back_witness :
  py_truediv 29 100 = Ok (B64.div_Z 29 100)
  /\ py_int_times_100 (PFloat (B64.div_Z 29 100)) = Ok 28.
Proof. exact (opacity_percent_read_back 29 ltac:(lia)). Defined.

Lemma convert_accepts_witness :
  (exists out,
     fst (convert_to_recommended_resolution (Picture uint8 img_7x5) started)
     = Ok (Some out))
  /\ fst (convert_to_recommended_resolution (Picture uint16 img_7x5) started)
     = Ok None.
Proof.
  destruct (convert_accepts (Picture uint8 img_7x5) started nearest_contract
              rectangular_img_7x5) as (H8 & _).
  destruct (convert_accepts (Picture uint16 img_7x5) started nearest_contract
              rectangular_img_7x5) as (_ & H16 & _).
  split; [apply H8 | apply H16]; reflexivity.
Defined.

Lemma load_crosshair_image_outcome_witness :
  let p := Some (Some (Picture uint8 img_7x5)) in
  let w' := snd (load_crosshair_image p started) in
  fst (load_crosshair_image p started) = Ok tt
  /\ attrs w' = attrs started
  /\ exists out,
       crosshair_image w' = Some out
       /\ shape out = [64; 64; 4]%nat.
Proof.
  intros p w'.
  destruct (load_crosshair_image_outcome p started
              nearest_contract rectangular_img_7x5)
    as (Hr & Ha & _ & _ & _ & _ & out & Hi & (Hs & _) & _).
  split; [exact Hr|]. split; [exact Ha|].
  exists out. split; [exact Hi | exact Hs].
Defined.

Lemma enhancement_on_bytes_witness :
  convertScaleAbs_byte 0 = 30
  /\ 30 <= convertScaleAbs_byte 0 <= 255
  /\ (convertScaleAbs_byte 0 = 255 <-> 150 <= 0)
  /\ convertScaleAbs_byte 0 <= convertScaleAbs_byte 200.
Proof.
  destruct (enhancement_on_bytes 0 200 ltac:(lia) ltac:(lia))
    as (H1 & _ & H3 & H4).
  split; [reflexivity|]. split; [exact H1|]. split; [exact H3 | exact H4].
Defined.


Lemma decode_reads_code_text_witness :
  let ds := [lit "1"; lit "4"; lit "2"; lit "75"; lit "0"; lit "3"; lit "50";
             lit "2"] in
  sample_code = code_text (lit "x;") ds ++ []
  /\ re_search (code_text (lit "x;") ds ++ []) = Some ds.
Proof.
  intros ds. split; [reflexivity|].
  apply decode_reads_code_text.
  - repeat constructor; discriminate.
  - reflexivity.
  - repeat (apply Forall_cons;
            [split; [discriminate | repeat constructor]|]).
    apply Forall_nil.
  - exact I.
Defined.

Lemma update_crosshair_succeeds_iff_witness :
  last_printed (snd (update_crosshair w_large))
  = Text "Crosshair updated successfully".
Proof.
  assert (Hmax : forall S, attrs w_large size = PInt S -> S <= 200).
  { intros S E. injection E as <-. lia. }
  destruct (update_crosshair_succeeds_iff w_large solid nearest_contract
              eq_refl rectangular_solid eq_refl Hmax) as ((_ & H) & _).
  apply H. exists 100. split; [reflexivity | lia].
Defined.

Lemma nothing_drawn_without_image_witness :
  let es := [MoveSlider size_slider 150; Click outline_check;
             LoadImage None; LoadImage (Some None)] in
  let w := run es (exec startup (init_world None)) in
  Forall reads_no_image es
  /\ crosshair_image w = None /\ pixmap w = None /\ geometry w = None.
Proof.
  intros es w.
  assert (H : Forall reads_no_image es) by (repeat constructor).
  split; [exact H|].
  exact (nothing_drawn_without_image None es H).
Defined.

Lemma load_settings_defaults_witness :
  attrs w_empty_doc size = PInt 150
  /\ attrs (snd (load_settings w_empty_doc)) size = PInt 100
  /\ slider_value (snd (load_settings w_empty_doc)) size_slider = 100.
Proof.
  destruct (load_settings_defaults [] w_empty_doc eq_refl
              (fun k _ => eq_refl))
    as (_ & _ & Ha & _ & Hs & _).
  split; [reflexivity|]. split.
  - exact (Ha size ltac:(discriminate)).
  - exact (Hs size_slider ltac:(discriminate)).
Defined.

Lemma load_settings_late_failure_witness :
  let w := init_world (Some (Json doc_bad_size)) in
  let w' := snd (load_settings w) in
  last_printed w' = Err "Error loading settings: " TypeError
  /\ attrs w' size = PStr (lit "big")
  /\ slider_value w' size_slider = 100.
Proof.
  intros w w'.
  assert (Hr : reads doc_bad_size read_bad_size).
  { unfold reads. repeat split.
    now exists (PTuple [PInt 0; PInt 255; PInt 0]). }
  destruct (load_settings_late_failure doc_bad_size read_bad_size TypeError
              w eq_refl Hr eq_refl)
    as (_ & Hl & Ha & _ & Hs & _).
  split; [exact Hl|]. split.
  - exact (Ha size ltac:(discriminate)).
  - exact (Hs size_slider).
Defined.

Lemma update_crosshair_canvas_size_witness :
  let w' := snd (update_crosshair w_large) in
  geometry w' = Some (133, 133)
  /\ exists rest,
       stdout w'
       = stdout w_large
         ++ [ Text "Starting update_crosshair";
              Fmt "Crosshair image shape: " [shape_val solid];
              Fmt "Creating image of size: " [PInt 133; PInt 133] ]
         ++ rest.
Proof.
  intros w'.
  destruct (update_crosshair_canvas_size w_large solid 100 eq_refl eq_refl)
    as (_ & _ & Hout & Hshown).
  split; [|apply Hout; vm_compute; reflexivity].
  apply Hshown. vm_compute. reflexivity.
Defined.

